(** * Guest accounts of the Open Collective API

    A shallow embedding of [server/lib/guest-accounts.ts] and of the two
    resolvers of [server/graphql/v2/mutation/GuestMutations.ts], with the
    theorems that settle the properties stated about them.

    The ORM calls are modelled on an explicit relational store (three tables
    of rows, in insertion order, with their id sequences); every call is
    recorded in a trace, so that "happens before any store access" is a
    statement about that trace.  Asynchronous code is sequenced in program
    order: one request runs alone.  The constraints of the schema (unique
    slugs, unique token values) are not modelled: an insertion goes
    through. *)

From stdpp Require Import base option list strings gmap.
From Stdlib Require Import ZArith Ascii DecimalString.

Local Open Scope Z_scope.
Local Open Scope string_scope.
Local Open Scope list_scope.

(* ===================================================================== *)
(** ** JavaScript strings and values *)
(* ===================================================================== *)

(** A string is held as the bytes of its UTF-8 encoding, which is also what
    [Buffer.from(s)] gives.  [trim] is that of ECMAScript on every code
    point.  The case mappings of [toLowerCase] are tables of Unicode: the
    resolver that lower-cases takes [toLowerCase] as a parameter, and
    [ascii_toLowerCase] is what it does on ASCII text. *)
Module Js.

(** A value of type [string | null | undefined] is an [option string]:
    [None] stands for both null and undefined.  [truthy v] is [!!v]:
    neither null, undefined nor the empty string. *)
Definition truthy (v : option string) : bool :=
  match v with
  | Some s => negb (String.eqb s "")
  | None => false
  end.

(** [a ?? b] *)
Definition nullish {A} (a : option A) (b : A) : A :=
  match a with Some x => x | None => b end.

(** The UTF-8 encoding of a code point of the Basic Multilingual Plane. *)
Definition utf8 (point : N) : list ascii :=
  (if point <? 128 then [ascii_of_N point]
   else if point <? 2048 then
     [ascii_of_N (192 + point / 64); ascii_of_N (128 + point mod 64)]
   else
     [ascii_of_N (224 + point / 4096); ascii_of_N (128 + (point / 64) mod 64);
      ascii_of_N (128 + point mod 64)])%N.

(** The code points that [trim] removes.  WhiteSpace: TAB, VT, FF, ZWNBSP
    (U+FEFF) and the space separators of Unicode (SP, NBSP U+00A0, U+1680,
    U+2000 to U+200A, U+202F, U+205F, U+3000).  LineTerminator: LF, CR,
    U+2028 and U+2029. *)
Definition white_space_points : list N :=
  [ 9; 11; 12; 65279;
    32; 160; 5760; 8192; 8193; 8194; 8195; 8196; 8197; 8198; 8199; 8200;
    8201; 8202; 8239; 8287; 12288;
    10; 13; 8232; 8233 ]%N.

Definition white_space : list (list ascii) := utf8 <$> white_space_points.

(** [s] without the bytes [p] at its start, when it starts with them. *)
Fixpoint strip_prefix (p s : list ascii) : option (list ascii) :=
  match p, s with
  | [], _ => Some s
  | a :: p', b :: s' => if Ascii.eqb a b then strip_prefix p' s' else None
  | _ :: _, [] => None
  end.

(** [s] without the pattern it starts with, when it starts with one. *)
Definition strip_one (patterns : list (list ascii)) (s : list ascii)
    : option (list ascii) :=
  head (omap (λ p, strip_prefix p s) patterns).

(** Patterns are taken off the start of [s] as long as there is one; a
    pattern has at least one byte, so the length of [s] is fuel enough. *)
Fixpoint strip (patterns : list (list ascii)) (fuel : nat) (s : list ascii)
    : list ascii :=
  match fuel with
  | O => s
  | S fuel =>
      match strip_one patterns s with
      | Some rest => strip patterns fuel rest
      | None => s
      end
  end.

Definition trimStart_bytes (s : list ascii) : list ascii :=
  strip white_space (length s) s.

Definition trimEnd_bytes (s : list ascii) : list ascii :=
  reverse (strip (reverse <$> white_space) (length s) (reverse s)).

Definition trimStart (s : string) : string :=
  String.string_of_list_ascii (trimStart_bytes (String.list_ascii_of_string s)).

Definition trimEnd (s : string) : string :=
  String.string_of_list_ascii (trimEnd_bytes (String.list_ascii_of_string s)).

(** [s.trim()] *)
Definition trim (s : string) : string :=
  String.string_of_list_ascii
    (trimEnd_bytes (trimStart_bytes (String.list_ascii_of_string s))).

Definition is_capital (c : ascii) : bool :=
  let n := N_of_ascii c in ((65 <=? n) && (n <=? 90))%N.

Definition lower (c : ascii) : ascii :=
  if is_capital c then ascii_of_N (N_of_ascii c + 32) else c.

(** [s.toLowerCase()] for a text of ASCII characters: the letters A to Z
    are mapped to a to z, every other character to itself. *)
Fixpoint ascii_toLowerCase (s : string) : string :=
  match s with
  | EmptyString => EmptyString
  | String c s' => String (lower c) (ascii_toLowerCase s')
  end.

(** Every character of the text is an ASCII character. *)
Definition ascii_text (s : string) : Prop :=
  Forall (λ c, (N_of_ascii c < 128)%N) (String.list_ascii_of_string s).

(** A function is [String.prototype.toLowerCase] as far as ASCII texts
    go. *)
Definition lowers_ascii (toLowerCase : string → string) : Prop :=
  ∀ s, ascii_text s → toLowerCase s = ascii_toLowerCase s.

(** The text is made of white space only. *)
Definition blank (s : string) : Prop :=
  ∃ spaces, Forall (λ w, w ∈ white_space) spaces
            ∧ String.list_ascii_of_string s = concat spaces.

(** No pattern is the start of another one. *)
Definition prefix_free (patterns : list (list ascii)) : Prop :=
  Forall (λ p, Forall (λ w, p `prefix_of` w → p = w) patterns) patterns.

(** The text has no white space at its start and none at its end. *)
Definition unpadded (s : string) : Prop :=
  Forall (λ w, ¬ w `prefix_of` String.list_ascii_of_string s
               ∧ ¬ w `suffix_of` String.list_ascii_of_string s) white_space.

Definition b64_alphabet : string :=
  "ABCDEFGHIJKLMNOPQRSTUVWXYZabcdefghijklmnopqrstuvwxyz0123456789+/".

Definition b64_digit (n : N) : ascii :=
  match String.get (N.to_nat n) b64_alphabet with
  | Some c => c
  | None => "="%char
  end.

Fixpoint b64_encode (bytes : list N) : string :=
  match bytes with
  | [] => ""
  | [a] =>
      String (b64_digit (a / 4))
        (String (b64_digit ((a mod 4) * 16)) "==")
  | [a; b] =>
      String (b64_digit (a / 4))
        (String (b64_digit ((a mod 4) * 16 + b / 16))
           (String (b64_digit ((b mod 16) * 4)) "="))
  | a :: b :: c :: rest =>
      String (b64_digit (a / 4))
        (String (b64_digit ((a mod 4) * 16 + b / 16))
           (String (b64_digit ((b mod 16) * 4 + c / 64))
              (String (b64_digit (c mod 64)) (b64_encode rest))))
  end%N.

Fixpoint bytes_of (s : string) : list N :=
  match s with
  | EmptyString => []
  | String c s' => N_of_ascii c :: bytes_of s'
  end.

(** [Buffer.from(s).toString('base64')] *)
Definition base64 (s : string) : string := b64_encode (bytes_of s).

(** The value of a base64 digit. *)
Definition b64_value (c : ascii) : N :=
  let n := N_of_ascii c in
  (if (65 <=? n) && (n <=? 90) then n - 65
   else if (97 <=? n) && (n <=? 122) then n - 71
   else if (48 <=? n) && (n <=? 57) then n + 4
   else if n =? 43 then 62 else 63)%N.

(** The bytes that a base64 text stands for. *)
Fixpoint b64_decode (s : string) : list N :=
  match s with
  | String c1 (String c2 (String c3 (String c4 rest))) =>
      let a := (b64_value c1 * 4 + b64_value c2 / 16)%N in
      let b := ((b64_value c2 mod 16) * 16 + b64_value c3 / 4)%N in
      let c := ((b64_value c3 mod 4) * 64 + b64_value c4)%N in
      if Ascii.eqb c3 "=" then [a]
      else if Ascii.eqb c4 "=" then [a; b]
      else a :: b :: c :: b64_decode rest
  | _ => []
  end.

(** A JSON value stored under a key of a [data] column. *)
Inductive json :=
| JNull
| JBool (b : bool)
| JNum (n : Z)
| JStr (s : string).

#[global] Instance json_eq_dec : EqDecision json.
Proof. solve_decision. Defined.

End Js.

(* ===================================================================== *)
(** ** A key of a JSON column compared with [true] *)
(* ===================================================================== *)

(** For [where: { data: { isGuest: true } }] on a JSON column Sequelize
    writes [CAST(("data"#>>'{isGuest}') AS BOOLEAN) = true]: the value under
    the key is taken as text and the text is read as a boolean. *)
Module Pg.

(** [isspace] of C, on a byte. *)
Definition isspace (c : ascii) : bool :=
  let n := N_of_ascii c in
  ((9 <=? n) && (n <=? 13))%N || (n =? 32)%N.

Fixpoint skip_spaces (s : list ascii) : list ascii :=
  match s with
  | [] => []
  | c :: s' => if isspace c then skip_spaces s' else s
  end.

(** [data #>> '{key}']: a string as it is, a number or a boolean as it is
    written, and NULL for a JSON null and for a key that is not there. *)
Definition text_at (data : gmap string Js.json) (key : string) : option string :=
  match data !! key with
  | Some (Js.JBool b) => Some (if b then "true" else "false")
  | Some (Js.JNum n) => Some (NilZero.string_of_int (Z.to_int n))
  | Some (Js.JStr s) => Some s
  | Some Js.JNull | None => None
  end.

(** [boolin]: white space around the text is skipped; then, whatever the
    letter case, a beginning of [true], [yes], [false] or [no], the words
    [on] and [off] (also [of]), and [1] and [0] are booleans.  Any other
    text is none. *)
Definition boolean (text : string) : option bool :=
  let t :=
    Js.ascii_toLowerCase
      (String.string_of_list_ascii
         (reverse (skip_spaces
                     (reverse (skip_spaces (String.list_ascii_of_string text)))))) in
  let begins (word : string) : bool :=
    negb (String.eqb t "") && String.prefix t word in
  if begins "true" || begins "yes" || String.eqb t "on" || String.eqb t "1"
  then Some true
  else if begins "false" || begins "no" || String.eqb t "of"
          || String.eqb t "off" || String.eqb t "0"
  then Some false
  else None.

(** The condition holds of a row.  NULL is not [true].  On a text that is
    no boolean PostgreSQL raises an error when it comes to evaluate the
    cast on that row, which is up to its plan; the rows of this code hold a
    JSON boolean under [isGuest] (it writes no other value), and a row with
    such a text is here a row that is not selected. *)
Definition is_true (data : gmap string Js.json) (key : string) : bool :=
  bool_decide (text_at data key ≫= boolean = Some true).

End Pg.

(* ===================================================================== *)
(** ** Rows, tables and the store *)
(* ===================================================================== *)

(** [location] argument of the guest profile functions. *)
Module Location.
Record t := mk { country : option string; address : option string }.
End Location.

(** A row of [Collectives]: the columns this code reads or writes. *)
Module Collective.
Record t := mk {
  id : Z;
  type : string;
  slug : string;
  name : option string;
  data : gmap string Js.json;
  address : option string;
  countryISO : option string;
  CreatedByUserId : option Z;
  deletedAt : option Z }.

#[global] Instance eq_dec : EqDecision t.
Proof. solve_decision. Defined.

(** The values handed to [Collective.create]. *)
Record values := mkValues {
  v_type : string;
  v_slug : string;
  v_name : option string;
  v_data : gmap string Js.json;
  v_address : option string;
  v_countryISO : option string }.

(** The values handed to [collective.update]: a column left out is [None]. *)
Record changes := mkChanges {
  set_name : option (option string);
  set_slug : option string;
  set_data : option (gmap string Js.json);
  set_address : option string;
  set_countryISO : option string;
  set_CreatedByUserId : option Z }.

(** lodash's [isEmpty] on such an object: it has no key. *)
Definition isEmpty (ch : changes) : bool :=
  bool_decide (set_name ch = None) && bool_decide (set_slug ch = None)
  && bool_decide (set_data ch = None) && bool_decide (set_address ch = None)
  && bool_decide (set_countryISO ch = None)
  && bool_decide (set_CreatedByUserId ch = None).

(** The keys of such an object. *)
Definition columns (ch : changes) : list string :=
  (if set_name ch is Some _ then ["name"] else [])
  ++ (if set_slug ch is Some _ then ["slug"] else [])
  ++ (if set_data ch is Some _ then ["data"] else [])
  ++ (if set_countryISO ch is Some _ then ["countryISO"] else [])
  ++ (if set_address ch is Some _ then ["address"] else [])
  ++ (if set_CreatedByUserId ch is Some _ then ["CreatedByUserId"] else []).

Definition apply (ch : changes) (c : t) : t :=
  {| id := id c;
     type := type c;
     slug := default (slug c) (set_slug ch);
     name := default (name c) (set_name ch);
     data := default (data c) (set_data ch);
     address := from_option Some (address c) (set_address ch);
     countryISO := from_option Some (countryISO c) (set_countryISO ch);
     CreatedByUserId := from_option Some (CreatedByUserId c) (set_CreatedByUserId ch);
     deletedAt := deletedAt c |}.

(** The row is visible to a paranoid query. *)
Definition live (c : t) : bool := bool_decide (deletedAt c = None).
End Collective.

(** A row of [Users]. *)
Module User.
Record t := mk {
  id : Z;
  email : string;
  confirmedAt : option Z;
  CollectiveId : Z;
  emailConfirmationToken : option string;
  deletedAt : option Z }.

#[global] Instance eq_dec : EqDecision t.
Proof. solve_decision. Defined.

Definition live (u : t) : bool := bool_decide (deletedAt u = None).

(** [!!user.confirmedAt] *)
Definition confirmed (u : t) : bool := bool_decide (confirmedAt u ≠ None).
End User.

(** A row of [GuestTokens]. *)
Module GuestToken.
Record t := mk {
  id : Z;
  value : string;
  CollectiveId : Z;
  deletedAt : option Z }.

#[global] Instance eq_dec : EqDecision t.
Proof. solve_decision. Defined.

Definition live (g : t) : bool := bool_decide (deletedAt g = None).
End GuestToken.

(** A row of [Orders]: the financial record that a merge moves from one
    profile to another. *)
Module Order.
Record t := mk { id : Z; FromCollectiveId : Z; CollectiveId : Z }.

#[global] Instance eq_dec : EqDecision t.
Proof. solve_decision. Defined.
End Order.

(** The database: tables in insertion order and the id sequences.  A
    sequence is not transactional: a rollback does not give an id back. *)
Record Store := mkStore {
  Collectives : list Collective.t;
  Users : list User.t;
  GuestTokens : list GuestToken.t;
  Orders : list Order.t;
  next_Collective : Z;
  next_User : Z;
  next_GuestToken : Z }.

(** The durable records, without the sequences. *)
Definition rows (s : Store) :=
  (Collectives s, Users s, GuestTokens s, Orders s).

(** Ids come from the sequences, so every id in a table, its own or a
    reference to a collective, is below the next value of its sequence. *)
Definition ids_from_sequences (s : Store) : Prop :=
  Forall (λ c, Collective.id c < next_Collective s) (Collectives s)
  ∧ Forall (λ u, User.id u < next_User s
                 ∧ User.CollectiveId u < next_Collective s) (Users s)
  ∧ Forall (λ g, GuestToken.id g < next_GuestToken s
                 ∧ GuestToken.CollectiveId g < next_Collective s) (GuestTokens s).

(* ===================================================================== *)
(** ** Errors, the trace and the request monad *)
(* ===================================================================== *)

(** The error classes thrown by this code.  [Error] is the plain JavaScript
    error; the others are the classes of [graphql/errors]. *)
Inductive Error :=
| PlainError (message : string)
| TypeError (message : string)
| InvalidToken (message : string)
| BadRequest (message : string) (code : option string)
| NotFound (message : string)
| RateLimitExceeded (message : string).

#[global] Instance Error_eq_dec : EqDecision Error.
Proof. solve_decision. Defined.

(** One statement sent to the database.  An update of a collective names
    the columns it sets. *)
Inductive Query :=
| BEGIN
| COMMIT
| ROLLBACK
| Collective_create
| Collective_update (columns : list string)
| Collective_generateSlug
| User_findOne
| User_create
| User_update
| User_getCollective
| GuestToken_findOne
| GuestToken_findAll
| GuestToken_create
| GuestToken_destroy.

(** What a request does to the outside, in the order it does it. *)
Inductive Event :=
| Sql (q : Query)
| RegisterCall (key : string)
| MergeCollectives (from into : Z)
| SendEmail (template to link : string).

#[global] Instance Query_eq_dec : EqDecision Query.
Proof. solve_decision. Defined.

#[global] Instance Event_eq_dec : EqDecision Event.
Proof. solve_decision. Defined.

Definition is_store_access (e : Event) : bool :=
  match e with
  | Sql _ | MergeCollectives _ _ => true
  | RegisterCall _ | SendEmail _ _ _ => false
  end.

(** Everything a request can see or change: the database, the counters of
    the rate limiter, the time of [new Date()], and the trace so far. *)
Record World := mkWorld {
  store : Store;
  counters : gmap string Z;
  clock : Z;
  trace : list Event }.

Inductive Result (A : Type) :=
| Ok (a : A)
| Err (e : Error).
Arguments Ok {A} a.
Arguments Err {A} e.

(** An [async] function: it resolves or rejects, and leaves a world. *)
Definition M (A : Type) : Type := World → Result A * World.

Definition ret {A} (a : A) : M A := λ w, (Ok a, w).

Definition throw {A} (e : Error) : M A := λ w, (Err e, w).

Definition bind {A B} (m : M A) (k : A → M B) : M B := λ w,
  match m w with
  | (Ok a, w') => k a w'
  | (Err e, w') => (Err e, w')
  end.

Notation "'let!' x ':=' m 'in' k" := (bind m (λ x, k))
  (at level 10, x pattern, m at level 100, k at level 200,
   format "'[v' 'let!'  x  ':='  m  'in' '/' k ']'").

Definition emit (e : Event) (w : World) : World :=
  {| store := store w; counters := counters w; clock := clock w;
     trace := trace w ++ [e] |}.

Definition with_store (s : Store) (w : World) : World :=
  {| store := s; counters := counters w; clock := clock w; trace := trace w |}.

(** A statement: recorded in the trace, then run on the store. *)
Definition sql {A} (q : Query) (run : Store → A * Store) : M A := λ w,
  let w := emit (Sql q) w in
  let '(a, s) := run (store w) in
  (Ok a, with_store s w).

Definition read {A} (q : Query) (run : Store → A) : M A :=
  sql q (λ s, (run s, s)).

(** [new Date()] *)
Definition now : M Z := λ w, (Ok (clock w), w).

Definition with_rows (old s : Store) : Store :=
  {| Collectives := Collectives old; Users := Users old;
     GuestTokens := GuestTokens old; Orders := Orders old;
     next_Collective := next_Collective s; next_User := next_User s;
     next_GuestToken := next_GuestToken s |}.

(** [sequelize.transaction(async transaction => body)]: a managed
    transaction, committed when the callback resolves and rolled back when
    it rejects; the rejection is passed on. *)
Definition transaction {A} (body : M A) : M A := λ w,
  match body (emit (Sql BEGIN) w) with
  | (Ok a, w') => (Ok a, emit (Sql COMMIT) w')
  | (Err e, w') =>
      (Err e, emit (Sql ROLLBACK) (with_store (with_rows (store w) (store w')) w'))
  end.

(* ===================================================================== *)
(** ** The queries of the models *)
(* ===================================================================== *)

Definition collective_by_id (s : Store) (id : Z) : option Collective.t :=
  List.find (λ c, Collective.live c && bool_decide (Collective.id c = id))
    (Collectives s).

(** [GuestTokens] joined with [Collectives] through the association
    [collective], [required: true]: live tokens with a live collective, both
    passing [where]. *)
Definition tokens_with_collective (s : Store)
    (where_ : GuestToken.t → Collective.t → bool)
    : list (GuestToken.t * Collective.t) :=
  omap (λ g,
          if GuestToken.live g then
            match collective_by_id s (GuestToken.CollectiveId g) with
            | Some c => if where_ g c then Some (g, c) else None
            | None => None
            end
          else None)
       (GuestTokens s).

(** [models.GuestToken.findOne({ where: { value }, include: collective })] *)
Definition GuestToken_findOne_by_value (value : string)
    : M (option (GuestToken.t * Collective.t)) :=
  read GuestToken_findOne (λ s,
    head (tokens_with_collective s
            (λ g _, bool_decide (GuestToken.value g = value)))).

(** [models.GuestToken.findAll] of [confirmGuestAccount]: the values are in
    [values], the collective is not [self] and is flagged as guest. *)
Definition GuestToken_findAll_guests (values : list string) (self : Z)
    : M (list (GuestToken.t * Collective.t)) :=
  read GuestToken_findAll (λ s,
    tokens_with_collective s
      (λ g c, bool_decide (GuestToken.value g ∈ values)
              && bool_decide (Collective.id c ≠ self)
              && Pg.is_true (Collective.data c) "isGuest")).

(** [models.GuestToken.create({ CollectiveId, value })] *)
Definition GuestToken_create_row (CollectiveId : Z) (value : string)
    : M GuestToken.t :=
  sql GuestToken_create (λ s,
    let g := GuestToken.mk (next_GuestToken s) value CollectiveId None in
    (g, {| Collectives := Collectives s; Users := Users s;
           GuestTokens := GuestTokens s ++ [g]; Orders := Orders s;
           next_Collective := next_Collective s; next_User := next_User s;
           next_GuestToken := next_GuestToken s + 1 |})).

Definition destroy_token (ids : list Z) (at_ : Z) (g : GuestToken.t)
    : GuestToken.t :=
  if GuestToken.live g && bool_decide (GuestToken.CollectiveId g ∈ ids)
  then GuestToken.mk (GuestToken.id g) (GuestToken.value g)
         (GuestToken.CollectiveId g) (Some at_)
  else g.

(** [models.GuestToken.destroy({ where: { CollectiveId: { [Op.in]: ids } } })]
    on a paranoid model: the rows get a [deletedAt]. *)
Definition GuestToken_destroy_of (ids : list Z) : M unit :=
  let! t := now in
  sql GuestToken_destroy (λ s,
    (tt, {| Collectives := Collectives s; Users := Users s;
            GuestTokens := destroy_token ids t <$> GuestTokens s;
            Orders := Orders s;
            next_Collective := next_Collective s; next_User := next_User s;
            next_GuestToken := next_GuestToken s |})).

(** [models.User.findOne({ where })] *)
Definition User_findOne_where (where_ : User.t → bool) : M (option User.t) :=
  read User_findOne (λ s,
    List.find (λ u, User.live u && where_ u) (Users s)).

(** [models.User.findOne({ where, include: collective, required })] *)
Definition User_findOne_with_collective (where_ : User.t → bool)
    : M (option User.t) :=
  read User_findOne (λ s,
    List.find (λ u, User.live u && where_ u
                    && bool_decide (is_Some (collective_by_id s (User.CollectiveId u))))
      (Users s)).

(** [models.User.create({ email, confirmedAt: null, CollectiveId,
    emailConfirmationToken })] *)
Definition User_create_row (email : string) (CollectiveId : Z)
    (emailConfirmationToken : string) : M User.t :=
  sql User_create (λ s,
    let u := User.mk (next_User s) email None CollectiveId
               (Some emailConfirmationToken) None in
    (u, {| Collectives := Collectives s; Users := Users s ++ [u];
           GuestTokens := GuestTokens s; Orders := Orders s;
           next_Collective := next_Collective s; next_User := next_User s + 1;
           next_GuestToken := next_GuestToken s |})).

Definition confirm_user (at_ : Z) (u : User.t) : User.t :=
  User.mk (User.id u) (User.email u) (Some at_) (User.CollectiveId u) None
    (User.deletedAt u).

(** [user.update({ emailConfirmationToken: null, confirmedAt: new Date() })] *)
Definition User_update_confirmed (u : User.t) : M User.t :=
  let! t := now in
  sql User_update (λ s,
    (confirm_user t u,
     {| Collectives := Collectives s;
        Users := (λ r, if bool_decide (User.id r = User.id u)
                       then confirm_user t r else r) <$> Users s;
        GuestTokens := GuestTokens s; Orders := Orders s;
        next_Collective := next_Collective s; next_User := next_User s;
        next_GuestToken := next_GuestToken s |})).

(** [user.getCollective()] *)
Definition User_getCollective_of (u : User.t) : M (option Collective.t) :=
  read User_getCollective (λ s, collective_by_id s (User.CollectiveId u)).

(** [models.Collective.create(values)] *)
Definition Collective_create_row (v : Collective.values) : M Collective.t :=
  sql Collective_create (λ s,
    let c := Collective.mk (next_Collective s) (Collective.v_type v)
               (Collective.v_slug v) (Collective.v_name v)
               (Collective.v_data v) (Collective.v_address v)
               (Collective.v_countryISO v) None None in
    (c, {| Collectives := Collectives s ++ [c]; Users := Users s;
           GuestTokens := GuestTokens s; Orders := Orders s;
           next_Collective := next_Collective s + 1; next_User := next_User s;
           next_GuestToken := next_GuestToken s |})).

(** [collective.update(changes)]: the named columns of the row of that id
    are written, and the instance is returned with them set. *)
Definition Collective_update_row (c : Collective.t) (ch : Collective.changes)
    : M Collective.t :=
  sql (Collective_update (Collective.columns ch)) (λ s,
    (Collective.apply ch c,
     {| Collectives := (λ r, if bool_decide (Collective.id r = Collective.id c)
                             then Collective.apply ch r else r) <$> Collectives s;
        Users := Users s; GuestTokens := GuestTokens s; Orders := Orders s;
        next_Collective := next_Collective s; next_User := next_User s;
        next_GuestToken := next_GuestToken s |})).

(* ===================================================================== *)
(** ** server/lib/guest-accounts.ts *)
(* ===================================================================== *)

Definition INVALID_TOKEN_MSG : string :=
  "Your guest token is invalid. If you already have an account, please sign in.".

Definition DEFAULT_GUEST_NAME : string := "Guest".

Definition ALREADY_EXISTS_MSG : string :=
  "An account already exists for this email, please sign in.".

(** [COLLECTIVE_TYPE.USER] of [constants/collectives]. *)
Definition COLLECTIVE_TYPE_USER : string := "USER".

Record GuestProfileDetails := mkDetails {
  user : User.t;
  collective : Collective.t;
  token : GuestToken.t }.

(** The values drawn by [createGuestProfile]: two times
    [crypto.randomBytes(48).toString('hex')], and the first group of a
    [uuid()]. *)
Record Random := mkRandom {
  emailConfirmationToken : string;
  guestToken : string;
  uuid_head : string }.

Definition loadGuestToken (guestToken : string) : M GuestProfileDetails :=
  let! found := GuestToken_findOne_by_value guestToken in
  match found with
  | None => throw (PlainError INVALID_TOKEN_MSG)
  | Some (token, collective) =>
      let! user := User_findOne_where
                     (λ u, bool_decide (User.CollectiveId u = Collective.id collective)) in
      match user with
      | None => throw (PlainError INVALID_TOKEN_MSG)
      | Some user => ret (mkDetails user collective token)
      end
  end.

(** The callback given to [sequelize.transaction] in [createGuestProfile]. *)
Definition createGuestProfile_body (rnd : Random) (email : string)
    (name : option string) (location : option Location.t)
    : M GuestProfileDetails :=
  let! collective :=
    Collective_create_row
      {| Collective.v_type := COLLECTIVE_TYPE_USER;
         Collective.v_slug := "guest-" +:+ uuid_head rnd;
         Collective.v_name := Some (Js.nullish name DEFAULT_GUEST_NAME);
         Collective.v_data := {[ "isGuest" := Js.JBool true ]};
         Collective.v_address := location ≫= Location.address;
         Collective.v_countryISO := location ≫= Location.country |} in
  let! found := User_findOne_where (λ u, bool_decide (User.email u = email)) in
  let! user :=
    match found with
    | None =>
        User_create_row email (Collective.id collective)
          (emailConfirmationToken rnd)
    | Some u =>
        if User.confirmed u then throw (PlainError ALREADY_EXISTS_MSG)
        else ret u
    end in
  let! collective :=
    Collective_update_row collective
      {| Collective.set_name := None; Collective.set_slug := None;
         Collective.set_data := None; Collective.set_address := None;
         Collective.set_countryISO := None;
         Collective.set_CreatedByUserId := Some (User.id user) |} in
  let! token := GuestToken_create_row (Collective.id collective) (guestToken rnd) in
  ret (mkDetails user collective token).

Definition createGuestProfile (rnd : Random) (email : option string)
    (name : option string) (location : option Location.t)
    : M GuestProfileDetails :=
  if negb (Js.truthy email)
  then throw (PlainError "An email is required to create a guest profile")
  else transaction (createGuestProfile_body rnd (default "" email) name location).

(** The object [fieldsToUpdate] of [updateCollective]. *)
Definition fieldsToUpdate (collective : Collective.t) (name : option string)
    (location : option Location.t) : Collective.changes :=
  let wanted (supplied stored : option string) : option string :=
    if Js.truthy supplied && bool_decide (supplied ≠ stored) then supplied
    else None in
  {| Collective.set_name :=
       if Js.truthy name && bool_decide (Collective.name collective ≠ name)
       then Some name else None;
     Collective.set_slug := None;
     Collective.set_data := None;
     Collective.set_address :=
       match location with
       | Some l => wanted (Location.address l) (Collective.address collective)
       | None => None
       end;
     Collective.set_countryISO :=
       match location with
       | Some l => wanted (Location.country l) (Collective.countryISO collective)
       | None => None
       end;
     Collective.set_CreatedByUserId := None |}.

Definition updateCollective (collective : Collective.t) (name : option string)
    (location : option Location.t) : M Collective.t :=
  let fields := fieldsToUpdate collective name location in
  if Collective.isEmpty fields then ret collective
  else Collective_update_row collective fields.

Definition getGuestProfileFromToken (rnd : Random) (tokenValue : string)
    (email name : option string) (location : option Location.t)
    : M GuestProfileDetails :=
  let! loaded := loadGuestToken tokenValue in
  if User.confirmed (user loaded) then throw (PlainError ALREADY_EXISTS_MSG)
  else if Js.truthy email
          && bool_decide (User.email (user loaded) ≠ Js.trim (default "" email))
  then createGuestProfile rnd email name location
  else
    let! updated := updateCollective (collective loaded) name location in
    ret (mkDetails (user loaded) updated (token loaded)).

Definition getOrCreateGuestProfile (rnd : Random) (email token name : option string)
    (location : option Location.t) : M GuestProfileDetails :=
  if Js.truthy token
  then getGuestProfileFromToken rnd (default "" token) email name location
  else createGuestProfile rnd email name location.

(** [Promise.all(promises)] on calls that were all started by the [map]:
    it resolves when every one has resolved and rejects with the first
    rejection, while the calls behind it still run to their end.  The calls
    are run here in the order of the list. *)
Fixpoint Promise_all (calls : list (M unit)) : M unit := λ w,
  match calls with
  | [] => (Ok tt, w)
  | call :: rest =>
      match call w with
      | (Ok _, w') => Promise_all rest w'
      | (Err e, w') => (Err e, snd (Promise_all rest w'))
      end
  end.

(** The configuration read by the resolvers: [config.limits] and
    [config.host.website]. *)
Record Config := mkConfig {
  confirmGuestEmailPerMinutePerIp : Z;
  confirmGuestEmailPerMinute : Z;
  website : string }.

(** The second argument [req] of a resolver. *)
Record Request := mkRequest {
  remoteUser : option User.t;
  ip : string }.

(** The arguments of the [confirmGuestAccount] mutation. *)
Record ConfirmArgs := mkConfirmArgs {
  arg_emailConfirmationToken : string;
  arg_guestTokens : option (list string);
  arg_name : option string }.

Section Handlers.

(** [models.Collective.generateSlug], [mergeCollectives] of
    [lib/collectivelib], [RateLimit.registerCall] of [lib/rate-limit] and
    [emailLib.send] of [lib/email] are defined outside these files: the code
    is read for any of them.  A merge sees the store and the time; a rate
    limiter sees its counters; the mail library sees the world and resolves
    or rejects.  [toLowerCase] is [String.prototype.toLowerCase]. *)
Variable generateSlug : list (option string) → Store → string.
Variable mergeCollectives :
  Collective.t → Collective.t → Z → Store → Result unit * Store.
Variable registerCall :
  string → Z → Z → gmap string Z → bool * gmap string Z.
Variable config : Config.
Variable toLowerCase : string → string.
Variable deliver : string → string → string → World → Result unit.

Definition Collective_generateSlug_of (names : list (option string)) : M string :=
  read Collective_generateSlug (generateSlug names).

Definition mergeCollectives_call (from into : Collective.t) : M unit := λ w,
  let w := emit (MergeCollectives (Collective.id from) (Collective.id into)) w in
  let '(r, s) := mergeCollectives from into (clock w) (store w) in
  (r, with_store s w).

(** [new RateLimit(key, limit, expiry).registerCall()] *)
Definition RateLimit_registerCall (key : string) (limit expiry : Z) : M bool := λ w,
  let w := emit (RegisterCall key) w in
  let '(ok, c) := registerCall key limit expiry (counters w) in
  (Ok ok, {| store := store w; counters := c; clock := clock w; trace := trace w |}).

(** [emailLib.send(template, to, data)]: the call is recorded, and its
    outcome is the one of the mail library. *)
Definition emailLib_send (template to link : string) : M unit := λ w,
  (deliver template to link w, emit (SendEmail template to link) w).

Definition newName_of (name : option string) (userCollective : Collective.t)
    : option string :=
  match name with
  | Some n => Some n
  | None =>
      if bool_decide (Collective.name userCollective ≠ Some DEFAULT_GUEST_NAME)
      then Collective.name userCollective
      else Some "Incognito"
  end.

(** The part of [confirmGuestAccount] under "Link the other guest
    profiles": it gives [allCollectiveIds]. *)
Definition linkGuestProfiles (userCollective : Collective.t)
    (guestTokensValues : option (list string)) : M (list Z) :=
  let allCollectiveIds := [Collective.id userCollective] in
  if match guestTokensValues with
     | Some values => bool_decide (length values ≠ 0%nat)
     | None => false
     end
  then
    let! guestTokens :=
      GuestToken_findAll_guests (default [] guestTokensValues)
        (Collective.id userCollective) in
    if bool_decide (0 < length guestTokens)%nat then
      let! _ := Promise_all
                  ((λ t, mergeCollectives_call (snd t) userCollective)
                     <$> guestTokens) in
      ret (allCollectiveIds
             ++ ((λ t, GuestToken.CollectiveId (fst t)) <$> guestTokens))
    else ret allCollectiveIds
  else ret allCollectiveIds.

Definition confirmGuestAccount (emailConfirmationToken : string)
    (name : option string) (guestTokensValues : option (list string))
    : M Collective.t :=
  let! found :=
    User_findOne_where
      (λ u, bool_decide (User.emailConfirmationToken u = Some emailConfirmationToken)) in
  match found with
  | None => throw (InvalidToken "Invalid email confirmation token")
  | Some user =>
      if User.confirmed user
      then throw (BadRequest "This account has already been verified"
                    (Some "ACCOUNT_ALREADY_VERIFIED"))
      else
        let! user := User_update_confirmed user in
        let! userCollective := User_getCollective_of user in
        match userCollective with
        | None =>
            (* [name ?? userCollective.name] reads the profile only when no
               name is given; with a name, [userCollective.update] is the
               first read. *)
            throw (TypeError (if name is Some _
                              then "Cannot read property 'update' of null"
                              else "Cannot read property 'name' of null"))
        | Some userCollective =>
            let newName := newName_of name userCollective in
            let! slug := Collective_generateSlug_of [newName] in
            let! userCollective :=
              Collective_update_row userCollective
                {| Collective.set_name := Some newName;
                   Collective.set_slug := Some slug;
                   Collective.set_data :=
                     Some (<["isGuest" := Js.JBool false]>
                             (Collective.data userCollective));
                   Collective.set_address := None;
                   Collective.set_countryISO := None;
                   Collective.set_CreatedByUserId := None |} in
            let! allCollectiveIds :=
              linkGuestProfiles userCollective guestTokensValues in
            let! _ := GuestToken_destroy_of allCollectiveIds in
            ret userCollective
        end
  end.

(* ===================================================================== *)
(** ** server/graphql/v2/mutation/GuestMutations.ts *)
(* ===================================================================== *)

Definition sendGuestConfirmationEmail_resolve (args_email : string)
    (req : Request) : M bool :=
  if bool_decide (is_Some (remoteUser req)) then
    throw (BadRequest
             "You're signed in, which means your account is already verified. Sign out first if you want to verify another account."
             None)
  else
    let! ok := RateLimit_registerCall
                 ("confirm_guest_account_ip_" +:+ ip req +:+ "}")
                 (confirmGuestEmailPerMinutePerIp config) 60 in
    if negb ok then
      throw (RateLimitExceeded
               "An email has already been sent recently. Please try again in a few minutes.")
    else
      let email := toLowerCase (Js.trim args_email) in
      let! ok := RateLimit_registerCall
                   ("confirm_guest_account_email_" +:+ Js.base64 email)
                   (confirmGuestEmailPerMinute config) 60 in
      if negb ok then
        throw (RateLimitExceeded
                 "An email has already been sent for this address recently. Please check your SPAM folder, or try again in a few minutes.")
      else
        let! found :=
          User_findOne_with_collective (λ u, bool_decide (User.email u = email)) in
        match found with
        | None => throw (NotFound "No user found for this email address")
        | Some user =>
            if User.confirmed user
            then throw (BadRequest "This account has already been confirmed" None)
            else
              let! _ :=
                emailLib_send "confirm-guest-account" (User.email user)
                  (website config +:+ "/confirm/guest/"
                   +:+ default "null" (User.emailConfirmationToken user)
                   +:+ "?email=" +:+ User.email user) in
              ret true
        end.

Definition confirmGuestAccount_resolve (args : ConfirmArgs) : M Collective.t :=
  if match arg_guestTokens args with
     | Some guestTokens => bool_decide (30 < length guestTokens)%nat
     | None => false
     end
  then throw (PlainError "Cannot link more than 30 profiles at the same time")
  else confirmGuestAccount (arg_emailConfirmationToken args) (arg_name args) None.

End Handlers.

(* ===================================================================== *)
(** ** Rows named in the statements *)
(* ===================================================================== *)

(** The collective that [createGuestProfile] creates in a store. *)
Definition created_collective (rnd : Random) (name : option string)
    (location : option Location.t) (s : Store) : Collective.t :=
  Collective.mk (next_Collective s) COLLECTIVE_TYPE_USER
    ("guest-" +:+ uuid_head rnd) (Some (Js.nullish name DEFAULT_GUEST_NAME))
    {[ "isGuest" := Js.JBool true ]}
    (location ≫= Location.address) (location ≫= Location.country) None None.

Definition with_creator (u : User.t) (c : Collective.t) : Collective.t :=
  Collective.mk (Collective.id c) (Collective.type c) (Collective.slug c)
    (Collective.name c) (Collective.data c) (Collective.address c)
    (Collective.countryISO c) (Some (User.id u)) (Collective.deletedAt c).

(** The row that [User.findOne({ where: { email } })] gives. *)
Definition user_by_email (s : Store) (email : string) : option User.t :=
  List.find (λ u, User.live u && bool_decide (User.email u = email)) (Users s).

(** The rows that [loadGuestToken] reads. *)
Definition token_by_value (s : Store) (value : string)
    : option (GuestToken.t * Collective.t) :=
  head (tokens_with_collective s
          (λ g _, bool_decide (GuestToken.value g = value))).

Definition user_of_collective (s : Store) (id : Z) : option User.t :=
  List.find (λ u, User.live u && bool_decide (User.CollectiveId u = id)) (Users s).

(** The column is named in the update when the supplied value is not blank
    and is not the stored one. *)
Definition column_if_new (column : string) (supplied stored : option string)
    : list string :=
  if Js.truthy supplied && bool_decide (supplied ≠ stored) then [column] else [].

(** [supplied || stored]: the value of a column after a backfill. *)
Definition backfilled (supplied stored : option string) : option string :=
  if Js.truthy supplied then supplied else stored.

(** The row that [User.findOne({ where: { emailConfirmationToken } })]
    gives. *)
Definition user_by_confirmation_token (s : Store) (tok : string) : option User.t :=
  List.find (λ u, User.live u
                  && bool_decide (User.emailConfirmationToken u = Some tok))
    (Users s).

(** The table of users after [user.update] has confirmed [u] at [at_]. *)
Definition users_confirmed (u : User.t) (at_ : Z) (users : list User.t)
    : list User.t :=
  (λ r, if bool_decide (User.id r = User.id u) then confirm_user at_ r else r)
    <$> users.

(** The columns that [confirmGuestAccount] writes to the profile. *)
Definition confirmed_changes (name : option string) (prior : Collective.t)
    (slug : string) : Collective.changes :=
  {| Collective.set_name := Some (newName_of name prior);
     Collective.set_slug := Some slug;
     Collective.set_data :=
       Some (<["isGuest" := Js.JBool false]> (Collective.data prior));
     Collective.set_address := None;
     Collective.set_countryISO := None;
     Collective.set_CreatedByUserId := None |}.

(** The [where] of the [findAll] in [confirmGuestAccount]: the rows joined
    for the guest tokens [values], around the confirmed profile [self]. *)
Definition linked_guests (s : Store) (values : list string) (self : Z)
    : list (GuestToken.t * Collective.t) :=
  tokens_with_collective s
    (λ g c, bool_decide (GuestToken.value g ∈ values)
            && bool_decide (Collective.id c ≠ self)
            && Pg.is_true (Collective.data c) "isGuest").

(** The store after [confirmGuestAccount] has confirmed [u] and renamed
    the profile [prior], and the profile as it is returned. *)
Definition store_users_confirmed (u : User.t) (at_ : Z) (s : Store) : Store :=
  {| Collectives := Collectives s;
     Users := users_confirmed u at_ (Users s);
     GuestTokens := GuestTokens s; Orders := Orders s;
     next_Collective := next_Collective s; next_User := next_User s;
     next_GuestToken := next_GuestToken s |}.

Definition profile_changes (generateSlug : list (option string) → Store → string)
    (name : option string) (u : User.t) (prior : Collective.t) (at_ : Z)
    (s : Store) : Collective.changes :=
  confirmed_changes name prior
    (generateSlug [newName_of name prior] (store_users_confirmed u at_ s)).

Definition store_profile_confirmed
    (generateSlug : list (option string) → Store → string)
    (name : option string) (u : User.t) (prior : Collective.t) (at_ : Z)
    (s : Store) : Store :=
  {| Collectives :=
       (λ r, if bool_decide (Collective.id r = Collective.id prior)
             then Collective.apply (profile_changes generateSlug name u prior at_ s) r
             else r) <$> Collectives s;
     Users := users_confirmed u at_ (Users s);
     GuestTokens := GuestTokens s; Orders := Orders s;
     next_Collective := next_Collective s; next_User := next_User s;
     next_GuestToken := next_GuestToken s |}.

(** The row that the [User.findOne] of [sendGuestConfirmationEmail] gives:
    the live user of that email whose collective is live. *)
Definition user_with_profile_by_email (s : Store) (email : string)
    : option User.t :=
  List.find (λ u, User.live u && bool_decide (User.email u = email)
                  && bool_decide (is_Some (collective_by_id s (User.CollectiveId u))))
    (Users s).

(* ===================================================================== *)
(** ** The collaborators, for running the code *)
(* ===================================================================== *)

(** Modelled from the spec: the rate limiter of [lib/rate-limit], which
    "bounds calls per logical key per time window" with "a fixed quota" and
    "a shared counter keyed by a per-scope string".  One window is modelled:
    a call is counted unless the quota of its key is used up. *)
Definition counting_registerCall (key : string) (limit expiry : Z)
    (calls : gmap string Z) : bool * gmap string Z :=
  let count := default 0 (calls !! key) in
  if (limit <=? count)%Z then (false, calls)
  else (true, <[key := count + 1]> calls).

(** Modelled from the spec: the account merge of [lib/collectivelib], which
    "migrates all of the source's financial and relational records to the
    target and soft-deletes the source". *)
Definition moving_mergeCollectives (from into : Collective.t) (at_ : Z)
    (s : Store) : Result unit * Store :=
  let moved (id : Z) : Z :=
    if bool_decide (id = Collective.id from) then Collective.id into else id in
  (Ok tt,
   {| Collectives :=
        (λ c, if Collective.live c
                 && bool_decide (Collective.id c = Collective.id from)
              then Collective.mk (Collective.id c) (Collective.type c)
                     (Collective.slug c) (Collective.name c) (Collective.data c)
                     (Collective.address c) (Collective.countryISO c)
                     (Collective.CreatedByUserId c) (Some at_)
              else c) <$> Collectives s;
      Users := Users s;
      GuestTokens := GuestTokens s;
      Orders :=
        (λ o, Order.mk (Order.id o) (moved (Order.FromCollectiveId o))
                (moved (Order.CollectiveId o))) <$> Orders s;
      next_Collective := next_Collective s; next_User := next_User s;
      next_GuestToken := next_GuestToken s |}).

(** Modelled from the spec: the slug generator of the Collective model,
    which derives the slug "from the final name", "collision-avoided". *)
Definition lowercase_generateSlug (names : list (option string)) (s : Store)
    : string :=
  let base := Js.ascii_toLowerCase (default "" (mjoin (head names))) in
  if bool_decide (Exists (λ c, Collective.slug c = base) (Collectives s))
  then base +:+ "1" else base.

(** Modelled from the spec: the Notifier, which "sends templated email";
    here every mail is delivered. *)
Definition delivering (template to link : string) (w : World) : Result unit :=
  Ok tt.

(** Modelled from the spec: a Notifier whose "delivery failure" is "not
    caught" by the resolver; here no mail is delivered. *)
Definition failing_delivery (template to link : string) (w : World)
    : Result unit :=
  Err (PlainError "Connection timeout").

Definition test_config : Config :=
  {| confirmGuestEmailPerMinutePerIp := 2;
     confirmGuestEmailPerMinute := 1;
     website := "https://opencollective.test" |}.

Definition guest_data : gmap string Js.json := {[ "isGuest" := Js.JBool true ]}.

(** A database as the tests build it: Ada contributed twice as a guest with
    the same email (profiles 1 and 4), Bob once with a name and a country
    kept in his profile's data, and Carol has a verified account. *)
Definition test_store : Store :=
  {| Collectives :=
       [ Collective.mk 1 "USER" "guest-1a2b3c4d" (Some "Guest") guest_data
           None None (Some 1) None;
         Collective.mk 2 "USER" "guest-5e6f7a8b" (Some "Zappa")
           (<["locale" := Js.JStr "fr"]> guest_data) None (Some "FR") (Some 2) None;
         Collective.mk 3 "USER" "carol" (Some "Carol") ∅ None None (Some 3) None;
         Collective.mk 4 "USER" "guest-9c0d1e2f" (Some "Guest") guest_data
           None None (Some 1) None ];
     Users :=
       [ User.mk 1 "ada@example.org" None 1 (Some "confirm-ada") None;
         User.mk 2 "bob@example.org" None 2 (Some "confirm-bob") None;
         User.mk 3 "carol@example.org" (Some 1600000000) 3 None None ];
     GuestTokens :=
       [ GuestToken.mk 1 "guest-token-ada" 1 None;
         GuestToken.mk 2 "guest-token-bob" 2 None;
         GuestToken.mk 3 "guest-token-ada-bis" 4 None ];
     Orders := [ Order.mk 1 1 9; Order.mk 2 4 9 ];
     next_Collective := 5; next_User := 4; next_GuestToken := 4 |}.

(** Bob's guest profile, as [loadGuestToken] gives it. *)
Definition bob_profile : GuestProfileDetails :=
  {| user := User.mk 2 "bob@example.org" None 2 (Some "confirm-bob") None;
     collective :=
       Collective.mk 2 "USER" "guest-5e6f7a8b" (Some "Zappa")
         (<["locale" := Js.JStr "fr"]> guest_data) None (Some "FR") (Some 2) None;
     token := GuestToken.mk 2 "guest-token-bob" 2 None |}.

Definition test_world : World :=
  {| store := test_store; counters := ∅; clock := 1603200000; trace := [] |}.

Definition test_random : Random :=
  {| emailConfirmationToken := "c0ffee"; guestToken := "decade";
     uuid_head := "0badf00d" |}.

(* ===================================================================== *)
(** ** Running the code on the test database *)
(* ===================================================================== *)

Example trim_both : Js.trim "  a b@c.io	 " = "a b@c.io".
Proof. reflexivity. Qed.

Example trim_blank : Js.trim "   " = "".
Proof. reflexivity. Qed.

(** A no-break space (U+00A0) before and a line separator (U+2028) and a
    byte order mark (U+FEFF) behind are trimmed as well. *)
Example trim_unicode :
  Js.trim (String.string_of_list_ascii (Js.utf8 160) +:+ "bob@example.org"
           +:+ String.string_of_list_ascii (Js.utf8 8232 ++ Js.utf8 65279))
  = "bob@example.org".
Proof. reflexivity. Qed.

Example lower_mixed :
  Js.ascii_toLowerCase "Zappa@Example.ORG" = "zappa@example.org".
Proof. reflexivity. Qed.

Example boolean_texts :
  Pg.boolean "true" = Some true ∧ Pg.boolean " T " = Some true
  ∧ Pg.boolean "yes" = Some true ∧ Pg.boolean "on" = Some true
  ∧ Pg.boolean "1" = Some true ∧ Pg.boolean "false" = Some false
  ∧ Pg.boolean "of" = Some false ∧ Pg.boolean "0" = Some false
  ∧ Pg.boolean "o" = None ∧ Pg.boolean "" = None
  ∧ Pg.boolean "truely" = None ∧ Pg.boolean "10" = None.
Proof. repeat split; reflexivity. Qed.

(** The flag as this code writes it, and as a JSON string. *)
Example isGuest_as_text :
  Pg.is_true {[ "isGuest" := Js.JBool true ]} "isGuest" = true
  ∧ Pg.is_true {[ "isGuest" := Js.JStr "true" ]} "isGuest" = true
  ∧ Pg.is_true {[ "isGuest" := Js.JBool false ]} "isGuest" = false
  ∧ Pg.is_true {[ "isGuest" := Js.JNull ]} "isGuest" = false
  ∧ Pg.is_true ∅ "isGuest" = false.
Proof. repeat split; vm_compute; reflexivity. Qed.

Example base64_rfc : Js.base64 "foobar" = "Zm9vYmFy" /\ Js.base64 "fooba" = "Zm9vYmE="
                     /\ Js.base64 "foob" = "Zm9vYg==".
Proof. repeat split; reflexivity. Qed.

Example base64_of_email :
  Js.base64 "bob@example.org" = "Ym9iQGV4YW1wbGUub3Jn".
Proof. reflexivity. Qed.

(** A confirmation mail for Bob: both rate limits are charged, then the
    user is read, then the mail leaves. *)
Example send_for_bob :
  let out := sendGuestConfirmationEmail_resolve counting_registerCall test_config
               Js.ascii_toLowerCase delivering
               " Bob@Example.org " (mkRequest None "10.0.0.7") test_world in
  out.1 = Ok true
  ∧ trace out.2 =
      [ RegisterCall "confirm_guest_account_ip_10.0.0.7}";
        RegisterCall "confirm_guest_account_email_Ym9iQGV4YW1wbGUub3Jn";
        Sql User_findOne;
        SendEmail "confirm-guest-account" "bob@example.org"
          "https://opencollective.test/confirm/guest/confirm-bob?email=bob@example.org" ].
Proof. vm_compute. split; reflexivity. Qed.

(** Bob comes back with his token and with his email followed by a
    no-break space (U+00A0): [trim] removes it, so the profile of the token
    is reused, and renamed; no collective is created. *)
Example reuse_with_padded_email :
  let out := getOrCreateGuestProfile test_random
               (Some ("bob@example.org"
                      +:+ String.string_of_list_ascii (Js.utf8 160)))
               (Some "guest-token-bob") (Some "Bobby") None test_world in
  (Collective.id ∘ collective
     <$> (match out.1 with Ok d => Some d | Err _ => None end)) = Some 2
  ∧ trace out.2 = [ Sql GuestToken_findOne; Sql User_findOne;
                    Sql (Collective_update ["name"]) ]
  ∧ length (Collectives (store out.2)) = 4%nat.
Proof. vm_compute. repeat split; reflexivity. Qed.

(** When the mail library rejects, the resolver rejects with its error,
    after both rate limits were charged. *)
Example send_for_bob_undelivered :
  let out := sendGuestConfirmationEmail_resolve counting_registerCall test_config
               Js.ascii_toLowerCase failing_delivery
               "bob@example.org" (mkRequest None "10.0.0.7") test_world in
  out.1 = Err (PlainError "Connection timeout")
  ∧ size (counters out.2) = 2%nat.
Proof. vm_compute. split; reflexivity. Qed.

(** The test "links all the other guest profiles": confirming Ada with the
    token of her second profile moves its order, retires that profile and
    deletes both tokens. *)
Example confirm_ada_linking :
  let out := confirmGuestAccount lowercase_generateSlug moving_mergeCollectives
               "confirm-ada" None (Some ["guest-token-ada-bis"]) test_world in
  (Collective.name <$> (match out.1 with Ok c => Some c | Err _ => None end))
    = Some (Some "Incognito")
  ∧ trace out.2 =
      [ Sql User_findOne; Sql User_update; Sql User_getCollective;
        Sql Collective_generateSlug;
        Sql (Collective_update ["name"; "slug"; "data"]);
        Sql GuestToken_findAll; MergeCollectives 4 1; Sql GuestToken_destroy ]
  ∧ Orders (store out.2) = [ Order.mk 1 1 9; Order.mk 2 1 9 ]
  ∧ (GuestToken.deletedAt <$> GuestTokens (store out.2))
    = [ Some 1603200000; None; Some 1603200000 ].
Proof. vm_compute. repeat split; reflexivity. Qed.

(* ===================================================================== *)
(** ** Lemmas on the store *)
(* ===================================================================== *)

Lemma find_app_Some {A} (p : A → bool) (l l' : list A) (x : A) :
  List.find p l = Some x → List.find p (l ++ l') = Some x.
Proof.
  induction l as [|a l IH]; simpl; [discriminate|].
  destruct (p a); auto.
Qed.

Lemma find_fmap_stable {A} (p : A → bool) (f : A → A) (l : list A) :
  (∀ a, p (f a) = p a) → List.find p (f <$> l) = f <$> List.find p l.
Proof.
  intros Hp. induction l as [|a l IH]; simpl; [done|].
  rewrite Hp. destruct (p a); auto.
Qed.

Lemma fmap_id_on {A} (f : A → A) (l : list A) :
  Forall (λ a, f a = a) l → f <$> l = l.
Proof.
  induction 1 as [|a l Ha _ IH]; [done|]. rewrite fmap_cons. congruence.
Qed.

Lemma apply_keeps_id ch c : Collective.id (Collective.apply ch c) = Collective.id c.
Proof. reflexivity. Qed.

Lemma apply_keeps_live ch c : Collective.live (Collective.apply ch c) = Collective.live c.
Proof. reflexivity. Qed.

Lemma truthy_Some (v : string) : v ≠ "" → Js.truthy (Some v) = true.
Proof. intros Hv. simpl. by apply negb_true_iff, String.eqb_neq. Qed.

Lemma unconfirmed_not_confirmed (u : User.t) :
  User.confirmedAt u = None → User.confirmed u = false.
Proof. intros Hu. apply bool_decide_eq_false_2. intros Hne. by apply Hne. Qed.

(** The monadic operations, unfolded to functions on worlds. *)
Ltac run :=
  unfold bind, ret, throw, sql, read, now, emit, with_store; simpl.

(* ===================================================================== *)
(** ** Lemmas on strings *)
(* ===================================================================== *)

Lemma bytes_app (s1 s2 : string) :
  String.list_ascii_of_string (s1 +:+ s2)
  = String.list_ascii_of_string s1 ++ String.list_ascii_of_string s2.
Proof. induction s1 as [|c s1 IH]; simpl; [done|]. by rewrite IH. Qed.

Lemma strip_prefix_app (p s : list ascii) : Js.strip_prefix p (p ++ s) = Some s.
Proof. induction p as [|a p IH]; simpl; [done|]. by rewrite Ascii.eqb_refl. Qed.

Lemma strip_prefix_Some (p s r : list ascii) :
  Js.strip_prefix p s = Some r → s = p ++ r.
Proof.
  revert s. induction p as [|a p IH]; intros [|b s]; simpl; try congruence.
  destruct (Ascii.eqb a b) eqn:Hab; [|discriminate].
  apply Ascii.eqb_eq in Hab as ->. intros Hr. by rewrite (IH _ Hr).
Qed.

Lemma strip_one_Some (patterns : list (list ascii)) (s r : list ascii) :
  Js.strip_one patterns s = Some r → ∃ p, p ∈ patterns ∧ s = p ++ r.
Proof.
  unfold Js.strip_one. intros Hhead. apply head_Some_elem_of in Hhead.
  apply list_elem_of_omap in Hhead as (p & Hp & Hr).
  exists p. split; [done|]. by apply strip_prefix_Some.
Qed.

Lemma strip_one_pattern (patterns : list (list ascii)) (w s : list ascii) :
  Js.prefix_free patterns → w ∈ patterns →
  Js.strip_one patterns (w ++ s) = Some s.
Proof.
  intros Hfree Hw.
  destruct (Js.strip_one patterns (w ++ s)) as [r|] eqn:Hone.
  - destruct (strip_one_Some _ _ _ Hone) as (p & Hp & Heq).
    assert (p = w) as ->.
    { unfold Js.prefix_free in Hfree. rewrite Forall_forall in Hfree.
      pose proof (Hfree p Hp) as Hpw. rewrite Forall_forall in Hpw.
      pose proof (Hfree w Hw) as Hwp. rewrite Forall_forall in Hwp.
      destruct (prefix_weak_total p w (w ++ s)) as [H|H].
      - rewrite Heq. by apply prefix_app_r.
      - by apply prefix_app_r.
      - by apply Hpw.
      - symmetry. by apply Hwp. }
    by apply app_inv_head in Heq as ->.
  - exfalso. unfold Js.strip_one in Hone.
    apply head_None in Hone.
    assert (s ∈ omap (λ p, Js.strip_prefix p (w ++ s)) patterns) as Hin.
    { apply list_elem_of_omap. exists w. split; [done|]. apply strip_prefix_app. }
    rewrite Hone in Hin. by apply elem_of_nil in Hin.
Qed.

Lemma strip_stops (patterns : list (list ascii)) (fuel : nat) (s : list ascii) :
  Js.strip_one patterns s = None → Js.strip patterns fuel s = s.
Proof. intros Hs. destruct fuel; simpl; [done|]. by rewrite Hs. Qed.

Lemma strip_spaces (patterns spaces : list (list ascii)) (fuel : nat)
    (s : list ascii) :
  Js.prefix_free patterns →
  Forall (λ p, p ≠ []) patterns →
  Forall (λ w, w ∈ patterns) spaces →
  Js.strip_one patterns s = None →
  (length (concat spaces) ≤ fuel)%nat →
  Js.strip patterns fuel (concat spaces ++ s) = s.
Proof.
  intros Hfree Hne Hspaces Hs. revert fuel.
  induction Hspaces as [|w spaces Hw _ IH]; intros fuel Hfuel; simpl.
  - by apply strip_stops.
  - simpl in Hfuel. rewrite length_app in Hfuel.
    rewrite Forall_forall in Hne. specialize (Hne w Hw).
    destruct w as [|c w]; [done|]. simpl in Hfuel.
    destruct fuel as [|fuel]; [lia|].
    change (Js.strip patterns (S fuel) (((c :: w) ++ concat spaces) ++ s))
      with (match Js.strip_one patterns (((c :: w) ++ concat spaces) ++ s) with
            | Some rest => Js.strip patterns fuel rest
            | None => ((c :: w) ++ concat spaces) ++ s
            end).
    rewrite <- app_assoc, strip_one_pattern by done.
    apply IH. lia.
Qed.

Lemma reverse_concat {A} (ls : list (list A)) :
  reverse (concat ls) = concat (reverse (reverse <$> ls)).
Proof.
  induction ls as [|l ls IH]; [done|].
  rewrite fmap_cons, reverse_cons, concat_app. simpl.
  by rewrite reverse_app, IH, app_nil_r.
Qed.

Lemma white_space_prefix_free : Js.prefix_free Js.white_space.
Proof. unfold Js.prefix_free. refine (bool_decide_unpack _ _). vm_compute. exact I. Qed.

Lemma white_space_suffix_free : Js.prefix_free (reverse <$> Js.white_space).
Proof. unfold Js.prefix_free. refine (bool_decide_unpack _ _). vm_compute. exact I. Qed.

Lemma white_space_nonempty : Forall (λ p, p ≠ []) Js.white_space.
Proof. refine (bool_decide_unpack _ _). vm_compute. exact I. Qed.

(** A white space that starts with an ASCII byte is that byte. *)
Lemma white_space_ascii_head :
  Forall (λ p, ∀ c rest, p = c :: rest → (N_of_ascii c < 128)%N → rest = [])
    Js.white_space.
Proof.
  repeat constructor; intros c rest [= <- <-]; try done; vm_compute; discriminate.
Qed.

Lemma strip_one_unpadded_start (a rest : list ascii) (c : ascii) (a' : list ascii) :
  a = c :: a' → (N_of_ascii c < 128)%N →
  Forall (λ w, ¬ w `prefix_of` a) Js.white_space →
  Js.strip_one Js.white_space (a ++ rest) = None.
Proof.
  intros -> Hc Hun.
  destruct (Js.strip_one Js.white_space ((c :: a') ++ rest)) as [r|] eqn:Hone;
    [exfalso|done].
  destruct (strip_one_Some _ _ _ Hone) as (p & Hp & Heq).
  pose proof white_space_nonempty as Hne. rewrite Forall_forall in Hne.
  pose proof white_space_ascii_head as Hhead. rewrite Forall_forall in Hhead.
  rewrite Forall_forall in Hun.
  destruct p as [|x p]; [by apply (Hne [] Hp)|].
  simpl in Heq. injection Heq as <- Heq.
  rewrite (Hhead _ Hp c p eq_refl Hc) in Hp.
  apply (Hun _ Hp). by exists a'.
Qed.

Lemma strip_one_unpadded_end (a : list ascii) :
  Forall (λ w, ¬ w `suffix_of` a) Js.white_space →
  Js.strip_one (reverse <$> Js.white_space) (reverse a) = None.
Proof.
  intros Hun.
  destruct (Js.strip_one _ (reverse a)) as [r|] eqn:Hone; [exfalso|done].
  destruct (strip_one_Some _ _ _ Hone) as (p' & Hp' & Heq).
  apply list_elem_of_fmap in Hp' as (p & -> & Hp).
  rewrite Forall_forall in Hun. apply (Hun _ Hp).
  exists (reverse r).
  apply (inj reverse). by rewrite reverse_app, !reverse_involutive.
Qed.

(** [trim] removes white space around a text that has none at its ends:
    any of the code points of [white_space_points], in any number, around
    an ASCII text. *)
Lemma trim_padded (pad1 address pad2 : string) :
  Js.blank pad1 → Js.blank pad2 → Js.ascii_text address → Js.unpadded address →
  Js.trim (pad1 +:+ address +:+ pad2) = address.
Proof.
  intros (sp1 & Hsp1 & Hpad1) (sp2 & Hsp2 & Hpad2) Hascii Hun.
  unfold Js.trim. rewrite !bytes_app, Hpad1, Hpad2.
  rewrite <- (String.string_of_list_ascii_of_string address) at 2.
  f_equal.
  unfold Js.ascii_text in Hascii. unfold Js.unpadded in Hun.
  set (a := String.list_ascii_of_string address) in *. clearbody a.
  assert (Forall (λ w, ¬ w `prefix_of` a) Js.white_space) as Hstart.
  { eapply Forall_impl; [exact Hun|]. by intros w [H _]. }
  assert (Forall (λ w, ¬ w `suffix_of` a) Js.white_space) as Hend.
  { eapply Forall_impl; [exact Hun|]. by intros w [_ H]. }
  destruct a as [|c a'] eqn:Ha.
  { assert (Js.trimStart_bytes (concat sp1 ++ [] ++ concat sp2) = []) as ->; [|done].
    unfold Js.trimStart_bytes. simpl. rewrite <- concat_app.
    rewrite <- (app_nil_r (concat (sp1 ++ sp2))) at 2.
    apply strip_spaces; try done.
    - apply white_space_prefix_free.
    - apply white_space_nonempty.
    - by apply Forall_app. }
  rewrite <- Ha in *.
  assert (Js.trimStart_bytes (concat sp1 ++ a ++ concat sp2) = a ++ concat sp2)
    as ->.
  { unfold Js.trimStart_bytes. apply strip_spaces.
    - apply white_space_prefix_free.
    - apply white_space_nonempty.
    - done.
    - apply (strip_one_unpadded_start _ _ c a'); [done| |done].
      rewrite Ha in Hascii. by inversion Hascii.
    - rewrite length_app. lia. }
  unfold Js.trimEnd_bytes.
  rewrite reverse_app, reverse_concat.
  rewrite strip_spaces.
  - apply reverse_involutive.
  - apply white_space_suffix_free.
  - apply Forall_fmap. eapply Forall_impl; [apply white_space_nonempty|].
    intros p Hp Hrev. simpl in Hrev. apply Hp.
    apply (inj reverse). by rewrite Hrev.
  - apply Forall_reverse, Forall_fmap.
    eapply Forall_impl; [exact Hsp2|]. intros w Hw.
    exact (list_elem_of_fmap_2 reverse _ _ Hw).
  - by apply strip_one_unpadded_end.
  - rewrite <- reverse_concat. rewrite !length_app, !length_reverse. lia.
Qed.

Lemma b64_digits :
  Forall (λ k, Js.b64_value (Js.b64_digit (N.of_nat k)) = N.of_nat k
               ∧ Ascii.eqb (Js.b64_digit (N.of_nat k)) "=" = false) (seq 0 64).
Proof. refine (bool_decide_unpack _ _). vm_compute. exact I. Qed.

Lemma b64_value_digit (n : N) : (n < 64)%N → Js.b64_value (Js.b64_digit n) = n.
Proof.
  intros Hn. pose proof b64_digits as H.
  rewrite Forall_forall in H. specialize (H (N.to_nat n)).
  rewrite N2Nat.id in H. apply H. apply elem_of_seq. lia.
Qed.

Lemma b64_digit_not_pad (n : N) :
  (n < 64)%N → Ascii.eqb (Js.b64_digit n) "=" = false.
Proof.
  intros Hn. pose proof b64_digits as H.
  rewrite Forall_forall in H. specialize (H (N.to_nat n)).
  rewrite N2Nat.id in H. apply H. apply elem_of_seq. lia.
Qed.

Ltac euclid := zify; Z.to_euclidean_division_equations; lia.


Lemma b64_decode_encode (bytes : list N) :
  Forall (λ b, (b < 256)%N) bytes → Js.b64_decode (Js.b64_encode bytes) = bytes.
Proof.
  remember (length bytes) as n eqn:Hn. revert bytes Hn.
  induction n as [n IH] using lt_wf_ind. intros bytes -> Hbytes.
  destruct bytes as [|a [|b [|c rest]]]; [done|..].
  - apply Forall_cons in Hbytes as [Ha _].
    cbn [Js.b64_encode Js.b64_decode].
    rewrite Ascii.eqb_refl, !b64_value_digit by euclid.
    f_equal. euclid.
  - apply Forall_cons in Hbytes as [Ha Hbytes].
    apply Forall_cons in Hbytes as [Hb _].
    cbn [Js.b64_encode Js.b64_decode].
    rewrite Ascii.eqb_refl, b64_digit_not_pad, !b64_value_digit by euclid.
    f_equal; [euclid|]. f_equal. euclid.
  - apply Forall_cons in Hbytes as [Ha Hbytes].
    apply Forall_cons in Hbytes as [Hb Hbytes].
    apply Forall_cons in Hbytes as [Hc Hbytes].
    cbn [Js.b64_encode Js.b64_decode].
    rewrite !b64_digit_not_pad, !b64_value_digit by euclid.
    f_equal; [euclid|]. f_equal; [euclid|]. f_equal; [euclid|].
    apply (IH (length rest)); [simpl; lia|done|done].
Qed.

Lemma bytes_of_bounded (s : string) : Forall (λ b, (b < 256)%N) (Js.bytes_of s).
Proof.
  induction s as [|c s IH]; simpl; constructor; [|done].
  apply N_ascii_bounded.
Qed.

Lemma bytes_of_inj (s t : string) : Js.bytes_of s = Js.bytes_of t → s = t.
Proof.
  revert t. induction s as [|c s IH]; intros [|d t]; simpl; try done.
  intros [= Hc Hs]. f_equal; [|by apply IH].
  by rewrite <- (ascii_N_embedding c), <- (ascii_N_embedding d), Hc.
Qed.

(** Two texts with the same base64 are the same text. *)
Lemma base64_inj (s t : string) : Js.base64 s = Js.base64 t → s = t.
Proof.
  unfold Js.base64. intros Heq. apply bytes_of_inj.
  rewrite <- (b64_decode_encode (Js.bytes_of s)) by apply bytes_of_bounded.
  rewrite <- (b64_decode_encode (Js.bytes_of t)) by apply bytes_of_bounded.
  by rewrite Heq.
Qed.

Lemma lower_no_capital (c : ascii) : Js.is_capital (Js.lower c) = false.
Proof. by destruct c as [[] [] [] [] [] [] [] []]. Qed.

(** A lower-cased ASCII text holds none of the letters A to Z. *)
Lemma ascii_toLowerCase_no_capital (s : string) :
  Forall (λ c, Js.is_capital c = false)
    (String.list_ascii_of_string (Js.ascii_toLowerCase s)).
Proof.
  induction s as [|c s IH]; simpl; constructor; [|done].
  apply lower_no_capital.
Qed.

Lemma blank_spaces (spaces : list N) :
  Forall (λ point, point ∈ Js.white_space_points) spaces →
  Js.blank (String.string_of_list_ascii (concat (Js.utf8 <$> spaces))).
Proof.
  intros Hspaces. exists (Js.utf8 <$> spaces). split.
  - apply Forall_fmap. eapply Forall_impl; [exact Hspaces|].
    intros point Hpoint. exact (list_elem_of_fmap_2 Js.utf8 _ _ Hpoint).
  - apply String.list_ascii_of_string_of_list_ascii.
Qed.

(* ===================================================================== *)
(** ** The resolvers *)
(* ===================================================================== *)

(** C8 — a [confirmGuestAccount] mutation with more than 30 [guestTokens]
    fails with the error of the length check and leaves the world as it
    was: nothing is added to the trace, so no statement was sent to the
    store (no lookup, update, merge or deletion). *)
Theorem confirm_resolve_rejects_over_30 generateSlug mergeCollectives
    (args : ConfirmArgs) (guestTokens : list string) (w : World) :
  arg_guestTokens args = Some guestTokens →
  (30 < length guestTokens)%nat →
  confirmGuestAccount_resolve generateSlug mergeCollectives args w
  = (Err (PlainError "Cannot link more than 30 profiles at the same time"), w).
Proof.
  intros Hargs Hlen. unfold confirmGuestAccount_resolve.
  rewrite Hargs, bool_decide_eq_true_2 by done. reflexivity.
Qed.

Lemma confirm_resolve_rejects_over_30_witness :
  confirmGuestAccount_resolve lowercase_generateSlug moving_mergeCollectives
    (mkConfirmArgs "confirm-ada" (Some (replicate 31 "guest-token-bob")) None)
    test_world
  = (Err (PlainError "Cannot link more than 30 profiles at the same time"),
     test_world).
Proof.
  apply (confirm_resolve_rejects_over_30 _ _ _ (replicate 31 "guest-token-bob")).
  - reflexivity.
  - simpl. lia.
Defined.

(** C7 — for a caller that is not signed in, [sendGuestConfirmationEmail]
    charges the rate limit of the caller's IP first, then the rate limit
    keyed by the base64 of the trimmed and lower-cased email, and reads the
    user only when both passed.  When either refuses, the call fails with
    [RateLimitExceeded], the trace holds nothing but the rate-limiter calls
    and the store is untouched.  The email of the key is normalized: when
    the argument is an ASCII address with any white space of Unicode around
    it, that email is the address without the white space and with the
    letters A to Z in lower case, and it holds no capital letter.  The key
    is one per such email: another call is charged on the same key exactly
    when its trimmed and lower-cased email is the same. *)
Theorem send_limits_ip_then_email_then_lookup registerCall config toLowerCase
    deliver (args_email : string) (req : Request) (w : World) :
  remoteUser req = None →
  let ipKey := "confirm_guest_account_ip_" +:+ ip req +:+ "}" in
  let email := toLowerCase (Js.trim args_email) in
  let emailKey := "confirm_guest_account_email_" +:+ Js.base64 email in
  let byIp :=
    registerCall ipKey (confirmGuestEmailPerMinutePerIp config) 60 (counters w) in
  let byEmail :=
    registerCall emailKey (confirmGuestEmailPerMinute config) 60 byIp.2 in
  let out := sendGuestConfirmationEmail_resolve registerCall config toLowerCase
               deliver args_email req w in
  (if negb byIp.1 then
     out.1 = Err (RateLimitExceeded
                    "An email has already been sent recently. Please try again in a few minutes.")
     ∧ trace out.2 = trace w ++ [RegisterCall ipKey]
     ∧ store out.2 = store w
   else if negb byEmail.1 then
     out.1 = Err (RateLimitExceeded
                    "An email has already been sent for this address recently. Please check your SPAM folder, or try again in a few minutes.")
     ∧ trace out.2 = trace w ++ [RegisterCall ipKey; RegisterCall emailKey]
     ∧ store out.2 = store w
   else
     ∃ rest,
       trace out.2
       = trace w ++ [RegisterCall ipKey; RegisterCall emailKey; Sql User_findOne] ++ rest
       ∧ (rest = [] ∨ ∃ to link, rest = [SendEmail "confirm-guest-account" to link])
       ∧ store out.2 = store w)
  ∧ (∀ pad1 address pad2,
       args_email = pad1 +:+ address +:+ pad2 →
       Js.blank pad1 → Js.blank pad2 →
       Js.ascii_text address → Js.unpadded address →
       Js.lowers_ascii toLowerCase →
       email = Js.ascii_toLowerCase address
       ∧ Forall (λ c, Js.is_capital c = false)
           (String.list_ascii_of_string email))
  ∧ (∀ other_email,
       "confirm_guest_account_email_"
       +:+ Js.base64 (toLowerCase (Js.trim other_email)) = emailKey
       ↔ toLowerCase (Js.trim other_email) = email).
Proof.
  intros Hanon. cbv zeta. split; [|split].
  - unfold sendGuestConfirmationEmail_resolve, RateLimit_registerCall,
      User_findOne_with_collective, emailLib_send.
    rewrite Hanon. rewrite bool_decide_eq_false_2 by (intros [? ?]; discriminate).
    run.
    destruct (registerCall _ (confirmGuestEmailPerMinutePerIp config) 60 (counters w))
      as [okIp c1] eqn:HIp; simpl.
    destruct okIp; simpl; [|done].
    destruct (registerCall _ (confirmGuestEmailPerMinute config) 60 c1)
      as [okEmail c2] eqn:HEmail; simpl.
    destruct okEmail; simpl; [|by rewrite <- app_assoc].
    destruct (List.find _ (Users (store w))) as [u|]; simpl.
    + destruct (User.confirmed u); simpl.
      * exists []. rewrite <- !app_assoc. auto.
      * destruct (deliver _ _ _ _) as [[]|e]; simpl;
          (eexists [_]; rewrite <- !app_assoc; simpl;
           split; [reflexivity|]; split; [right; eauto | reflexivity]).
    + exists []. rewrite <- !app_assoc. auto.
  - intros pad1 address pad2 -> Hpad1 Hpad2 Hascii Hunpadded Hlower.
    rewrite trim_padded by done. rewrite (Hlower address Hascii).
    split; [done|]. apply ascii_toLowerCase_no_capital.
  - intros other_email. split.
    + intros Hkey. apply base64_inj.
      exact (inj (String.append "confirm_guest_account_email_") _ _ Hkey).
    + by intros ->.
Qed.

(** The address of Bob in capitals, behind two spaces and before a
    no-break space (U+00A0) and a line feed. *)
Lemma send_limits_ip_then_email_then_lookup_witness :
  let args_email :=
    "  " +:+ "BOB@Example.ORG"
    +:+ String.string_of_list_ascii (concat (Js.utf8 <$> [160; 10]%N)) in
  let out := sendGuestConfirmationEmail_resolve counting_registerCall
               (mkConfig 2 0 "https://opencollective.test")
               Js.ascii_toLowerCase delivering
               args_email (mkRequest None "10.0.0.7") test_world in
  (out.1 = Err (RateLimitExceeded
                  "An email has already been sent for this address recently. Please check your SPAM folder, or try again in a few minutes.")
   ∧ trace out.2 =
       [ RegisterCall "confirm_guest_account_ip_10.0.0.7}";
         RegisterCall "confirm_guest_account_email_Ym9iQGV4YW1wbGUub3Jn" ]
   ∧ store out.2 = store test_world)
  ∧ Js.ascii_toLowerCase (Js.trim args_email) = "bob@example.org"
  ∧ Js.base64 "bob@example.org" = "Ym9iQGV4YW1wbGUub3Jn".
Proof.
  cbv zeta.
  pose proof (send_limits_ip_then_email_then_lookup counting_registerCall
                (mkConfig 2 0 "https://opencollective.test")
                Js.ascii_toLowerCase delivering
                ("  " +:+ "BOB@Example.ORG"
                 +:+ String.string_of_list_ascii (concat (Js.utf8 <$> [160; 10]%N)))
                (mkRequest None "10.0.0.7") test_world eq_refl)
    as (Horder & Hkey & _).
  split; [exact Horder|]. split; [|reflexivity].
  refine (proj1 (Hkey "  " "BOB@Example.ORG"
                   (String.string_of_list_ascii (concat (Js.utf8 <$> [160; 10]%N)))
                   eq_refl _ _ _ _ _)).
  - apply (blank_spaces [32; 32]%N).
    repeat constructor; refine (bool_decide_unpack _ _); vm_compute; exact I.
  - apply (blank_spaces [160; 10]%N).
    repeat constructor; refine (bool_decide_unpack _ _); vm_compute; exact I.
  - refine (bool_decide_unpack _ _). vm_compute. exact I.
  - refine (bool_decide_unpack _ _). vm_compute. exact I.
  - intros s _. reflexivity.
Defined.

(* ===================================================================== *)
(** ** Confirmation *)
(* ===================================================================== *)

Lemma collective_by_id_id (s : Store) (id : Z) (c : Collective.t) :
  collective_by_id s id = Some c → Collective.id c = id.
Proof.
  unfold collective_by_id. intros Hfind.
  apply List.find_some in Hfind as [_ Hc].
  apply andb_true_iff in Hc as [_ Hc]. by apply bool_decide_eq_true in Hc.
Qed.

Lemma collective_by_id_updated (s : Store) (id : Z) (ch : Collective.changes)
    (c : Collective.t) :
  collective_by_id s id = Some c →
  List.find (λ r, Collective.live r
                  && bool_decide (Collective.id r = Collective.id c))
    ((λ r, if bool_decide (Collective.id r = Collective.id c)
           then Collective.apply ch r else r) <$> Collectives s)
  = Some (Collective.apply ch c).
Proof.
  intros Hfind. rewrite (collective_by_id_id _ _ _ Hfind).
  unfold collective_by_id in Hfind.
  rewrite find_fmap_stable.
  - rewrite Hfind. simpl.
    apply List.find_some in Hfind as [_ Hc].
    apply andb_true_iff in Hc as [_ Hc]. by rewrite Hc.
  - intros r. destruct (bool_decide (Collective.id r = id)) eqn:Hid.
    + rewrite apply_keeps_live, apply_keeps_id. by rewrite Hid.
    + by rewrite Hid.
Qed.


(** A confirmation without guest tokens succeeds as soon as the token is
    the one of an unconfirmed user that has a profile. *)
Lemma confirm_succeeds_without_tokens generateSlug mergeCollectives
    (emailConfirmationToken : string) (name : option string) (w : World)
    (u : User.t) (prior : Collective.t) :
  List.find (λ u, User.live u
                  && bool_decide (User.emailConfirmationToken u
                                  = Some emailConfirmationToken))
    (Users (store w)) = Some u →
  User.confirmedAt u = None →
  collective_by_id (store w) (User.CollectiveId u) = Some prior →
  ∃ account w',
    confirmGuestAccount generateSlug mergeCollectives emailConfirmationToken
      name None w = (Ok account, w').
Proof.
  intros Hu Hunconfirmed Hprior.
  unfold confirmGuestAccount, User_findOne_where, User_update_confirmed,
    User_getCollective_of, Collective_generateSlug_of, Collective_update_row,
    GuestToken_destroy_of.
  run. rewrite Hu. simpl.
  rewrite unconfirmed_not_confirmed by done.
  unfold collective_by_id in *. simpl. rewrite Hprior. simpl.
  by eexists _, _.
Qed.


(* ===================================================================== *)
(** ** Guest profiles: creation *)
(* ===================================================================== *)

Lemma update_of_fresh_row (s : Store) (c : Collective.t) (ch : Collective.changes) :
  Forall (λ r, Collective.id r < Collective.id c) (Collectives s) →
  (λ r, if bool_decide (Collective.id r = Collective.id c)
        then Collective.apply ch r else r) <$> (Collectives s ++ [c])
  = Collectives s ++ [Collective.apply ch c].
Proof.
  intros Hfresh. rewrite fmap_app. f_equal.
  - apply fmap_id_on. eapply Forall_impl; [exact Hfresh|].
    intros r Hr. simpl in Hr. rewrite bool_decide_eq_false_2; [done|lia].
  - simpl. by rewrite bool_decide_eq_true_2.
Qed.

(** What [createGuestProfile] does, case by case. *)
Lemma createGuestProfile_cases (rnd : Random) (email name : option string)
    (location : option Location.t) (w : World) :
  ids_from_sequences (store w) →
  let out := createGuestProfile rnd email name location w in
  let c := created_collective rnd name location (store w) in
  let g := GuestToken.mk (next_GuestToken (store w)) (guestToken rnd)
             (next_Collective (store w)) None in
  if negb (Js.truthy email) then
    out = (Err (PlainError "An email is required to create a guest profile"), w)
  else
    match user_by_email (store w) (default "" email) with
    | Some u =>
        if User.confirmed u then
          out.1 = Err (PlainError ALREADY_EXISTS_MSG)
          ∧ rows (store out.2) = rows (store w)
        else
          out.1 = Ok (mkDetails u (with_creator u c) g)
          ∧ rows (store out.2)
            = (Collectives (store w) ++ [with_creator u c], Users (store w),
               GuestTokens (store w) ++ [g], Orders (store w))
    | None =>
        let u := User.mk (next_User (store w)) (default "" email) None
                   (next_Collective (store w))
                   (Some (emailConfirmationToken rnd)) None in
        out.1 = Ok (mkDetails u (with_creator u c) g)
        ∧ rows (store out.2)
          = (Collectives (store w) ++ [with_creator u c], Users (store w) ++ [u],
             GuestTokens (store w) ++ [g], Orders (store w))
    end.
Proof.
  intros (HC & _ & _). cbv zeta.
  unfold createGuestProfile.
  destruct (Js.truthy email); simpl; [|done].
  unfold transaction, createGuestProfile_body, Collective_create_row,
    User_findOne_where, User_create_row, Collective_update_row,
    GuestToken_create_row, user_by_email.
  run.
  destruct (List.find _ (Users (store w))) as [u|]; simpl.
  - destruct (User.confirmed u); simpl; [done|].
    unfold rows; simpl.
    rewrite (update_of_fresh_row (store w)
               (created_collective rnd name location (store w))) by exact HC.
    done.
  - unfold rows; simpl.
    rewrite (update_of_fresh_row (store w)
               (created_collective rnd name location (store w))) by exact HC.
    done.
Qed.

(** The invariant on ids is kept by a request for a guest profile that
    goes through the creation: new rows take the next ids, and the
    sequences move past them. *)
Lemma createGuestProfile_keeps_ids (rnd : Random) (email name : option string)
    (location : option Location.t) (w : World) :
  ids_from_sequences (store w) →
  ids_from_sequences (store (createGuestProfile rnd email name location w).2).
Proof.
  intros (HC & HU & HG).
  assert (Forall (λ c, Collective.id c < next_Collective (store w) + 1)
            (Collectives (store w))) as HC'.
  { eapply Forall_impl; [exact HC|]. intros c Hc. simpl in Hc. lia. }
  assert (Forall (λ u, User.id u < next_User (store w) + 1
                       ∧ User.CollectiveId u < next_Collective (store w) + 1)
            (Users (store w))) as HU'.
  { eapply Forall_impl; [exact HU|]. intros u Hu. simpl in Hu. lia. }
  assert (Forall (λ u, User.id u < next_User (store w)
                       ∧ User.CollectiveId u < next_Collective (store w) + 1)
            (Users (store w))) as HU''.
  { eapply Forall_impl; [exact HU|]. intros u Hu. simpl in Hu. lia. }
  assert (Forall (λ g, GuestToken.id g < next_GuestToken (store w) + 1
                       ∧ GuestToken.CollectiveId g < next_Collective (store w) + 1)
            (GuestTokens (store w))) as HG'.
  { eapply Forall_impl; [exact HG|]. intros g Hg. simpl in Hg. lia. }
  assert (Forall (λ g, GuestToken.id g < next_GuestToken (store w)
                       ∧ GuestToken.CollectiveId g < next_Collective (store w) + 1)
            (GuestTokens (store w))) as HG''.
  { eapply Forall_impl; [exact HG|]. intros g Hg. simpl in Hg. lia. }
  unfold createGuestProfile.
  destruct (Js.truthy email); simpl; [|done].
  unfold transaction, createGuestProfile_body, Collective_create_row,
    User_findOne_where, User_create_row, Collective_update_row,
    GuestToken_create_row, ids_from_sequences.
  run.
  destruct (List.find _ (Users (store w))) as [u|]; simpl.
  - destruct (User.confirmed u); simpl; [done|].
    rewrite (update_of_fresh_row (store w)
               (created_collective rnd name location (store w))) by exact HC.
    repeat split; [|done|].
    + apply Forall_app. split; [done|]. repeat constructor. simpl. lia.
    + apply Forall_app. split; [done|]. repeat constructor; simpl; lia.
  - rewrite (update_of_fresh_row (store w)
               (created_collective rnd name location (store w))) by exact HC.
    repeat split.
    + apply Forall_app. split; [done|]. repeat constructor. simpl. lia.
    + apply Forall_app. split; [done|]. repeat constructor; simpl; lia.
    + apply Forall_app. split; [done|]. repeat constructor; simpl; lia.
Qed.

Lemma test_store_ids : ids_from_sequences test_store.
Proof.
  unfold ids_from_sequences, test_store; simpl.
  repeat split; repeat constructor; simpl; lia.
Defined.

(** The statements of a creation. *)
Lemma createGuestProfile_trace (rnd : Random) (email : string)
    (name : option string) (location : option Location.t) (w : World) :
  email ≠ "" →
  let out := createGuestProfile rnd (Some email) name location w in
  counters out.2 = counters w
  ∧ clock out.2 = clock w
  ∧ trace out.2
    = trace w
      ++ match user_by_email (store w) email with
         | None =>
             [ Sql BEGIN; Sql Collective_create; Sql User_findOne;
               Sql User_create; Sql (Collective_update ["CreatedByUserId"]);
               Sql GuestToken_create; Sql COMMIT ]
         | Some u =>
             if User.confirmed u
             then [ Sql BEGIN; Sql Collective_create; Sql User_findOne;
                    Sql ROLLBACK ]
             else [ Sql BEGIN; Sql Collective_create; Sql User_findOne;
                    Sql (Collective_update ["CreatedByUserId"]);
                    Sql GuestToken_create; Sql COMMIT ]
         end.
Proof.
  intros Hemail. cbv zeta. unfold createGuestProfile.
  rewrite truthy_Some by done. simpl negb. cbv iota.
  unfold transaction, createGuestProfile_body, Collective_create_row,
    User_findOne_where, User_create_row, Collective_update_row,
    GuestToken_create_row, user_by_email.
  run.
  destruct (List.find _ (Users (store w))) as [u|]; simpl.
  - destruct (User.confirmed u); simpl; by rewrite <- !app_assoc.
  - by rewrite <- !app_assoc.
Qed.

Lemma find_none_of_Forall {A} (p : A → bool) (l : list A) :
  Forall (λ a, p a = false) l → List.find p l = None.
Proof.
  induction 1 as [|a l Ha _ IH]; simpl; [done|]. by rewrite Ha.
Qed.

Lemma find_app_after {A} (p : A → bool) (l l' : list A) :
  Forall (λ a, p a = false) l → List.find p (l ++ l') = List.find p l'.
Proof.
  induction 1 as [|a l Ha _ IH]; simpl; [done|]. by rewrite Ha.
Qed.

(** No user has the next collective as profile. *)
Lemma no_user_of_new_collective (s : Store) :
  ids_from_sequences s →
  Forall (λ u, User.live u
               && bool_decide (User.CollectiveId u = next_Collective s) = false)
    (Users s).
Proof.
  intros (_ & HU & _).
  eapply Forall_impl; [exact HU|]. intros u [_ Hu]. simpl in *.
  rewrite (bool_decide_eq_false_2 (User.CollectiveId u = next_Collective s)) by lia.
  apply andb_false_r.
Qed.

(** Without the transaction around it, the callback of [createGuestProfile]
    leaves the collective it created when it rejects. *)
Example body_alone_leaves_collective :
  let out := createGuestProfile_body test_random "carol@example.org" None None
               test_world in
  out.1 = Err (PlainError ALREADY_EXISTS_MSG)
  ∧ length (Collectives (store out.2)) = 5%nat
  ∧ length (Collectives test_store) = 4%nat.
Proof. vm_compute. repeat split; reflexivity. Qed.

(** C4, as the code has it — creating a guest profile is all or nothing.
    When it succeeds, one committed transaction has added the new
    collective, whose creator is the user of the profile, and the new guest
    token of that collective; the user has the requested email and is not
    confirmed.  For an email that no user had, the user is new and the new
    collective is its profile.  For the email of an existing unconfirmed
    user, no user is added and that user keeps its own profile: the new
    collective is the profile of no user.  When it fails, the rows of the
    store are what they were: either nothing was sent, or the collective
    was inserted and the transaction rolled back, which the sequence of ids
    still shows. *)
Theorem createGuestProfile_all_or_nothing (rnd : Random)
    (email name : option string) (location : option Location.t) (w : World) :
  ids_from_sequences (store w) →
  let out := createGuestProfile rnd email name location w in
  match out.1 with
  | Ok d =>
      Collectives (store out.2) = Collectives (store w) ++ [collective d]
      ∧ GuestTokens (store out.2) = GuestTokens (store w) ++ [token d]
      ∧ Orders (store out.2) = Orders (store w)
      ∧ GuestToken.CollectiveId (token d) = Collective.id (collective d)
      ∧ Collective.CreatedByUserId (collective d) = Some (User.id (user d))
      ∧ email = Some (User.email (user d))
      ∧ User.confirmedAt (user d) = None
      ∧ user_by_email (store out.2) (User.email (user d)) = Some (user d)
      ∧ match user_by_email (store w) (User.email (user d)) with
        | None =>
            Users (store out.2) = Users (store w) ++ [user d]
            ∧ User.CollectiveId (user d) = Collective.id (collective d)
            ∧ trace out.2
              = trace w
                ++ [ Sql BEGIN; Sql Collective_create; Sql User_findOne;
                     Sql User_create; Sql (Collective_update ["CreatedByUserId"]);
                     Sql GuestToken_create; Sql COMMIT ]
        | Some existing =>
            existing = user d
            ∧ Users (store out.2) = Users (store w)
            ∧ User.CollectiveId (user d) ≠ Collective.id (collective d)
            ∧ user_of_collective (store out.2) (Collective.id (collective d)) = None
            ∧ trace out.2
              = trace w
                ++ [ Sql BEGIN; Sql Collective_create; Sql User_findOne;
                     Sql (Collective_update ["CreatedByUserId"]);
                     Sql GuestToken_create; Sql COMMIT ]
        end
  | Err e =>
      rows (store out.2) = rows (store w)
      ∧ if Js.truthy email then
          e = PlainError ALREADY_EXISTS_MSG
          ∧ (∃ holder, user_by_email (store w) (default "" email) = Some holder
                       ∧ User.confirmedAt holder ≠ None)
          ∧ trace out.2
            = trace w ++ [ Sql BEGIN; Sql Collective_create; Sql User_findOne;
                           Sql ROLLBACK ]
          ∧ next_Collective (store out.2) = next_Collective (store w) + 1
        else
          e = PlainError "An email is required to create a guest profile"
          ∧ out.2 = w
  end.
Proof.
  intros Hids. cbv zeta.
  pose proof (no_user_of_new_collective _ Hids) as Hnone.
  destruct Hids as (HC & HU & _).
  unfold createGuestProfile.
  destruct (Js.truthy email) eqn:Htruthy; simpl; [|done].
  destruct email as [email|]; [|discriminate]. simpl default.
  unfold transaction, createGuestProfile_body, Collective_create_row,
    User_findOne_where, User_create_row, Collective_update_row,
    GuestToken_create_row, user_by_email, user_of_collective.
  run.
  destruct (List.find _ (Users (store w))) as [u|] eqn:Hu; simpl.
  - pose proof Hu as Hfound. apply List.find_some in Hfound as [Hin Hsame].
    apply andb_true_iff in Hsame as [_ Hsame].
    apply bool_decide_eq_true in Hsame.
    unfold User.confirmed.
    destruct (decide (User.confirmedAt u = None)) as [Hguest | Hdone].
    + rewrite bool_decide_eq_false_2 by (intros Hne; by apply Hne). simpl.
      rewrite (update_of_fresh_row (store w)
                 (created_collective rnd name location (store w))) by exact HC.
      rewrite Hsame, Hu.
      repeat split; try done.
      * rewrite Forall_forall in HU. apply list_elem_of_In in Hin.
        specialize (HU u Hin). simpl in HU. lia.
      * by apply find_none_of_Forall.
      * by rewrite <- !app_assoc.
    + rewrite bool_decide_eq_true_2 by done. simpl.
      repeat split; try done.
      * by exists u.
      * by rewrite <- !app_assoc.
  - rewrite (update_of_fresh_row (store w)
               (created_collective rnd name location (store w))) by exact HC.
    rewrite Hu.
    repeat split; try done.
    + rewrite find_app_after; [simpl; by rewrite bool_decide_eq_true_2|].
      apply Forall_forall. intros x Hx.
      apply (List.find_none _ _ Hu). by apply list_elem_of_In.
    + by rewrite <- !app_assoc.
Qed.

(** A request for an email that no user has: everything is committed, and
    the new collective 5 is the profile of the new user 4.  A request for
    the email of Carol, who has a verified account: collective 5 is
    inserted and rolled back; the rows are as before and the next
    collective will be 6. *)
Lemma createGuestProfile_all_or_nothing_witness :
  (let out := createGuestProfile test_random (Some "dan@example.org") (Some "Dan")
                None test_world in
   ∃ d, out.1 = Ok d
        ∧ Collectives (store out.2) = Collectives test_store ++ [collective d]
        ∧ GuestTokens (store out.2) = GuestTokens test_store ++ [token d]
        ∧ Users (store out.2) = Users test_store ++ [user d]
        ∧ User.email (user d) = "dan@example.org"
        ∧ User.CollectiveId (user d) = 5
        ∧ Collective.id (collective d) = 5
        ∧ Collective.CreatedByUserId (collective d) = Some 4
        ∧ GuestToken.CollectiveId (token d) = 5
        ∧ trace out.2
          = [ Sql BEGIN; Sql Collective_create; Sql User_findOne;
              Sql User_create; Sql (Collective_update ["CreatedByUserId"]);
              Sql GuestToken_create; Sql COMMIT ])
  ∧ (let out := createGuestProfile test_random (Some "carol@example.org") None
                  None test_world in
     out.1 = Err (PlainError ALREADY_EXISTS_MSG)
     ∧ rows (store out.2) = rows test_store
     ∧ trace out.2
       = [ Sql BEGIN; Sql Collective_create; Sql User_findOne; Sql ROLLBACK ]
     ∧ next_Collective (store out.2) = 6).
Proof.
  cbv zeta. split.
  - pose proof (createGuestProfile_all_or_nothing test_random
                  (Some "dan@example.org") (Some "Dan") None test_world
                  test_store_ids) as H.
    cbv zeta in H.
    destruct (createGuestProfile test_random (Some "dan@example.org") (Some "Dan")
                None test_world) as [[d|e] w'] eqn:Hrun;
      [|vm_compute in Hrun; discriminate Hrun].
    simpl in H. destruct H as (HC & HG & _ & HGC & HCU & Hemail & _ & _ & H).
    assert (d = mkDetails
                  (User.mk 4 "dan@example.org" None 5 (Some "c0ffee") None)
                  (Collective.mk 5 "USER" "guest-0badf00d" (Some "Dan") guest_data
                     None None (Some 4) None)
                  (GuestToken.mk 4 "decade" 5 None)) as Hd.
    { vm_compute in Hrun. by injection Hrun as <- _. }
    exists d. simpl. rewrite Hd in *. simpl in *.
    destruct H as (HU & _ & Htrace).
    repeat split; try done.
  - pose proof (createGuestProfile_all_or_nothing test_random
                  (Some "carol@example.org") None None test_world
                  test_store_ids) as H.
    cbv zeta in H.
    destruct (createGuestProfile test_random (Some "carol@example.org") None
                None test_world) as [[d|e] w'] eqn:Hrun;
      [vm_compute in Hrun; discriminate Hrun|].
    simpl in H. destruct H as (Hrows & -> & _ & Htrace & Hnext).
    simpl. repeat split; try done.
Defined.

(** C4, as stated, fails — Bob is an unconfirmed user whose profile is
    collective 2.  A guest profile created for his email commits
    collective 5 and a guest token for it, but no user: Bob keeps
    collective 2, so collective 5 is persisted and is the profile of no
    user, and the guest token just returned for it is refused. *)
Lemma account_persisted_without_user :
  let out := createGuestProfile test_random (Some "bob@example.org") None None
               test_world in
  (∃ d, out.1 = Ok d
        ∧ Collective.id (collective d) = 5
        ∧ collective_by_id (store out.2) 5 = Some (collective d)
        ∧ GuestToken.value (token d) = "decade"
        ∧ User.CollectiveId (user d) = 2)
  ∧ Users (store out.2) = Users test_store
  ∧ user_of_collective (store out.2) 5 = None
  ∧ (loadGuestToken "decade" out.2).1 = Err (PlainError INVALID_TOKEN_MSG).
Proof.
  cbv zeta. split.
  - eexists. split; [vm_compute; reflexivity|]. by repeat split.
  - repeat split; vm_compute; reflexivity.
Qed.

(** C2, as the code has it — a request without a token for the email of
    an existing, unconfirmed user succeeds and keeps that user (no user is
    created), but it creates a new collective, unlike any collective of the
    store and so not the user's own, with that user as its creator and with
    a new guest token. *)
Theorem unconfirmed_email_gets_new_profile (rnd : Random) (email : string)
    (no_token name : option string) (location : option Location.t) (w : World)
    (u : User.t) :
  ids_from_sequences (store w) →
  Js.truthy no_token = false →
  email ≠ "" →
  user_by_email (store w) email = Some u →
  User.confirmedAt u = None →
  ∃ d w',
    getOrCreateGuestProfile rnd (Some email) no_token name location w = (Ok d, w')
    ∧ user d = u
    ∧ Users (store w') = Users (store w)
    ∧ Collectives (store w') = Collectives (store w) ++ [collective d]
    ∧ Forall (λ c, Collective.id c ≠ Collective.id (collective d))
        (Collectives (store w))
    ∧ Collective.id (collective d) ≠ User.CollectiveId u
    ∧ Collective.CreatedByUserId (collective d) = Some (User.id u)
    ∧ GuestTokens (store w') = GuestTokens (store w) ++ [token d]
    ∧ GuestToken.CollectiveId (token d) = Collective.id (collective d).
Proof.
  intros Hids Htoken Hemail Hu Hunconfirmed.
  unfold getOrCreateGuestProfile. rewrite Htoken.
  pose proof (createGuestProfile_cases rnd (Some email) name location w Hids) as H.
  cbv zeta in H.
  destruct (createGuestProfile rnd (Some email) name location w) as [r w'].
  assert (Js.truthy (Some email) = true) as Ht.
  { simpl. apply negb_true_iff, String.eqb_neq. exact Hemail. }
  rewrite Ht in H. simpl in H. rewrite Hu in H.
  assert (User.confirmed u = false) as Hc.
  { unfold User.confirmed. apply bool_decide_eq_false_2. intros Hne. by apply Hne. }
  rewrite Hc in H. destruct H as [Hr Hrows]. simpl in Hr. subst r.
  unfold rows in Hrows. injection Hrows as HC HU HG _.
  destruct Hids as (HidC & HidU & _).
  eexists _, w'. split; [reflexivity|]. simpl.
  repeat split; auto.
  - eapply Forall_impl; [exact HidC|]. intros c Hlt. simpl in Hlt. lia.
  - unfold user_by_email in Hu. apply List.find_some in Hu as [Hin _].
    apply list_elem_of_In in Hin.
    rewrite Forall_forall in HidU. specialize (HidU u Hin). lia.
Qed.

Lemma unconfirmed_email_gets_new_profile_witness :
  ∃ d w',
    getOrCreateGuestProfile test_random (Some "bob@example.org") None
      (Some "Bob") None test_world = (Ok d, w')
    ∧ user d = User.mk 2 "bob@example.org" None 2 (Some "confirm-bob") None
    ∧ Users (store w') = Users (store test_world)
    ∧ Collectives (store w') = Collectives (store test_world) ++ [collective d]
    ∧ Forall (λ c, Collective.id c ≠ Collective.id (collective d))
        (Collectives (store test_world))
    ∧ Collective.id (collective d) ≠ 2
    ∧ Collective.CreatedByUserId (collective d) = Some 2
    ∧ GuestTokens (store w') = GuestTokens (store test_world) ++ [token d]
    ∧ GuestToken.CollectiveId (token d) = Collective.id (collective d).
Proof.
  refine (unconfirmed_email_gets_new_profile test_random "bob@example.org" None
            (Some "Bob") None test_world
            (User.mk 2 "bob@example.org" None 2 (Some "confirm-bob") None)
            test_store_ids _ _ _ _).
  - reflexivity.
  - discriminate.
  - reflexivity.
  - reflexivity.
Defined.

(** C2, as stated, fails — Bob is an unconfirmed user whose profile is
    collective 2; a request without a token for his email does not return
    collective 2 and does not leave the collectives as they were: it
    returns the new collective 5. *)
Lemma unconfirmed_email_is_not_reused :
  let out := getOrCreateGuestProfile test_random (Some "bob@example.org") None
               None None test_world in
  user_by_email test_store "bob@example.org"
    = Some (User.mk 2 "bob@example.org" None 2 (Some "confirm-bob") None)
  ∧ (Collective.id <$> (match out.1 with Ok d => Some (collective d) | Err _ => None end))
    = Some 5
  ∧ length (Collectives (store out.2)) = S (length (Collectives test_store))
  ∧ ¬ (∃ d, out.1 = Ok d
            ∧ Collective.id (collective d) = 2
            ∧ Collectives (store out.2) = Collectives test_store).
Proof.
  cbv zeta. split; [reflexivity|]. split; [vm_compute; reflexivity|].
  split; [vm_compute; reflexivity|].
  intros (d & Hd & Hid & _). vm_compute in Hd. injection Hd as <-.
  vm_compute in Hid. discriminate.
Qed.

(* ===================================================================== *)
(** ** Guest profiles: requests with a token *)
(* ===================================================================== *)

Lemma loadGuestToken_run (value : string) (w : World) :
  loadGuestToken value w =
  match token_by_value (store w) value with
  | None => (Err (PlainError INVALID_TOKEN_MSG), emit (Sql GuestToken_findOne) w)
  | Some (g, c) =>
      let w1 := emit (Sql User_findOne) (emit (Sql GuestToken_findOne) w) in
      match user_of_collective (store w) (Collective.id c) with
      | None => (Err (PlainError INVALID_TOKEN_MSG), w1)
      | Some u => (Ok (mkDetails u c g), w1)
      end
  end.
Proof.
  unfold loadGuestToken, GuestToken_findOne_by_value, User_findOne_where,
    token_by_value, user_of_collective.
  run.
  destruct (head _) as [[g c]|]; simpl; [|done].
  by destruct (List.find _ (Users (store w))).
Qed.

Lemma loadGuestToken_Ok (value : string) (w w1 : World) (d : GuestProfileDetails) :
  loadGuestToken value w = (Ok d, w1) →
  token_by_value (store w) value = Some (token d, collective d)
  ∧ user_of_collective (store w) (Collective.id (collective d)) = Some (user d)
  ∧ w1 = emit (Sql User_findOne) (emit (Sql GuestToken_findOne) w).
Proof.
  rewrite loadGuestToken_run.
  destruct (token_by_value _ _) as [[g c]|] eqn:Hg; [|discriminate].
  cbv zeta.
  destruct (user_of_collective _ _) as [u|] eqn:Hu; [|discriminate].
  by intros [= <- <-].
Qed.

Lemma token_by_value_collective (s : Store) (value : string)
    (g : GuestToken.t) (c : Collective.t) :
  token_by_value s value = Some (g, c) →
  collective_by_id s (GuestToken.CollectiveId g) = Some c ∧ g ∈ GuestTokens s.
Proof.
  unfold token_by_value, tokens_with_collective. intros Hhead.
  apply head_Some_elem_of in Hhead.
  apply list_elem_of_omap in Hhead as (g' & Hin & Hg').
  destruct (GuestToken.live g'); [|discriminate].
  destruct (collective_by_id s (GuestToken.CollectiveId g')) as [c'|] eqn:Hc';
    [|discriminate].
  destruct (bool_decide _); [|discriminate].
  by injection Hg' as <- <-.
Qed.

Lemma apply_fieldsToUpdate (stored : Collective.t) (name : option string)
    (location : option Location.t) :
  Collective.apply (fieldsToUpdate stored name location) stored
  = Collective.mk (Collective.id stored) (Collective.type stored)
      (Collective.slug stored)
      (backfilled name (Collective.name stored))
      (Collective.data stored)
      (backfilled (location ≫= Location.address) (Collective.address stored))
      (backfilled (location ≫= Location.country) (Collective.countryISO stored))
      (Collective.CreatedByUserId stored) (Collective.deletedAt stored).
Proof.
  destruct stored as [id ty sl nm da ad co cr de].
  unfold fieldsToUpdate, Collective.apply, backfilled. simpl.
  destruct location as [[country address]|]; simpl;
    repeat match goal with
           | |- context [Js.truthy ?x] => destruct (Js.truthy x) eqn:?; simpl
           | |- context [bool_decide ?P] => destruct (decide P); 
               [rewrite (bool_decide_eq_true_2 P) by done
               |rewrite (bool_decide_eq_false_2 P) by done]; simpl
           end;
    try reflexivity;
    repeat match goal with
           | H : ¬ (_ ≠ _) |- _ => apply dec_stable in H
           end;
    subst; try reflexivity.
  all: repeat match goal with
         | H : Js.truthy ?x = true |- _ => destruct x; [clear H | discriminate H]
         end; reflexivity.
Qed.

Lemma apply_isEmpty (ch : Collective.changes) (c : Collective.t) :
  Collective.isEmpty ch = true → Collective.apply ch c = c.
Proof.
  destruct ch as [[?|] [?|] [?|] [?|] [?|] [?|]], c; try discriminate.
  reflexivity.
Qed.

Lemma isEmpty_columns (ch : Collective.changes) :
  Collective.isEmpty ch = bool_decide (Collective.columns ch = []).
Proof. by destruct ch as [[?|] [?|] [?|] [?|] [?|] [?|]]. Qed.

Lemma columns_fieldsToUpdate (stored : Collective.t) (name : option string)
    (location : option Location.t) :
  Collective.columns (fieldsToUpdate stored name location)
  = column_if_new "name" name (Collective.name stored)
    ++ column_if_new "countryISO" (location ≫= Location.country)
         (Collective.countryISO stored)
    ++ column_if_new "address" (location ≫= Location.address)
         (Collective.address stored).
Proof.
  unfold fieldsToUpdate, Collective.columns, column_if_new. simpl.
  assert (bool_decide (Collective.name stored ≠ name)
          = bool_decide (name ≠ Collective.name stored)) as ->.
  { apply bool_decide_ext. split; intros H1 H2; by apply H1. }
  destruct (Js.truthy name && bool_decide (name ≠ Collective.name stored)); simpl;
    (destruct location as [[country address]|]; simpl; [|reflexivity]);
    destruct (Js.truthy country && _) eqn:Hc; simpl;
    destruct (Js.truthy address && _) eqn:Ha; simpl;
    try reflexivity;
    apply andb_true_iff in Hc as [Hc _] || apply andb_true_iff in Ha as [Ha _];
    (destruct country; [|discriminate]) || (destruct address; [|discriminate]);
    try reflexivity;
    try (apply andb_true_iff in Ha as [Ha _]; destruct address; [|discriminate]);
    reflexivity.
Qed.

(** The three ways of a request with a token that resolves to an
    unconfirmed user. *)
Lemma getOrCreateGuestProfile_with_token (rnd : Random) (tokenValue : string)
    (email name : option string) (location : option Location.t)
    (w w1 : World) (d : GuestProfileDetails) :
  tokenValue ≠ "" →
  loadGuestToken tokenValue w = (Ok d, w1) →
  User.confirmedAt (user d) = None →
  getOrCreateGuestProfile rnd email (Some tokenValue) name location w
  = if Js.truthy email
       && bool_decide (User.email (user d) ≠ Js.trim (default "" email))
    then createGuestProfile rnd email name location w1
    else (let! updated := updateCollective (collective d) name location in
          ret (mkDetails (user d) updated (token d))) w1.
Proof.
  intros Htok Hload Hunconfirmed.
  unfold getOrCreateGuestProfile. rewrite truthy_Some by done.
  unfold getGuestProfileFromToken, bind at 1. simpl default. rewrite Hload.
  rewrite unconfirmed_not_confirmed by done.
  by destruct (Js.truthy email && _).
Qed.

(** C9 — a request that reuses the profile of its token (no email, a blank
    one, or the email of the token's user) returns the stored collective
    with each of name, country and address replaced by the supplied value
    when that value is not blank and kept otherwise; the row in the store
    becomes that collective.  The one update statement names exactly the
    columns whose supplied value is not blank and differs from the stored
    one, and no statement is sent when there is no such column. *)
Theorem reuse_backfills_nonblank_columns (rnd : Random) (tokenValue : string)
    (email name : option string) (location : option Location.t)
    (w w1 : World) (d : GuestProfileDetails) :
  tokenValue ≠ "" →
  loadGuestToken tokenValue w = (Ok d, w1) →
  User.confirmedAt (user d) = None →
  (∀ e, email = Some e → e = "" ∨ User.email (user d) = Js.trim e) →
  let stored := collective d in
  let updated :=
    Collective.mk (Collective.id stored) (Collective.type stored)
      (Collective.slug stored)
      (backfilled name (Collective.name stored))
      (Collective.data stored)
      (backfilled (location ≫= Location.address) (Collective.address stored))
      (backfilled (location ≫= Location.country) (Collective.countryISO stored))
      (Collective.CreatedByUserId stored) (Collective.deletedAt stored) in
  let columns :=
    column_if_new "name" name (Collective.name stored)
    ++ column_if_new "countryISO" (location ≫= Location.country)
         (Collective.countryISO stored)
    ++ column_if_new "address" (location ≫= Location.address)
         (Collective.address stored) in
  let out := getOrCreateGuestProfile rnd email (Some tokenValue) name location w in
  out.1 = Ok (mkDetails (user d) updated (token d))
  ∧ collective_by_id (store out.2) (Collective.id stored) = Some updated
  ∧ trace out.2
    = trace w1 ++ (if decide (columns = []) then []
                   else [Sql (Collective_update columns)])
  ∧ length (Collectives (store out.2)) = length (Collectives (store w))
  ∧ Users (store out.2) = Users (store w)
  ∧ GuestTokens (store out.2) = GuestTokens (store w)
  ∧ Orders (store out.2) = Orders (store w).
Proof.
  intros Htok Hload Hunconfirmed Hemail stored updated columns out.
  destruct (loadGuestToken_Ok _ _ _ _ Hload) as (Hg & _ & Hw1).
  apply token_by_value_collective in Hg as [Hstored _].
  pose proof (collective_by_id_id _ _ _ Hstored) as Hid.
  rewrite <- Hid in Hstored.
  assert (Js.truthy email
          && bool_decide (User.email (user d) ≠ Js.trim (default "" email))
          = false) as Hsame.
  { destruct email as [e|]; [|done]. destruct (Hemail e eq_refl) as [-> | He].
    - done.
    - simpl. rewrite bool_decide_eq_false_2; [apply andb_false_r|].
      intros Hne. by apply Hne. }
  assert (out = (let! updated := updateCollective (collective d) name location in
                 ret (mkDetails (user d) updated (token d))) w1) as Hout.
  { unfold out. erewrite getOrCreateGuestProfile_with_token by done.
    by rewrite Hsame. }
  clearbody out. subst out.
  subst updated columns stored.
  rewrite <- apply_fieldsToUpdate, <- columns_fieldsToUpdate.
  unfold updateCollective. rewrite isEmpty_columns.
  destruct (decide (Collective.columns
                      (fieldsToUpdate (collective d) name location) = []))
    as [Hnone | Hsome].
  - rewrite bool_decide_eq_true_2 by done.
    rewrite apply_isEmpty by (rewrite isEmpty_columns; by apply bool_decide_eq_true_2).
    run. subst w1. simpl. rewrite app_nil_r. by repeat split.
  - rewrite bool_decide_eq_false_2 by done.
    unfold Collective_update_row. run. subst w1. simpl.
    repeat split; try done.
    + unfold collective_by_id. simpl.
      exact (collective_by_id_updated _ _ _ _ Hstored).
    + by rewrite length_fmap.
Qed.

Lemma reuse_backfills_nonblank_columns_witness :
  let out := getOrCreateGuestProfile test_random (Some " bob@example.org ")
               (Some "guest-token-bob") (Some "")
               (Some (Location.mk (Some "FR") (Some "1 rue de la Paix")))
               test_world in
  out.1 = Ok (mkDetails
                (User.mk 2 "bob@example.org" None 2 (Some "confirm-bob") None)
                (Collective.mk 2 "USER" "guest-5e6f7a8b" (Some "Zappa")
                   (<["locale" := Js.JStr "fr"]> guest_data)
                   (Some "1 rue de la Paix") (Some "FR") (Some 2) None)
                (GuestToken.mk 2 "guest-token-bob" 2 None))
  ∧ trace out.2 = [ Sql GuestToken_findOne; Sql User_findOne;
                    Sql (Collective_update ["address"]) ].
Proof.
  pose proof (reuse_backfills_nonblank_columns test_random "guest-token-bob"
                (Some " bob@example.org ") (Some "")
                (Some (Location.mk (Some "FR") (Some "1 rue de la Paix")))
                test_world
                (loadGuestToken "guest-token-bob" test_world).2
                (mkDetails
                   (User.mk 2 "bob@example.org" None 2 (Some "confirm-bob") None)
                   (Collective.mk 2 "USER" "guest-5e6f7a8b" (Some "Zappa")
                      (<["locale" := Js.JStr "fr"]> guest_data)
                      None (Some "FR") (Some 2) None)
                   (GuestToken.mk 2 "guest-token-bob" 2 None))) as H.
  cbv zeta in H.
  destruct H as (Hout & _ & Htrace & _).
  - discriminate.
  - vm_compute. reflexivity.
  - reflexivity.
  - intros e [= <-]. right. reflexivity.
  - split; [exact Hout | exact Htrace].
Defined.

(* ===================================================================== *)
(** ** A token after another profile was created *)
(* ===================================================================== *)

Lemma find_app_not_r {A} (p : A → bool) (l l' : list A) :
  Forall (λ x, p x = false) l' → List.find p (l ++ l') = List.find p l.
Proof.
  intros Hl'. induction l as [|a l IH]; simpl.
  - induction Hl' as [|x l' Hx _ IH]; simpl; [done|]. by rewrite Hx.
  - by destruct (p a).
Qed.

Lemma collective_by_id_after_insert (s s' : Store) (new : Collective.t) (id : Z) :
  Collectives s' = Collectives s ++ [new] →
  id < Collective.id new →
  collective_by_id s' id = collective_by_id s id.
Proof.
  intros HC Hid. unfold collective_by_id. rewrite HC.
  apply find_app_not_r. constructor; [|done].
  rewrite bool_decide_eq_false_2 by lia. apply andb_false_r.
Qed.

Lemma token_by_value_after_insert (s s' : Store) (new : Collective.t)
    (added : list GuestToken.t) (value : string)
    (found : GuestToken.t * Collective.t) :
  Forall (λ g, GuestToken.CollectiveId g < Collective.id new) (GuestTokens s) →
  Collectives s' = Collectives s ++ [new] →
  GuestTokens s' = GuestTokens s ++ added →
  token_by_value s value = Some found →
  token_by_value s' value = Some found.
Proof.
  intros Hfk HC HG. unfold token_by_value, tokens_with_collective.
  rewrite HG, omap_app. intros Hfound.
  apply head_app_Some. left.
  rewrite <- Hfound. f_equal.
  clear Hfound HG. induction Hfk as [|g l Hg _ IH]; [done|]. csimpl.
  rewrite IH. by rewrite (collective_by_id_after_insert s s' new).
Qed.

Lemma loadGuestToken_after_insert (value : string) (w w' : World)
    (d : GuestProfileDetails) (new : Collective.t)
    (users : list User.t) (tokens : list GuestToken.t) :
  Forall (λ g, GuestToken.CollectiveId g < Collective.id new)
    (GuestTokens (store w)) →
  Collectives (store w') = Collectives (store w) ++ [new] →
  Users (store w') = Users (store w) ++ users →
  GuestTokens (store w') = GuestTokens (store w) ++ tokens →
  (loadGuestToken value w).1 = Ok d →
  (loadGuestToken value w').1 = Ok d.
Proof.
  intros Hfk HC HU HG. rewrite !loadGuestToken_run.
  destruct (token_by_value (store w) value) as [[g c]|] eqn:Hg; [|discriminate].
  rewrite (token_by_value_after_insert _ _ _ _ _ _ Hfk HC HG Hg). cbv zeta.
  unfold user_of_collective. rewrite HU.
  destruct (List.find _ (Users (store w))) as [u|] eqn:Hu; [|discriminate].
  by rewrite (find_app_Some _ _ _ _ Hu).
Qed.

Lemma loadGuestToken_same_rows (value : string) (w w' : World) :
  rows (store w') = rows (store w) →
  (loadGuestToken value w').1 = (loadGuestToken value w).1.
Proof.
  unfold rows. intros [= HC HU HG _]. rewrite !loadGuestToken_run.
  unfold token_by_value, tokens_with_collective, user_of_collective,
    collective_by_id.
  rewrite HC, HU, HG.
  destruct (head _) as [[g c]|]; [|done]. cbv zeta.
  by destruct (List.find _ (Users (store w))).
Qed.

Lemma loadGuestToken_rows_found (value : string) (w w1 : World)
    (d : GuestProfileDetails) :
  loadGuestToken value w = (Ok d, w1) →
  store w1 = store w
  ∧ collective d ∈ Collectives (store w)
  ∧ user d ∈ Users (store w)
  ∧ token d ∈ GuestTokens (store w).
Proof.
  intros Hload. destruct (loadGuestToken_Ok _ _ _ _ Hload) as (Hg & Hu & ->).
  apply token_by_value_collective in Hg as [Hc Hg].
  split; [done|]. repeat split; [| |done].
  - unfold collective_by_id in Hc. apply List.find_some in Hc as [Hin _].
    by apply list_elem_of_In.
  - unfold user_of_collective in Hu. apply List.find_some in Hu as [Hin _].
    by apply list_elem_of_In.
Qed.

(** C10 — when a request brings a token of an unconfirmed user and another
    email (one that, trimmed as the code trims it, is not that user's),
    every row that was in the store is still there unchanged, the
    collective, the user and the guest token of that token among them:
    rows were only added.  The token is still accepted afterwards, and
    gives the same profile. *)
Theorem abandoned_token_left_untouched (rnd : Random) (tokenValue email : string)
    (name : option string) (location : option Location.t)
    (w w1 : World) (d : GuestProfileDetails) :
  ids_from_sequences (store w) →
  tokenValue ≠ "" →
  loadGuestToken tokenValue w = (Ok d, w1) →
  User.confirmedAt (user d) = None →
  email ≠ "" →
  User.email (user d) ≠ Js.trim email →
  let out := getOrCreateGuestProfile rnd (Some email) (Some tokenValue) name
               location w in
  Collectives (store w) `prefix_of` Collectives (store out.2)
  ∧ Users (store w) `prefix_of` Users (store out.2)
  ∧ GuestTokens (store w) `prefix_of` GuestTokens (store out.2)
  ∧ collective d ∈ Collectives (store out.2)
  ∧ user d ∈ Users (store out.2)
  ∧ token d ∈ GuestTokens (store out.2)
  ∧ (loadGuestToken tokenValue out.2).1 = Ok d.
Proof.
  intros Hids Htok Hload Hunconfirmed Hemail Hother out.
  destruct (loadGuestToken_rows_found _ _ _ _ Hload) as (Hstore & HinC & HinU & HinG).
  assert (out = createGuestProfile rnd (Some email) name location w1) as Hout.
  { unfold out. erewrite getOrCreateGuestProfile_with_token by done.
    rewrite truthy_Some by done. simpl. by rewrite bool_decide_eq_true_2. }
  clearbody out. subst out.
  assert (ids_from_sequences (store w1)) as Hids1 by (by rewrite Hstore).
  pose proof (createGuestProfile_cases rnd (Some email) name location w1 Hids1) as H.
  cbv zeta in H. rewrite truthy_Some in H by done. simpl in H.
  rewrite Hstore in H.
  assert ((loadGuestToken tokenValue w).1 = Ok d) as Hload1 by (by rewrite Hload).
  destruct Hids as (_ & _ & HfkG).
  assert (Forall (λ g, GuestToken.CollectiveId g < next_Collective (store w))
            (GuestTokens (store w))) as Hfk.
  { eapply Forall_impl; [exact HfkG|]. by intros g [_ Hg]. }
  destruct (createGuestProfile rnd (Some email) name location w1) as [r w'].
  simpl.
  assert (∀ u g users,
            rows (store w')
            = (Collectives (store w)
                 ++ [with_creator u (created_collective rnd name location (store w))],
               Users (store w) ++ users, GuestTokens (store w) ++ [g],
               Orders (store w)) →
            Collectives (store w) `prefix_of` Collectives (store w')
            ∧ Users (store w) `prefix_of` Users (store w')
            ∧ GuestTokens (store w) `prefix_of` GuestTokens (store w')
            ∧ collective d ∈ Collectives (store w')
            ∧ user d ∈ Users (store w')
            ∧ token d ∈ GuestTokens (store w')
            ∧ (loadGuestToken tokenValue w').1 = Ok d) as Hadded.
  { intros u g users [= HC HU HG _].
    rewrite HC, HU, HG.
    split; [by eexists|]. split; [by eexists|]. split; [by eexists|].
    split; [set_solver|]. split; [set_solver|]. split; [set_solver|].
    exact (loadGuestToken_after_insert _ w w' d
             (with_creator u (created_collective rnd name location (store w)))
             users [g] Hfk HC HU HG Hload1). }
  destruct (user_by_email (store w) email) as [u|].
  - destruct (User.confirmed u).
    + destruct H as [_ Hrows].
      rewrite (loadGuestToken_same_rows _ _ _ Hrows).
      unfold rows in Hrows. injection Hrows as -> -> -> _.
      by repeat split.
    + destruct H as [_ Hrows]. rewrite <- (app_nil_r (Users (store w))) in Hrows.
      exact (Hadded _ _ _ Hrows).
  - destruct H as [_ Hrows]. exact (Hadded _ _ _ Hrows).
Qed.

Lemma abandoned_token_left_untouched_witness :
  let out := getOrCreateGuestProfile test_random (Some "eve@example.org")
               (Some "guest-token-bob") None None test_world in
  Collectives (store test_world) `prefix_of` Collectives (store out.2)
  ∧ Users (store test_world) `prefix_of` Users (store out.2)
  ∧ GuestTokens (store test_world) `prefix_of` GuestTokens (store out.2)
  ∧ collective bob_profile ∈ Collectives (store out.2)
  ∧ user bob_profile ∈ Users (store out.2)
  ∧ token bob_profile ∈ GuestTokens (store out.2)
  ∧ (loadGuestToken "guest-token-bob" out.2).1 = Ok bob_profile.
Proof.
  refine (abandoned_token_left_untouched test_random "guest-token-bob"
            "eve@example.org" None None test_world
            (loadGuestToken "guest-token-bob" test_world).2 bob_profile
            test_store_ids _ _ _ _ _).
  - discriminate.
  - vm_compute. reflexivity.
  - reflexivity.
  - discriminate.
  - vm_compute. discriminate.
Defined.

(* ===================================================================== *)
(** ** The email next to a token *)
(* ===================================================================== *)

(** C3, as the code has it — with a token of an unconfirmed user and an
    email that is not blank, the request compares the email of that user
    with the supplied email after trimming, letter for letter.  When they
    are equal the profile of the token is returned and no collective is
    added.  When they differ, in case only or otherwise, the request is the
    creation of a profile for the supplied email: it is refused with "An
    account already exists ..." when a confirmed user holds that email, and
    in every other case it succeeds with a user of that email and a
    collective that is new in the store and is not the token's. *)
Theorem token_email_is_compared_exactly (rnd : Random) (tokenValue email : string)
    (name : option string) (location : option Location.t)
    (w w1 : World) (d : GuestProfileDetails) :
  ids_from_sequences (store w) →
  tokenValue ≠ "" →
  loadGuestToken tokenValue w = (Ok d, w1) →
  User.confirmedAt (user d) = None →
  email ≠ "" →
  let out := getOrCreateGuestProfile rnd (Some email) (Some tokenValue) name
               location w in
  if decide (User.email (user d) = Js.trim email) then
    ∃ updated,
      out.1 = Ok (mkDetails (user d) updated (token d))
      ∧ Collective.id updated = Collective.id (collective d)
      ∧ length (Collectives (store out.2)) = length (Collectives (store w))
  else
    out = createGuestProfile rnd (Some email) name location w1
    ∧ if match user_by_email (store w) email with
         | Some holder => User.confirmed holder
         | None => false
         end
      then
        out.1 = Err (PlainError ALREADY_EXISTS_MSG)
        ∧ rows (store out.2) = rows (store w)
      else
        ∃ d', out.1 = Ok d'
              ∧ User.email (user d') = email
              ∧ Collectives (store out.2) = Collectives (store w) ++ [collective d']
              ∧ Collective.id (collective d') ≠ Collective.id (collective d)
              ∧ Forall (λ c, Collective.id c ≠ Collective.id (collective d'))
                  (Collectives (store w)).
Proof.
  intros Hids Htok Hload Hunconfirmed Hemail out.
  destruct (loadGuestToken_rows_found _ _ _ _ Hload) as (Hstore & HinC & _ & _).
  assert (out = if bool_decide (User.email (user d) ≠ Js.trim email)
                then createGuestProfile rnd (Some email) name location w1
                else (let! updated := updateCollective (collective d) name location in
                      ret (mkDetails (user d) updated (token d))) w1) as Hout.
  { unfold out. erewrite getOrCreateGuestProfile_with_token by done.
    by rewrite truthy_Some by done. }
  clearbody out. subst out.
  destruct (decide (User.email (user d) = Js.trim email)) as [Hsame | Hother].
  - rewrite bool_decide_eq_false_2 by (intros Hne; by apply Hne).
    unfold updateCollective.
    destruct (Collective.isEmpty _); unfold Collective_update_row; run.
    + eexists. rewrite Hstore. by repeat split.
    + eexists. rewrite Hstore. repeat split. by rewrite length_fmap.
  - rewrite bool_decide_eq_true_2 by done. split; [done|].
    assert (ids_from_sequences (store w1)) as Hids1 by (by rewrite Hstore).
    pose proof (createGuestProfile_cases rnd (Some email) name location w1 Hids1) as H.
    cbv zeta in H. rewrite truthy_Some in H by done. simpl in H.
    rewrite Hstore in H.
    destruct Hids as (HidC & _ & _).
    assert (Forall (λ c, Collective.id c ≠ next_Collective (store w))
              (Collectives (store w))) as Hnew.
    { eapply Forall_impl; [exact HidC|]. intros c Hc. simpl in Hc. lia. }
    assert (next_Collective (store w) ≠ Collective.id (collective d)) as Hnot.
    { rewrite Forall_forall in Hnew. intros Heq. by apply (Hnew _ HinC). }
    destruct (createGuestProfile rnd (Some email) name location w1) as [r w'].
    simpl in *.
    destruct (user_by_email (store w) email) as [u|] eqn:Hu.
    + destruct (User.confirmed u); [exact H|].
      destruct H as [-> Hrows]. unfold rows in Hrows. injection Hrows as -> _ _ _.
      eexists. split; [reflexivity|]. simpl. repeat split; try done.
      unfold user_by_email in Hu. apply List.find_some in Hu as [_ Hu].
      apply andb_true_iff in Hu as [_ Hu]. by apply bool_decide_eq_true in Hu.
    + destruct H as [-> Hrows]. unfold rows in Hrows. injection Hrows as -> _ _ _.
      eexists. split; [reflexivity|]. simpl. by repeat split.
Qed.

(** Bob's token with his email between a no-break space (U+00A0) and a
    space: the profile of the token is reused.  Bob's token with the email
    of Eve, which no user has: collective 5 is created for her. *)
Lemma token_email_is_compared_exactly_witness :
  (let out := getOrCreateGuestProfile test_random
                (Some (String.string_of_list_ascii (Js.utf8 160)
                       +:+ "bob@example.org "))
                (Some "guest-token-bob") (Some "Bob") None test_world in
   ∃ updated,
     out.1 = Ok (mkDetails (user bob_profile) updated (token bob_profile))
     ∧ Collective.id updated = Collective.id (collective bob_profile)
     ∧ length (Collectives (store out.2)) = length (Collectives (store test_world)))
  ∧ (let out := getOrCreateGuestProfile test_random (Some "eve@example.org")
                  (Some "guest-token-bob") None None test_world in
     ∃ d', out.1 = Ok d'
           ∧ User.email (user d') = "eve@example.org"
           ∧ Collectives (store out.2)
             = Collectives (store test_world) ++ [collective d']
           ∧ Collective.id (collective d') ≠ Collective.id (collective bob_profile)
           ∧ Forall (λ c, Collective.id c ≠ Collective.id (collective d'))
               (Collectives (store test_world))).
Proof.
  split.
  - refine (token_email_is_compared_exactly test_random "guest-token-bob"
              (String.string_of_list_ascii (Js.utf8 160) +:+ "bob@example.org ")
              (Some "Bob") None test_world
              (loadGuestToken "guest-token-bob" test_world).2 bob_profile
              test_store_ids _ _ _ _).
    + discriminate.
    + vm_compute. reflexivity.
    + reflexivity.
    + discriminate.
  - refine (proj2 (token_email_is_compared_exactly test_random "guest-token-bob"
                     "eve@example.org" None None test_world
                     (loadGuestToken "guest-token-bob" test_world).2 bob_profile
                     test_store_ids _ _ _ _)).
    + discriminate.
    + vm_compute. reflexivity.
    + reflexivity.
    + discriminate.
Defined.

(** C3, as stated, fails — Bob's token with his email in another letter
    case: the two emails are equal once trimmed and lower-cased, yet the
    request does not return Bob's profile; it creates collective 5 for a
    new user.  And Bob's token with the email of Carol, who has a verified
    account: the emails differ, yet no account comes of it; the request is
    refused and the collectives are as they were. *)
Lemma email_case_is_not_folded :
  let out := getOrCreateGuestProfile test_random (Some "Bob@Example.org")
               (Some "guest-token-bob") None None test_world in
  let refused := getOrCreateGuestProfile test_random (Some "carol@example.org")
                   (Some "guest-token-bob") None None test_world in
  (loadGuestToken "guest-token-bob" test_world).1 = Ok bob_profile
  ∧ Js.ascii_toLowerCase (Js.trim "Bob@Example.org")
    = Js.ascii_toLowerCase (Js.trim (User.email (user bob_profile)))
  ∧ (∃ d, out.1 = Ok d
          ∧ Collective.id (collective d) = 5
          ∧ User.id (user d) = 4
          ∧ User.email (user d) = "Bob@Example.org")
  ∧ ¬ (∃ d, out.1 = Ok d
            ∧ Collective.id (collective d) = Collective.id (collective bob_profile))
  ∧ User.email (user bob_profile) ≠ Js.trim "carol@example.org"
  ∧ refused.1 = Err (PlainError ALREADY_EXISTS_MSG)
  ∧ Collectives (store refused.2) = Collectives test_store.
Proof.
  cbv zeta. split; [vm_compute; reflexivity|]. split; [reflexivity|]. split.
  - eexists. split; [vm_compute; reflexivity|]. by repeat split.
  - split.
    + intros (d & Hd & Hid). vm_compute in Hd. injection Hd as <-.
      vm_compute in Hid. discriminate.
    + split; [vm_compute; discriminate|].
      split; vm_compute; reflexivity.
Qed.

(* ===================================================================== *)
(** ** The email of a confirmed user *)
(* ===================================================================== *)

Lemma loadGuestToken_Err (value : string) (w w1 : World) (e : Error) :
  loadGuestToken value w = (Err e, w1) →
  e = PlainError INVALID_TOKEN_MSG ∧ store w1 = store w.
Proof.
  rewrite loadGuestToken_run.
  destruct (token_by_value _ _) as [[g c]|]; cbv zeta.
  - destruct (user_of_collective _ _); [discriminate|]. by intros [= <- <-].
  - by intros [= <- <-].
Qed.

Lemma createGuestProfile_confirmed (rnd : Random) (email : string)
    (name : option string) (location : option Location.t) (w : World)
    (u : User.t) :
  ids_from_sequences (store w) →
  email ≠ "" →
  user_by_email (store w) email = Some u →
  User.confirmedAt u ≠ None →
  let out := createGuestProfile rnd (Some email) name location w in
  out.1 = Err (PlainError ALREADY_EXISTS_MSG)
  ∧ rows (store out.2) = rows (store w).
Proof.
  intros Hids Hemail Hu Hconfirmed.
  pose proof (createGuestProfile_cases rnd (Some email) name location w Hids) as H.
  cbv zeta in *. rewrite truthy_Some in H by done. simpl in H.
  rewrite Hu in H. unfold User.confirmed in H.
  by rewrite bool_decide_eq_true_2 in H.
Qed.

Lemma getGuestProfileFromToken_run (rnd : Random) (tokenValue : string)
    (email name : option string) (location : option Location.t) (w : World) :
  getGuestProfileFromToken rnd tokenValue email name location w
  = match loadGuestToken tokenValue w with
    | (Ok d, w1) =>
        if User.confirmed (user d)
        then (Err (PlainError ALREADY_EXISTS_MSG), w1)
        else if Js.truthy email
                && bool_decide (User.email (user d) ≠ Js.trim (default "" email))
        then createGuestProfile rnd email name location w1
        else (let! updated := updateCollective (collective d) name location in
              ret (mkDetails (user d) updated (token d))) w1
    | (Err e, w1) => (Err e, w1)
    end.
Proof.
  unfold getGuestProfileFromToken, bind at 1.
  destruct (loadGuestToken tokenValue w) as [[d|e] w1]; [|done].
  destruct (User.confirmed (user d)); [done|].
  by destruct (Js.truthy email && _).
Qed.

(** C6, as the code has it — a request for the email of a confirmed user
    (an email that is not blank and that no unconfirmed user holds) fails
    and leaves the rows of the store as they were.  The error is "An
    account already exists for this email, please sign in." when no token
    is supplied and when the supplied token resolves to a guest profile;
    when the supplied token does not resolve, the error is the one of
    [loadGuestToken], "Your guest token is invalid. ...". *)
Theorem confirmed_email_is_refused (rnd : Random) (email : string)
    (supplied_token name : option string) (location : option Location.t)
    (w : World) (u : User.t) :
  ids_from_sequences (store w) →
  email ≠ "" →
  user_by_email (store w) email = Some u →
  User.confirmedAt u ≠ None →
  (∀ u', u' ∈ Users (store w) → User.email u' = Js.trim email →
         User.confirmedAt u' ≠ None) →
  let out := getOrCreateGuestProfile rnd (Some email) supplied_token name
               location w in
  let loaded := (loadGuestToken (default "" supplied_token) w).1 in
  rows (store out.2) = rows (store w)
  ∧ out.1 = Err (PlainError
                   (if Js.truthy supplied_token
                    then match loaded with
                         | Ok _ => ALREADY_EXISTS_MSG
                         | Err _ => INVALID_TOKEN_MSG
                         end
                    else ALREADY_EXISTS_MSG)).
Proof.
  intros Hids Hemail Hu Hconfirmed Honly out loaded. subst out loaded.
  unfold getOrCreateGuestProfile.
  destruct (Js.truthy supplied_token).
  2: { destruct (createGuestProfile_confirmed rnd email name location w u)
         as [-> ->]; done. }
  rewrite getGuestProfileFromToken_run.
  destruct (loadGuestToken (default "" supplied_token) w) as [[d|e] w1] eqn:Hload.
  - destruct (loadGuestToken_rows_found _ _ _ _ Hload) as (Hstore & _ & HinU & _).
    unfold User.confirmed.
    destruct (decide (User.confirmedAt (user d) = None)) as [Hguest | Hdone].
    + rewrite bool_decide_eq_false_2 by (intros Hne; by apply Hne).
      rewrite truthy_Some by done. simpl default.
      rewrite bool_decide_eq_true_2.
      2: { intros Heq. by apply (Honly (user d) HinU Heq). }
      simpl.
      destruct (createGuestProfile_confirmed rnd email name location w1 u)
        as [-> ->]; try done; by rewrite Hstore.
    + rewrite bool_decide_eq_true_2 by done. simpl. by rewrite Hstore.
  - apply loadGuestToken_Err in Hload as [-> Hstore]. simpl. by rewrite Hstore.
Qed.

Lemma confirmed_email_is_refused_witness :
  let out := getOrCreateGuestProfile test_random (Some "carol@example.org")
               (Some "guest-token-bob") None None test_world in
  rows (store out.2) = rows (store test_world)
  ∧ out.1 = Err (PlainError ALREADY_EXISTS_MSG).
Proof.
  refine (confirmed_email_is_refused test_random "carol@example.org"
            (Some "guest-token-bob") None None test_world
            (User.mk 3 "carol@example.org" (Some 1600000000) 3 None None)
            test_store_ids _ _ _ _).
  - discriminate.
  - reflexivity.
  - discriminate.
  - intros u' Hin Hemail.
    unfold test_world, test_store in Hin. simpl in Hin.
    repeat (apply elem_of_cons in Hin as [-> | Hin];
            [first [ vm_compute in Hemail; discriminate Hemail
                   | simpl; discriminate ] |]).
    by apply elem_of_nil in Hin.
Defined.

(** C6, as stated, fails — Carol has a verified account; a request for her
    email that carries a guest token unknown to the store is refused with
    the invalid-token message, not with "An account already exists ...". *)
Lemma unknown_token_hides_already_exists :
  let out := getOrCreateGuestProfile test_random (Some "carol@example.org")
               (Some "expired-token") None None test_world in
  (User.confirmed <$> user_by_email test_store "carol@example.org") = Some true
  ∧ out.1 = Err (PlainError INVALID_TOKEN_MSG)
  ∧ out.1 ≠ Err (PlainError ALREADY_EXISTS_MSG).
Proof.
  cbv zeta. split; [reflexivity|].
  split; [vm_compute; reflexivity | vm_compute; discriminate].
Qed.

(* ===================================================================== *)
(** ** The guest tokens of the mutation *)
(* ===================================================================== *)

(** The resolver of [confirmGuestAccount] hands the confirmation token and
    the name to the library function, and nothing in the place of the
    guest tokens that it has just counted. *)
Lemma confirm_resolve_passes_no_tokens generateSlug mergeCollectives
    (args : ConfirmArgs) (w : World) :
  (∀ guestTokens, arg_guestTokens args = Some guestTokens →
                  (length guestTokens ≤ 30)%nat) →
  confirmGuestAccount_resolve generateSlug mergeCollectives args w
  = confirmGuestAccount generateSlug mergeCollectives
      (arg_emailConfirmationToken args) (arg_name args) None w.
Proof.
  intros Hlen. unfold confirmGuestAccount_resolve.
  destruct (arg_guestTokens args) as [guestTokens|]; [|done].
  rewrite bool_decide_eq_false_2; [done|].
  specialize (Hlen guestTokens eq_refl). lia.
Qed.

(** Without guest tokens only the confirmed profile is in
    [allCollectiveIds], and no statement is sent to find or merge others. *)
Lemma linkGuestProfiles_None mergeCollectives (userCollective : Collective.t)
    (w : World) :
  linkGuestProfiles mergeCollectives userCollective None w
  = (Ok [Collective.id userCollective], w).
Proof. reflexivity. Qed.

(** C1 — the mutation does not link: Ada confirms her account through the
    mutation and passes the guest token of her second profile, collective
    4, which is flagged as guest and is not her confirmed profile.  The
    mutation succeeds, but no merge is started, collective 4 stays live
    with its order, and its guest token is still accepted; only the token
    of profile 1 is deleted.  The library function called with the same
    token merges collective 4 into 1 and deletes both tokens. *)
Theorem confirm_mutation_does_not_link :
  let args := mkConfirmArgs "confirm-ada" (Some ["guest-token-ada-bis"]) None in
  let out := confirmGuestAccount_resolve lowercase_generateSlug
               moving_mergeCollectives args test_world in
  let lib := confirmGuestAccount lowercase_generateSlug moving_mergeCollectives
               "confirm-ada" None (Some ["guest-token-ada-bis"]) test_world in
  (Collective.id <$> (match out.1 with Ok c => Some c | Err _ => None end)) = Some 1
  ∧ (Collective.id ∘ snd <$> token_by_value test_store "guest-token-ada-bis") = Some 4
  ∧ trace out.2 =
      [ Sql User_findOne; Sql User_update; Sql User_getCollective;
        Sql Collective_generateSlug;
        Sql (Collective_update ["name"; "slug"; "data"]);
        Sql GuestToken_destroy ]
  ∧ (Collective.id ∘ snd <$> token_by_value (store out.2) "guest-token-ada-bis")
    = Some 4
  ∧ Orders (store out.2) = Orders test_store
  ∧ (GuestToken.deletedAt <$> GuestTokens (store out.2))
    = [Some 1603200000; None; None]
  ∧ trace lib.2 =
      [ Sql User_findOne; Sql User_update; Sql User_getCollective;
        Sql Collective_generateSlug;
        Sql (Collective_update ["name"; "slug"; "data"]);
        Sql GuestToken_findAll; MergeCollectives 4 1; Sql GuestToken_destroy ]
  ∧ token_by_value (store lib.2) "guest-token-ada-bis" = None
  ∧ collective_by_id (store lib.2) 4 = None
  ∧ Orders (store lib.2) = [ Order.mk 1 1 9; Order.mk 2 1 9 ]
  ∧ (GuestToken.deletedAt <$> GuestTokens (store lib.2))
    = [Some 1603200000; None; Some 1603200000].
Proof. cbv zeta. repeat split; vm_compute; reflexivity. Qed.

(* ===================================================================== *)
(** * Further properties of the guest accounts *)
(* ===================================================================== *)

(* ===================================================================== *)
(** ** Loading a guest token *)
(* ===================================================================== *)

Lemma token_by_value_found (s : Store) (value : string)
    (g : GuestToken.t) (c : Collective.t) :
  token_by_value s value = Some (g, c) →
  GuestToken.value g = value ∧ GuestToken.deletedAt g = None.
Proof.
  unfold token_by_value, tokens_with_collective. intros Hhead.
  apply head_Some_elem_of in Hhead.
  apply list_elem_of_omap in Hhead as (g' & _ & Hg').
  unfold GuestToken.live in Hg'.
  destruct (decide (GuestToken.deletedAt g' = None)) as [Hlive|Hdead].
  2: { by rewrite bool_decide_eq_false_2 in Hg'. }
  rewrite bool_decide_eq_true_2 in Hg' by done.
  destruct (collective_by_id s (GuestToken.CollectiveId g')); [|discriminate].
  destruct (decide (GuestToken.value g' = value)) as [Hv|Hv].
  - rewrite bool_decide_eq_true_2 in Hg' by done. by injection Hg' as <- <-.
  - by rewrite bool_decide_eq_false_2 in Hg'.
Qed.

Lemma collective_by_id_live (s : Store) (id : Z) (c : Collective.t) :
  collective_by_id s id = Some c → Collective.deletedAt c = None.
Proof.
  unfold collective_by_id. intros Hfind.
  apply List.find_some in Hfind as [_ Hc].
  apply andb_true_iff in Hc as [Hc _]. by apply bool_decide_eq_true in Hc.
Qed.

Lemma user_of_collective_found (s : Store) (id : Z) (u : User.t) :
  user_of_collective s id = Some u →
  User.CollectiveId u = id ∧ User.deletedAt u = None ∧ u ∈ Users s.
Proof.
  unfold user_of_collective. intros Hfind.
  apply List.find_some in Hfind as [Hin Hu].
  apply andb_true_iff in Hu as [Hlive Hid].
  apply bool_decide_eq_true in Hlive, Hid.
  split; [done|]. split; [done|]. by apply list_elem_of_In.
Qed.

(** X1 — what [loadGuestToken] returns hangs together: the token has the
    value asked for and is not deleted, the collective is the live one the
    token refers to, and the user is a live user of that collective; all
    three are rows of the store.  Loading only reads: the store is as it
    was, and the trace has gained the two lookups. *)
Theorem loadGuestToken_gives_linked_rows (value : string) (w w1 : World)
    (d : GuestProfileDetails) :
  loadGuestToken value w = (Ok d, w1) →
  GuestToken.value (token d) = value
  ∧ GuestToken.deletedAt (token d) = None
  ∧ token d ∈ GuestTokens (store w)
  ∧ Collective.id (collective d) = GuestToken.CollectiveId (token d)
  ∧ Collective.deletedAt (collective d) = None
  ∧ collective d ∈ Collectives (store w)
  ∧ User.CollectiveId (user d) = Collective.id (collective d)
  ∧ User.deletedAt (user d) = None
  ∧ user d ∈ Users (store w)
  ∧ store w1 = store w
  ∧ trace w1 = trace w ++ [Sql GuestToken_findOne; Sql User_findOne].
Proof.
  intros Hload.
  destruct (loadGuestToken_Ok _ _ _ _ Hload) as (Hg & Hu & ->).
  destruct (token_by_value_found _ _ _ _ Hg) as [Hvalue Hlive].
  destruct (token_by_value_collective _ _ _ _ Hg) as [Hc Hin].
  destruct (user_of_collective_found _ _ _ Hu) as (HuC & HuL & HuIn).
  pose proof (collective_by_id_id _ _ _ Hc) as Hid.
  pose proof (collective_by_id_live _ _ _ Hc) as HcL.
  unfold collective_by_id in Hc. apply List.find_some in Hc as [HcIn _].
  apply list_elem_of_In in HcIn.
  repeat split; try done.
  simpl. by rewrite <- app_assoc.
Qed.

Lemma loadGuestToken_gives_linked_rows_witness :
  GuestToken.value (token bob_profile) = "guest-token-bob"
  ∧ GuestToken.deletedAt (token bob_profile) = None
  ∧ token bob_profile ∈ GuestTokens (store test_world)
  ∧ Collective.id (collective bob_profile)
    = GuestToken.CollectiveId (token bob_profile)
  ∧ Collective.deletedAt (collective bob_profile) = None
  ∧ collective bob_profile ∈ Collectives (store test_world)
  ∧ User.CollectiveId (user bob_profile) = Collective.id (collective bob_profile)
  ∧ User.deletedAt (user bob_profile) = None
  ∧ user bob_profile ∈ Users (store test_world)
  ∧ store (loadGuestToken "guest-token-bob" test_world).2 = store test_world
  ∧ trace (loadGuestToken "guest-token-bob" test_world).2
    = trace test_world ++ [Sql GuestToken_findOne; Sql User_findOne].
Proof.
  apply (loadGuestToken_gives_linked_rows "guest-token-bob" test_world
           (loadGuestToken "guest-token-bob" test_world).2 bob_profile).
  vm_compute. reflexivity.
Defined.

Lemma omap_all_None {A B} (f : A → option B) (l : list A) :
  Forall (λ a, f a = None) l → omap f l = [].
Proof.
  induction 1 as [|a l Ha _ IH]; [done|]. csimpl. by rewrite Ha.
Qed.

Lemma token_by_value_None (s : Store) (value : string) :
  Forall (λ g, GuestToken.value g = value → GuestToken.deletedAt g ≠ None)
    (GuestTokens s) →
  token_by_value s value = None.
Proof.
  intros Hdead. unfold token_by_value, tokens_with_collective.
  rewrite omap_all_None; [done|].
  eapply Forall_impl; [exact Hdead|]. intros g Hg. simpl in *.
  unfold GuestToken.live.
  destruct (decide (GuestToken.deletedAt g = None)) as [Hlive|Hgone].
  - rewrite bool_decide_eq_true_2 by done.
    destruct (collective_by_id s (GuestToken.CollectiveId g)); [|done].
    rewrite bool_decide_eq_false_2; [done|]. intros Hv. by apply (Hg Hv).
  - by rewrite bool_decide_eq_false_2.
Qed.

(** X2 — a value that no live guest token has is refused: when every token
    row with that value is soft-deleted (or there is none),
    [loadGuestToken] rejects with the invalid-token message after the one
    lookup of the token, without reading the users and without touching
    the store. *)
Theorem loadGuestToken_refuses_deleted (value : string) (w : World) :
  (∀ g, g ∈ GuestTokens (store w) → GuestToken.value g = value →
        GuestToken.deletedAt g ≠ None) →
  loadGuestToken value w
  = (Err (PlainError INVALID_TOKEN_MSG), emit (Sql GuestToken_findOne) w).
Proof.
  intros Hdead. rewrite loadGuestToken_run.
  rewrite token_by_value_None; [done|].
  apply Forall_forall. intros g Hin. by apply Hdead.
Qed.

Lemma loadGuestToken_refuses_deleted_witness :
  loadGuestToken "guest-token-carol"
    (with_store
       {| Collectives := Collectives test_store; Users := Users test_store;
          GuestTokens := [GuestToken.mk 9 "guest-token-carol" 3 (Some 1600000000)];
          Orders := []; next_Collective := 5; next_User := 4;
          next_GuestToken := 10 |} test_world)
  = (Err (PlainError INVALID_TOKEN_MSG),
     emit (Sql GuestToken_findOne)
       (with_store
          {| Collectives := Collectives test_store; Users := Users test_store;
             GuestTokens := [GuestToken.mk 9 "guest-token-carol" 3 (Some 1600000000)];
             Orders := []; next_Collective := 5; next_User := 4;
             next_GuestToken := 10 |} test_world)).
Proof.
  apply loadGuestToken_refuses_deleted.
  intros g Hin _. simpl in Hin.
  apply list_elem_of_singleton in Hin as ->. simpl. discriminate.
Defined.

(* ===================================================================== *)
(** ** Creating a guest profile: edges, round trip, frame *)
(* ===================================================================== *)

(** X3 — without a usable token and without an email (null, undefined or
    the empty string) the request is rejected with "An email is required to
    create a guest profile" before anything is sent to the store: the
    world, trace included, is unchanged. *)
Theorem guest_profile_needs_email (rnd : Random)
    (email no_token name : option string) (location : option Location.t)
    (w : World) :
  Js.truthy no_token = false →
  Js.truthy email = false →
  getOrCreateGuestProfile rnd email no_token name location w
  = (Err (PlainError "An email is required to create a guest profile"), w).
Proof.
  intros Htoken Hemail. unfold getOrCreateGuestProfile, createGuestProfile.
  by rewrite Htoken, Hemail.
Qed.

Lemma guest_profile_needs_email_witness :
  getOrCreateGuestProfile test_random (Some "") None (Some "Zappa") None test_world
  = (Err (PlainError "An email is required to create a guest profile"),
     test_world).
Proof.
  apply guest_profile_needs_email; reflexivity.
Defined.

(** X4 — a request without a token for an email that no user has creates,
    in one committed transaction, a collective of type USER flagged as
    guest, named by the supplied name or "Guest", with slug "guest-" and
    the uuid head; an unconfirmed user with exactly that email and a
    confirmation token; and a guest token for the collective.  The
    collective's creator is the new user and the user's collective is the
    new collective. *)
Theorem fresh_email_creates_profile (rnd : Random) (email : string)
    (no_token name : option string) (location : option Location.t) (w : World) :
  ids_from_sequences (store w) →
  Js.truthy no_token = false →
  email ≠ "" →
  user_by_email (store w) email = None →
  let s := store w in
  let u := User.mk (next_User s) email None (next_Collective s)
             (Some (emailConfirmationToken rnd)) None in
  let c := Collective.mk (next_Collective s) "USER" ("guest-" +:+ uuid_head rnd)
             (Some (Js.nullish name "Guest")) {[ "isGuest" := Js.JBool true ]}
             (location ≫= Location.address) (location ≫= Location.country)
             (Some (next_User s)) None in
  let g := GuestToken.mk (next_GuestToken s) (guestToken rnd)
             (next_Collective s) None in
  let out := getOrCreateGuestProfile rnd (Some email) no_token name location w in
  out.1 = Ok (mkDetails u c g)
  ∧ rows (store out.2)
    = (Collectives s ++ [c], Users s ++ [u], GuestTokens s ++ [g], Orders s)
  ∧ trace out.2
    = trace w ++ [ Sql BEGIN; Sql Collective_create; Sql User_findOne;
                   Sql User_create; Sql (Collective_update ["CreatedByUserId"]);
                   Sql GuestToken_create; Sql COMMIT ].
Proof.
  intros Hids Htoken Hemail Hfresh. cbv zeta.
  unfold getOrCreateGuestProfile. rewrite Htoken.
  pose proof (createGuestProfile_cases rnd (Some email) name location w Hids) as H.
  pose proof (createGuestProfile_trace rnd email name location w Hemail) as Ht.
  cbv zeta in H, Ht. rewrite truthy_Some in H by done. simpl in H.
  rewrite Hfresh in H, Ht. destruct H as [H1 H2], Ht as (_ & _ & Ht).
  by repeat split.
Qed.

Lemma fresh_email_creates_profile_witness :
  let out := getOrCreateGuestProfile test_random (Some "dan@example.org") None
               (Some "Dan") (Some (Location.mk (Some "BE") None)) test_world in
  out.1 = Ok (mkDetails
                (User.mk 4 "dan@example.org" None 5 (Some "c0ffee") None)
                (Collective.mk 5 "USER" "guest-0badf00d" (Some "Dan") guest_data
                   None (Some "BE") (Some 4) None)
                (GuestToken.mk 4 "decade" 5 None))
  ∧ rows (store out.2)
    = (Collectives test_store
         ++ [Collective.mk 5 "USER" "guest-0badf00d" (Some "Dan") guest_data
               None (Some "BE") (Some 4) None],
       Users test_store
         ++ [User.mk 4 "dan@example.org" None 5 (Some "c0ffee") None],
       GuestTokens test_store ++ [GuestToken.mk 4 "decade" 5 None],
       Orders test_store)
  ∧ trace out.2
    = trace test_world
      ++ [ Sql BEGIN; Sql Collective_create; Sql User_findOne;
           Sql User_create; Sql (Collective_update ["CreatedByUserId"]);
           Sql GuestToken_create; Sql COMMIT ].
Proof.
  refine (fresh_email_creates_profile test_random "dan@example.org" None
            (Some "Dan") (Some (Location.mk (Some "BE") None)) test_world
            test_store_ids _ _ _).
  - reflexivity.
  - discriminate.
  - reflexivity.
Defined.

(** The guest token that a creation has just added is found by its value,
    with the collective that was created, when no older token has that
    value. *)
Lemma token_by_value_of_created (s s' : Store) (c : Collective.t)
    (g : GuestToken.t) :
  Forall (λ r, Collective.id r < Collective.id c) (Collectives s) →
  Forall (λ r, GuestToken.value r ≠ GuestToken.value g) (GuestTokens s) →
  Collective.deletedAt c = None →
  GuestToken.deletedAt g = None →
  GuestToken.CollectiveId g = Collective.id c →
  Collectives s' = Collectives s ++ [c] →
  GuestTokens s' = GuestTokens s ++ [g] →
  token_by_value s' (GuestToken.value g) = Some (g, c).
Proof.
  intros Hids Hvalues Hc Hg Hgc HC HG.
  unfold token_by_value, tokens_with_collective. rewrite HG, omap_app.
  rewrite omap_all_None.
  2: { eapply Forall_impl; [exact Hvalues|]. intros r Hr. simpl in *.
       destruct (GuestToken.live r); [|done].
       destruct (collective_by_id s' (GuestToken.CollectiveId r)); [|done].
       by rewrite bool_decide_eq_false_2. }
  csimpl. unfold GuestToken.live. rewrite bool_decide_eq_true_2 by done.
  assert (collective_by_id s' (GuestToken.CollectiveId g) = Some c) as ->.
  { unfold collective_by_id. rewrite HC, Hgc.
    rewrite find_app_after.
    - simpl. unfold Collective.live.
      by rewrite !bool_decide_eq_true_2.
    - eapply Forall_impl; [exact Hids|]. intros r Hr. simpl in *.
      rewrite (bool_decide_eq_false_2 (Collective.id r = Collective.id c)) by lia.
      apply andb_false_r. }
  by rewrite bool_decide_eq_true_2.
Qed.

(** X5 — round trip: the guest token returned for a profile created for a
    new email is accepted right away, and loading it gives back exactly
    the user, the collective and the token that were created.  This needs
    the token value drawn to be new: no row of the store has it. *)
Theorem created_token_loads_profile (rnd : Random) (email : string)
    (no_token name : option string) (location : option Location.t)
    (w w' : World) (d : GuestProfileDetails) :
  ids_from_sequences (store w) →
  Js.truthy no_token = false →
  email ≠ "" →
  user_by_email (store w) email = None →
  (∀ g, g ∈ GuestTokens (store w) → GuestToken.value g ≠ guestToken rnd) →
  getOrCreateGuestProfile rnd (Some email) no_token name location w = (Ok d, w') →
  (loadGuestToken (GuestToken.value (token d)) w').1 = Ok d.
Proof.
  intros Hids Htoken Hemail Hfresh Hnew.
  unfold getOrCreateGuestProfile. rewrite Htoken.
  pose proof (createGuestProfile_cases rnd (Some email) name location w Hids) as H.
  cbv zeta in H. rewrite truthy_Some in H by done. simpl in H.
  rewrite Hfresh in H. intros Hrun. rewrite Hrun in H. simpl in H.
  destruct H as [[= ->] Hrows]. unfold rows in Hrows.
  injection Hrows as HC HU HG _. simpl.
  rewrite loadGuestToken_run.
  erewrite (token_by_value_of_created (store w) (store w')
              (with_creator _ (created_collective rnd name location (store w)))
              (GuestToken.mk _ (guestToken rnd) _ None)); try done.
  - cbv zeta. unfold user_of_collective. rewrite HU. simpl.
    rewrite (find_app_after _ _ _ (no_user_of_new_collective _ Hids)). simpl.
    unfold User.live. simpl. by rewrite !bool_decide_eq_true_2.
  - by destruct Hids as (HidC & _ & _).
  - apply Forall_forall. exact Hnew.
Qed.

Lemma created_token_loads_profile_witness :
  (loadGuestToken "decade"
     (getOrCreateGuestProfile test_random (Some "dan@example.org") None
        (Some "Dan") None test_world).2).1
  = Ok (mkDetails
          (User.mk 4 "dan@example.org" None 5 (Some "c0ffee") None)
          (Collective.mk 5 "USER" "guest-0badf00d" (Some "Dan") guest_data
             None None (Some 4) None)
          (GuestToken.mk 4 "decade" 5 None)).
Proof.
  refine (created_token_loads_profile test_random "dan@example.org" None
            (Some "Dan") None test_world
            (getOrCreateGuestProfile test_random (Some "dan@example.org") None
               (Some "Dan") None test_world).2
            (mkDetails
               (User.mk 4 "dan@example.org" None 5 (Some "c0ffee") None)
               (Collective.mk 5 "USER" "guest-0badf00d" (Some "Dan") guest_data
                  None None (Some 4) None)
               (GuestToken.mk 4 "decade" 5 None))
            test_store_ids _ _ _ _ _).
  - reflexivity.
  - discriminate.
  - reflexivity.
  - intros g Hin. simpl in Hin.
    repeat (apply elem_of_cons in Hin as [-> | Hin]; [discriminate|]).
    by apply elem_of_nil in Hin.
  - vm_compute. reflexivity.
Defined.

(** X6 — the guest token issued for a further profile of an unconfirmed
    user cannot be used to come back: the user stays attached to the first
    collective, so [loadGuestToken] finds no user for the new collective
    and rejects the new token as invalid. *)
Theorem second_profile_token_is_refused (rnd : Random) (email : string)
    (no_token name : option string) (location : option Location.t)
    (w w' : World) (u : User.t) (d : GuestProfileDetails) :
  ids_from_sequences (store w) →
  Js.truthy no_token = false →
  email ≠ "" →
  user_by_email (store w) email = Some u →
  User.confirmedAt u = None →
  (∀ g, g ∈ GuestTokens (store w) → GuestToken.value g ≠ guestToken rnd) →
  getOrCreateGuestProfile rnd (Some email) no_token name location w = (Ok d, w') →
  user d = u
  ∧ (loadGuestToken (GuestToken.value (token d)) w').1
    = Err (PlainError INVALID_TOKEN_MSG).
Proof.
  intros Hids Htoken Hemail Hu Hunconfirmed Hnew.
  unfold getOrCreateGuestProfile. rewrite Htoken.
  pose proof (createGuestProfile_cases rnd (Some email) name location w Hids) as H.
  cbv zeta in H. rewrite truthy_Some in H by done. simpl in H.
  rewrite Hu, (unconfirmed_not_confirmed u) in H by done.
  intros Hrun. rewrite Hrun in H. simpl in H.
  destruct H as [[= ->] Hrows]. unfold rows in Hrows.
  injection Hrows as HC HU HG _. simpl. split; [done|].
  rewrite loadGuestToken_run.
  erewrite (token_by_value_of_created (store w) (store w')
              (with_creator _ (created_collective rnd name location (store w)))
              (GuestToken.mk _ (guestToken rnd) _ None)); try done.
  - cbv zeta. unfold user_of_collective. rewrite HU. simpl.
    by rewrite (find_none_of_Forall _ _ (no_user_of_new_collective _ Hids)).
  - by destruct Hids as (HidC & _ & _).
  - apply Forall_forall. exact Hnew.
Qed.

Lemma second_profile_token_is_refused_witness :
  user (mkDetails
          (User.mk 2 "bob@example.org" None 2 (Some "confirm-bob") None)
          (Collective.mk 5 "USER" "guest-0badf00d" (Some "Guest") guest_data
             None None (Some 2) None)
          (GuestToken.mk 4 "decade" 5 None))
  = User.mk 2 "bob@example.org" None 2 (Some "confirm-bob") None
  ∧ (loadGuestToken "decade"
       (getOrCreateGuestProfile test_random (Some "bob@example.org") None
          None None test_world).2).1
    = Err (PlainError INVALID_TOKEN_MSG).
Proof.
  refine (second_profile_token_is_refused test_random "bob@example.org" None
            None None test_world
            (getOrCreateGuestProfile test_random (Some "bob@example.org") None
               None None test_world).2
            (User.mk 2 "bob@example.org" None 2 (Some "confirm-bob") None)
            (mkDetails
               (User.mk 2 "bob@example.org" None 2 (Some "confirm-bob") None)
               (Collective.mk 5 "USER" "guest-0badf00d" (Some "Guest") guest_data
                  None None (Some 2) None)
               (GuestToken.mk 4 "decade" 5 None))
            test_store_ids _ _ _ _ _ _).
  - reflexivity.
  - discriminate.
  - reflexivity.
  - reflexivity.
  - intros g Hin. simpl in Hin.
    repeat (apply elem_of_cons in Hin as [-> | Hin]; [discriminate|]).
    by apply elem_of_nil in Hin.
  - vm_compute. reflexivity.
Defined.

Lemma createGuestProfile_Err_rows (rnd : Random) (email name : option string)
    (location : option Location.t) (w w' : World) (e : Error) :
  createGuestProfile rnd email name location w = (Err e, w') →
  rows (store w') = rows (store w).
Proof.
  unfold createGuestProfile.
  destruct (Js.truthy email); simpl.
  - unfold transaction.
    destruct (createGuestProfile_body _ _ _ _ _) as [[d|e'] w2]; [discriminate|].
    by intros [= <- <-].
  - by intros [= <- <-].
Qed.

Lemma updateCollective_Ok (c : Collective.t) (name : option string)
    (location : option Location.t) (w : World) :
  ∃ c' w', updateCollective c name location w = (Ok c', w').
Proof.
  unfold updateCollective. destruct (Collective.isEmpty _); by eexists _, _.
Qed.

(** X7 — a request that fails leaves no row behind, whatever its path: an
    unknown or unusable token, a confirmed user behind the token, a missing
    email, a confirmed user for the email.  After any rejection of
    [getOrCreateGuestProfile] the four tables are what they were. *)
Theorem failed_request_leaves_rows (rnd : Random)
    (email supplied_token name : option string) (location : option Location.t)
    (w w' : World) (e : Error) :
  getOrCreateGuestProfile rnd email supplied_token name location w = (Err e, w') →
  rows (store w') = rows (store w).
Proof.
  unfold getOrCreateGuestProfile.
  destruct (Js.truthy supplied_token).
  2: { apply createGuestProfile_Err_rows. }
  rewrite getGuestProfileFromToken_run.
  destruct (loadGuestToken (default "" supplied_token) w) as [[d|e'] w1] eqn:Hload.
  - destruct (loadGuestToken_Ok _ _ _ _ Hload) as (_ & _ & ->).
    destruct (User.confirmed (user d)); [by intros [= <- <-]|].
    destruct (Js.truthy email && _).
    + intros Hcreate. by rewrite (createGuestProfile_Err_rows _ _ _ _ _ _ _ Hcreate).
    + unfold bind.
      destruct (updateCollective_Ok (collective d) name location
                  (emit (Sql User_findOne) (emit (Sql GuestToken_findOne) w)))
        as (c' & w2 & ->).
      discriminate.
  - apply loadGuestToken_Err in Hload as [_ Hstore].
    intros [= <- <-]. by rewrite Hstore.
Qed.

Lemma failed_request_leaves_rows_witness :
  rows (store (getOrCreateGuestProfile test_random (Some "carol@example.org")
                 (Some "guest-token-bob") (Some "Carol") None test_world).2)
  = rows (store test_world).
Proof.
  refine (failed_request_leaves_rows test_random (Some "carol@example.org")
            (Some "guest-token-bob") (Some "Carol") None test_world _
            (PlainError ALREADY_EXISTS_MSG) _).
  vm_compute. reflexivity.
Defined.

Lemma update_keeps_ids (s : Store) (c : Collective.t) (ch : Collective.changes) :
  ids_from_sequences s →
  ids_from_sequences
    {| Collectives := (λ r, if bool_decide (Collective.id r = Collective.id c)
                            then Collective.apply ch r else r) <$> Collectives s;
       Users := Users s; GuestTokens := GuestTokens s; Orders := Orders s;
       next_Collective := next_Collective s; next_User := next_User s;
       next_GuestToken := next_GuestToken s |}.
Proof.
  intros (HC & HU & HG). unfold ids_from_sequences. simpl.
  split; [|done]. apply Forall_fmap.
  eapply Forall_impl; [exact HC|]. intros r Hr. simpl in *.
  by destruct (bool_decide (Collective.id r = Collective.id c)).
Qed.

(** X8 — every id in a table stays below the next value of its sequence
    through any request for a guest profile, accepted or rejected: rows
    that are added take the next ids and move the sequences, a backfill
    keeps the ids, and a rollback does not give an id back. *)
Theorem getOrCreateGuestProfile_keeps_ids (rnd : Random)
    (email supplied_token name : option string) (location : option Location.t)
    (w : World) :
  ids_from_sequences (store w) →
  ids_from_sequences
    (store (getOrCreateGuestProfile rnd email supplied_token name location w).2).
Proof.
  intros Hids. unfold getOrCreateGuestProfile.
  destruct (Js.truthy supplied_token).
  2: { by apply createGuestProfile_keeps_ids. }
  rewrite getGuestProfileFromToken_run.
  destruct (loadGuestToken (default "" supplied_token) w) as [[d|e'] w1] eqn:Hload.
  - destruct (loadGuestToken_Ok _ _ _ _ Hload) as (_ & _ & ->).
    destruct (User.confirmed (user d)); [done|].
    destruct (Js.truthy email && _).
    + by apply createGuestProfile_keeps_ids.
    + unfold bind, updateCollective.
      destruct (Collective.isEmpty _); [done|].
      unfold Collective_update_row. run. by apply update_keeps_ids.
  - apply loadGuestToken_Err in Hload as [_ Hstore]. simpl. by rewrite Hstore.
Qed.

Lemma getOrCreateGuestProfile_keeps_ids_witness :
  ids_from_sequences
    (store (getOrCreateGuestProfile test_random (Some "carol@example.org") None
              None None test_world).2).
Proof.
  apply (getOrCreateGuestProfile_keeps_ids test_random (Some "carol@example.org")
           None None None test_world).
  exact test_store_ids.
Defined.

(* ===================================================================== *)
(** ** Coming back with a token *)
(* ===================================================================== *)

(** A request that reuses the profile of its token, run. *)
Lemma reuse_run (rnd : Random) (tokenValue : string)
    (email name : option string) (location : option Location.t)
    (w w1 : World) (d : GuestProfileDetails) :
  tokenValue ≠ "" →
  loadGuestToken tokenValue w = (Ok d, w1) →
  User.confirmedAt (user d) = None →
  (∀ e, email = Some e → e = "" ∨ User.email (user d) = Js.trim e) →
  let fields := fieldsToUpdate (collective d) name location in
  getOrCreateGuestProfile rnd email (Some tokenValue) name location w
  = (Ok (mkDetails (user d) (Collective.apply fields (collective d)) (token d)),
     if Collective.isEmpty fields then w1
     else (Collective_update_row (collective d) fields w1).2).
Proof.
  intros Htok Hload Hunconfirmed Hemail fields.
  erewrite getOrCreateGuestProfile_with_token by done.
  assert (Js.truthy email
          && bool_decide (User.email (user d) ≠ Js.trim (default "" email))
          = false) as ->.
  { destruct email as [e|]; [|done]. destruct (Hemail e eq_refl) as [-> | He].
    - done.
    - simpl. rewrite bool_decide_eq_false_2; [apply andb_false_r|].
      intros Hne. by apply Hne. }
  unfold bind, updateCollective. fold fields.
  destruct (Collective.isEmpty fields) eqn:Hempty.
  - unfold ret. by rewrite apply_isEmpty.
  - reflexivity.
Qed.

Lemma collective_by_id_after_update (s : Store) (c : Collective.t)
    (ch : Collective.changes) (id : Z) :
  List.find (λ r, Collective.live r && bool_decide (Collective.id r = id))
    ((λ r, if bool_decide (Collective.id r = Collective.id c)
           then Collective.apply ch r else r) <$> Collectives s)
  = (λ r, if bool_decide (Collective.id r = Collective.id c)
          then Collective.apply ch r else r) <$> collective_by_id s id.
Proof.
  unfold collective_by_id. apply find_fmap_stable.
  intros r. by destruct (bool_decide (Collective.id r = Collective.id c)).
Qed.

Lemma token_by_value_after_update (w : World) (c : Collective.t)
    (ch : Collective.changes) (value : string) (g : GuestToken.t) :
  token_by_value (store w) value = Some (g, c) →
  token_by_value (store (Collective_update_row c ch w).2) value
  = Some (g, Collective.apply ch c).
Proof.
  unfold token_by_value, tokens_with_collective, Collective_update_row.
  run. unfold collective_by_id at 2. simpl.
  induction (GuestTokens (store w)) as [|r l IH]; [done|]. csimpl.
  rewrite collective_by_id_after_update.
  destruct (GuestToken.live r); [|exact IH].
  destruct (collective_by_id (store w) (GuestToken.CollectiveId r)) as [c'|];
    [|exact IH].
  simpl. destruct (bool_decide (GuestToken.value r = value)); [|exact IH].
  simpl. intros [= -> ->]. by rewrite bool_decide_eq_true_2.
Qed.

Lemma column_if_new_backfilled (column : string) (supplied stored : option string) :
  column_if_new column supplied (backfilled supplied stored) = [].
Proof.
  unfold column_if_new, backfilled.
  destruct (Js.truthy supplied); [|done].
  rewrite bool_decide_eq_false_2; [done|]. intros Hne. by apply Hne.
Qed.

Lemma fieldsToUpdate_settled (c : Collective.t) (name : option string)
    (location : option Location.t) :
  Collective.isEmpty
    (fieldsToUpdate (Collective.apply (fieldsToUpdate c name location) c)
       name location) = true.
Proof.
  rewrite isEmpty_columns, columns_fieldsToUpdate, apply_fieldsToUpdate. simpl.
  rewrite !column_if_new_backfilled. by apply bool_decide_eq_true_2.
Qed.

(** X9 — a repeated request changes nothing: after a request that reused
    the profile of its token, the same request again returns the same
    profile, sends no update (the two lookups are all it adds to the
    trace), and leaves the store as the first request left it. *)
Theorem repeated_request_is_idle (rnd rnd' : Random) (tokenValue : string)
    (email name : option string) (location : option Location.t)
    (w w1 : World) (d : GuestProfileDetails) :
  tokenValue ≠ "" →
  loadGuestToken tokenValue w = (Ok d, w1) →
  User.confirmedAt (user d) = None →
  (∀ e, email = Some e → e = "" ∨ User.email (user d) = Js.trim e) →
  let first := getOrCreateGuestProfile rnd email (Some tokenValue) name
                 location w in
  let again := getOrCreateGuestProfile rnd' email (Some tokenValue) name
                 location first.2 in
  again.1 = first.1
  ∧ store again.2 = store first.2
  ∧ trace again.2 = trace first.2 ++ [Sql GuestToken_findOne; Sql User_findOne].
Proof.
  intros Htok Hload Hunconfirmed Hemail first again.
  pose proof (reuse_run rnd tokenValue email name location w w1 d
                Htok Hload Hunconfirmed Hemail) as Hfirst.
  cbv zeta in Hfirst. fold first in Hfirst.
  destruct (loadGuestToken_Ok _ _ _ _ Hload) as (Hg & Hu & Hw1).
  set (fields := fieldsToUpdate (collective d) name location) in *.
  set (updated := Collective.apply fields (collective d)) in *.
  assert (loadGuestToken tokenValue first.2
          = (Ok (mkDetails (user d) updated (token d)),
             emit (Sql User_findOne) (emit (Sql GuestToken_findOne) first.2)))
    as Hload2.
  { rewrite loadGuestToken_run, Hfirst. cbn [snd].
    destruct (Collective.isEmpty fields) eqn:Hempty.
    - subst w1. cbn [store emit]. rewrite Hg. cbv zeta.
      unfold updated. rewrite apply_isEmpty by done. by rewrite Hu.
    - rewrite (token_by_value_after_update w1 _ fields _ (token d))
        by (subst w1; exact Hg).
      cbv zeta. subst w1. unfold Collective_update_row. run.
      unfold user_of_collective in *. simpl. by rewrite Hu. }
  pose proof (reuse_run rnd' tokenValue email name location first.2 _
                (mkDetails (user d) updated (token d)) Htok Hload2
                Hunconfirmed Hemail) as Hagain.
  cbv zeta in Hagain. fold again in Hagain.
  cbn [collective user token] in Hagain.
  subst updated fields.
  rewrite fieldsToUpdate_settled in Hagain.
  rewrite apply_isEmpty in Hagain by apply fieldsToUpdate_settled.
  rewrite Hagain, Hfirst. simpl. split; [done|]. split; [done|].
  by rewrite <- app_assoc.
Qed.

Lemma repeated_request_is_idle_witness :
  let first := getOrCreateGuestProfile test_random (Some "bob@example.org")
                 (Some "guest-token-bob") (Some "Bob")
                 (Some (Location.mk (Some "BE") None)) test_world in
  let again := getOrCreateGuestProfile test_random (Some "bob@example.org")
                 (Some "guest-token-bob") (Some "Bob")
                 (Some (Location.mk (Some "BE") None)) first.2 in
  again.1 = first.1
  ∧ store again.2 = store first.2
  ∧ trace again.2 = trace first.2 ++ [Sql GuestToken_findOne; Sql User_findOne].
Proof.
  refine (repeated_request_is_idle test_random test_random "guest-token-bob"
            (Some "bob@example.org") (Some "Bob")
            (Some (Location.mk (Some "BE") None)) test_world
            (loadGuestToken "guest-token-bob" test_world).2 bob_profile
            _ _ _ _).
  - discriminate.
  - vm_compute. reflexivity.
  - reflexivity.
  - intros e [= <-]. right. reflexivity.
Defined.

(* ===================================================================== *)
(** ** Confirmation: rejections, effects, replay *)
(* ===================================================================== *)

Lemma user_by_confirmation_token_None (s : Store) (tok : string) :
  (∀ u, u ∈ Users s → User.deletedAt u = None →
        User.emailConfirmationToken u ≠ Some tok) →
  user_by_confirmation_token s tok = None.
Proof.
  intros Hnone. apply find_none_of_Forall, Forall_forall. intros u Hin.
  unfold User.live.
  destruct (decide (User.deletedAt u = None)) as [Hlive|Hgone].
  - rewrite (bool_decide_eq_false_2 (User.emailConfirmationToken u = Some tok)).
    + apply andb_false_r.
    + by apply Hnone.
  - by rewrite bool_decide_eq_false_2.
Qed.

(** X10 — a confirmation token that no live user holds is rejected with
    [InvalidToken] "Invalid email confirmation token" after the one lookup
    of the user; nothing is written, whatever name and guest tokens come
    with it. *)
Theorem confirm_rejects_unknown_token generateSlug mergeCollectives
    (tok : string) (name : option string)
    (guestTokensValues : option (list string)) (w : World) :
  (∀ u, u ∈ Users (store w) → User.deletedAt u = None →
        User.emailConfirmationToken u ≠ Some tok) →
  confirmGuestAccount generateSlug mergeCollectives tok name guestTokensValues w
  = (Err (InvalidToken "Invalid email confirmation token"),
     emit (Sql User_findOne) w).
Proof.
  intros Hnone. apply user_by_confirmation_token_None in Hnone.
  unfold user_by_confirmation_token in Hnone.
  unfold confirmGuestAccount, User_findOne_where. run. by rewrite Hnone.
Qed.

Lemma confirm_rejects_unknown_token_witness :
  confirmGuestAccount lowercase_generateSlug moving_mergeCollectives
    "InvalidToken" None (Some ["guest-token-bob"]) test_world
  = (Err (InvalidToken "Invalid email confirmation token"),
     emit (Sql User_findOne) test_world).
Proof.
  apply confirm_rejects_unknown_token.
  intros u Hin _. simpl in Hin.
  repeat (apply elem_of_cons in Hin as [-> | Hin]; [discriminate|]).
  by apply elem_of_nil in Hin.
Defined.

(** X11 — the confirmation token of a user that is already confirmed is
    rejected with [BadRequest] "This account has already been verified"
    (code ACCOUNT_ALREADY_VERIFIED) after the one lookup; nothing is
    written and no profile is touched. *)
Theorem confirm_rejects_verified_user generateSlug mergeCollectives
    (tok : string) (name : option string)
    (guestTokensValues : option (list string)) (w : World) (u : User.t) :
  user_by_confirmation_token (store w) tok = Some u →
  User.confirmedAt u ≠ None →
  confirmGuestAccount generateSlug mergeCollectives tok name guestTokensValues w
  = (Err (BadRequest "This account has already been verified"
            (Some "ACCOUNT_ALREADY_VERIFIED")),
     emit (Sql User_findOne) w).
Proof.
  unfold user_by_confirmation_token. intros Hu Hconfirmed.
  unfold confirmGuestAccount, User_findOne_where. run. rewrite Hu. simpl.
  unfold User.confirmed. by rewrite bool_decide_eq_true_2.
Qed.

Lemma confirm_rejects_verified_user_witness :
  confirmGuestAccount lowercase_generateSlug moving_mergeCollectives
    "change-email-carol" (Some "Carol") None
    (with_store
       {| Collectives := Collectives test_store;
          Users := [User.mk 3 "carol@example.org" (Some 1600000000) 3
                      (Some "change-email-carol") None];
          GuestTokens := []; Orders := []; next_Collective := 5;
          next_User := 4; next_GuestToken := 4 |} test_world)
  = (Err (BadRequest "This account has already been verified"
            (Some "ACCOUNT_ALREADY_VERIFIED")),
     emit (Sql User_findOne)
       (with_store
          {| Collectives := Collectives test_store;
             Users := [User.mk 3 "carol@example.org" (Some 1600000000) 3
                         (Some "change-email-carol") None];
             GuestTokens := []; Orders := []; next_Collective := 5;
             next_User := 4; next_GuestToken := 4 |} test_world)).
Proof.
  apply (confirm_rejects_verified_user _ _ _ _ _ _
           (User.mk 3 "carol@example.org" (Some 1600000000) 3
              (Some "change-email-carol") None)).
  - reflexivity.
  - discriminate.
Defined.

(** A confirmation that links nothing, run: the statements it sends and
    the tables it leaves. *)
Lemma confirm_plain_run generateSlug mergeCollectives (tok : string)
    (name : option string) (guestTokensValues : option (list string))
    (w : World) (u : User.t) (prior : Collective.t) :
  default [] guestTokensValues = [] →
  user_by_confirmation_token (store w) tok = Some u →
  User.confirmedAt u = None →
  collective_by_id (store w) (User.CollectiveId u) = Some prior →
  ∃ account w',
    confirmGuestAccount generateSlug mergeCollectives tok name
      guestTokensValues w = (Ok account, w')
    ∧ Collective.id account = Collective.id prior
    ∧ account
      = Collective.apply (confirmed_changes name prior (Collective.slug account))
          prior
    ∧ Users (store w') = users_confirmed u (clock w) (Users (store w))
    ∧ GuestTokens (store w')
      = destroy_token [Collective.id prior] (clock w) <$> GuestTokens (store w)
    ∧ Orders (store w') = Orders (store w)
    ∧ Collectives (store w')
      = (λ r, if bool_decide (Collective.id r = Collective.id prior)
              then Collective.apply (confirmed_changes name prior
                                       (Collective.slug account)) r
              else r) <$> Collectives (store w)
    ∧ (next_Collective (store w'), next_User (store w'), next_GuestToken (store w'))
      = (next_Collective (store w), next_User (store w), next_GuestToken (store w))
    ∧ clock w' = clock w
    ∧ counters w' = counters w
    ∧ trace w'
      = trace w ++ [ Sql User_findOne; Sql User_update; Sql User_getCollective;
                     Sql Collective_generateSlug;
                     Sql (Collective_update ["name"; "slug"; "data"]);
                     Sql GuestToken_destroy ].
Proof.
  unfold user_by_confirmation_token. intros Hnone Hu Hunconfirmed Hprior.
  unfold confirmGuestAccount, User_findOne_where, User_update_confirmed,
    User_getCollective_of, Collective_generateSlug_of, Collective_update_row,
    GuestToken_destroy_of.
  run. rewrite Hu. simpl.
  rewrite unconfirmed_not_confirmed by done.
  unfold collective_by_id in *. simpl. rewrite Hprior. simpl.
  assert (∀ w0, linkGuestProfiles mergeCollectives
                  (Collective.apply
                     (confirmed_changes name prior
                        (generateSlug [newName_of name prior]
                           {| Collectives := Collectives (store w);
                              Users := users_confirmed u (clock w) (Users (store w));
                              GuestTokens := GuestTokens (store w);
                              Orders := Orders (store w);
                              next_Collective := next_Collective (store w);
                              next_User := next_User (store w);
                              next_GuestToken := next_GuestToken (store w) |}))
                     prior)
                  guestTokensValues w0
                = (Ok [Collective.id prior], w0)) as Hlink.
  { intros w0. unfold linkGuestProfiles.
    destruct guestTokensValues as [values|]; [|done].
    simpl in Hnone. subst values. done. }
  unfold confirmed_changes, users_confirmed in *. rewrite Hlink. simpl.
  eexists _, _. split; [reflexivity|]. simpl.
  repeat split; try done. by rewrite <- !app_assoc.
Qed.

Lemma users_confirmed_token (u : User.t) (at_ : Z) (users : list User.t)
    (tok : string) :
  (∀ r, r ∈ users → User.emailConfirmationToken r = Some tok →
        User.id r = User.id u) →
  ∀ r, r ∈ users_confirmed u at_ users →
       User.emailConfirmationToken r ≠ Some tok.
Proof.
  intros Honly r Hin. unfold users_confirmed in Hin.
  apply list_elem_of_fmap in Hin as (r0 & -> & Hin0).
  destruct (decide (User.id r0 = User.id u)) as [Hid|Hid].
  - by rewrite bool_decide_eq_true_2.
  - rewrite bool_decide_eq_false_2 by done. intros Htok.
    by apply Hid, Honly.
Qed.

(** X12 — a confirmation token works once.  After a confirmation that went
    through, the token is gone from the user: presenting it again, with any
    name and any guest tokens, is rejected with [InvalidToken] and writes
    nothing.  (The token must not be held by another user as well.) *)
Theorem confirmation_token_works_once generateSlug mergeCollectives
    (tok : string) (name name' : option string)
    (guestTokensValues guestTokensValues' : option (list string))
    (w : World) (u : User.t) (prior : Collective.t) :
  default [] guestTokensValues = [] →
  user_by_confirmation_token (store w) tok = Some u →
  User.confirmedAt u = None →
  collective_by_id (store w) (User.CollectiveId u) = Some prior →
  (∀ r, r ∈ Users (store w) → User.emailConfirmationToken r = Some tok →
        User.id r = User.id u) →
  let first := confirmGuestAccount generateSlug mergeCollectives tok name
                 guestTokensValues w in
  (∃ account, first.1 = Ok account)
  ∧ confirmGuestAccount generateSlug mergeCollectives tok name'
      guestTokensValues' first.2
    = (Err (InvalidToken "Invalid email confirmation token"),
       emit (Sql User_findOne) first.2).
Proof.
  intros Hnone Hu Hunconfirmed Hprior Honly first.
  destruct (confirm_plain_run generateSlug mergeCollectives tok name
              guestTokensValues w u prior Hnone Hu Hunconfirmed Hprior)
    as (account & w' & Hrun & _ & _ & HU & _).
  subst first. rewrite Hrun. simpl. split; [by eexists|].
  assert (user_by_confirmation_token (store w') tok = None) as Hgone.
  { apply user_by_confirmation_token_None. intros r Hin _. rewrite HU in Hin.
    by apply (users_confirmed_token u (clock w) (Users (store w))). }
  unfold user_by_confirmation_token in Hgone.
  unfold confirmGuestAccount, User_findOne_where. run. by rewrite Hgone.
Qed.

Lemma test_world_bob_confirmation :
  user_by_confirmation_token (store test_world) "confirm-bob"
  = Some (user bob_profile)
  ∧ User.confirmedAt (user bob_profile) = None
  ∧ collective_by_id (store test_world) (User.CollectiveId (user bob_profile))
    = Some (collective bob_profile)
  ∧ (∀ r, r ∈ Users (store test_world) →
          User.emailConfirmationToken r = Some "confirm-bob" →
          User.id r = User.id (user bob_profile)).
Proof.
  repeat split.
  intros r Hin Htok. simpl in Hin.
  repeat (apply elem_of_cons in Hin as [-> | Hin]; [try done|]).
  by apply elem_of_nil in Hin.
Defined.

Lemma confirmation_token_works_once_witness :
  let first := confirmGuestAccount lowercase_generateSlug moving_mergeCollectives
                 "confirm-bob" None None test_world in
  (∃ account, first.1 = Ok account)
  ∧ confirmGuestAccount lowercase_generateSlug moving_mergeCollectives
      "confirm-bob" (Some "Bob") (Some ["guest-token-ada"]) first.2
    = (Err (InvalidToken "Invalid email confirmation token"),
       emit (Sql User_findOne) first.2).
Proof.
  destruct test_world_bob_confirmation as (Hu & Hunconfirmed & Hprior & Honly).
  exact (confirmation_token_works_once lowercase_generateSlug
           moving_mergeCollectives "confirm-bob" None (Some "Bob") None
           (Some ["guest-token-ada"]) test_world (user bob_profile)
           (collective bob_profile) eq_refl Hu Hunconfirmed Hprior Honly).
Defined.

Lemma destroy_token_value (ids : list Z) (at_ : Z) (g : GuestToken.t) :
  GuestToken.value (destroy_token ids at_ g) = GuestToken.value g
  ∧ GuestToken.CollectiveId (destroy_token ids at_ g) = GuestToken.CollectiveId g
  ∧ GuestToken.id (destroy_token ids at_ g) = GuestToken.id g.
Proof. unfold destroy_token. by destruct (GuestToken.live g && _). Qed.

Lemma destroy_token_dead (ids : list Z) (at_ : Z) (g : GuestToken.t) :
  GuestToken.CollectiveId g ∈ ids →
  GuestToken.deletedAt (destroy_token ids at_ g) ≠ None.
Proof.
  intros Hin. unfold destroy_token, GuestToken.live.
  rewrite (bool_decide_eq_true_2 (GuestToken.CollectiveId g ∈ ids)) by done.
  destruct (decide (GuestToken.deletedAt g = None)) as [Hlive|Hgone].
  - by rewrite bool_decide_eq_true_2.
  - by rewrite bool_decide_eq_false_2.
Qed.

Lemma destroy_token_other (ids : list Z) (at_ : Z) (g : GuestToken.t) :
  GuestToken.CollectiveId g ∉ ids → destroy_token ids at_ g = g.
Proof.
  intros Hout. unfold destroy_token.
  rewrite (bool_decide_eq_false_2 (GuestToken.CollectiveId g ∈ ids)) by done.
  by rewrite andb_false_r.
Qed.

(** X13 — what a confirmation without linked tokens leaves in the store:
    every row of the user is confirmed at the time of the call and has lost
    its confirmation token; every guest token of the confirmed profile is
    deleted; every guest token of another profile is still there exactly
    as it was, and so are the orders.  No merge is started. *)
Theorem confirm_alone_touches_own_rows generateSlug mergeCollectives
    (tok : string) (name : option string)
    (guestTokensValues : option (list string))
    (w : World) (u : User.t) (prior : Collective.t) :
  default [] guestTokensValues = [] →
  user_by_confirmation_token (store w) tok = Some u →
  User.confirmedAt u = None →
  collective_by_id (store w) (User.CollectiveId u) = Some prior →
  ∃ account w',
    confirmGuestAccount generateSlug mergeCollectives tok name
      guestTokensValues w = (Ok account, w')
    ∧ Collective.id account = Collective.id prior
    ∧ (∀ r, r ∈ Users (store w') → User.id r = User.id u →
            User.confirmedAt r = Some (clock w)
            ∧ User.emailConfirmationToken r = None)
    ∧ (∀ g, g ∈ GuestTokens (store w') →
            GuestToken.CollectiveId g = Collective.id account →
            GuestToken.deletedAt g ≠ None)
    ∧ (∀ g, g ∈ GuestTokens (store w) →
            GuestToken.CollectiveId g ≠ Collective.id account →
            g ∈ GuestTokens (store w'))
    ∧ length (GuestTokens (store w')) = length (GuestTokens (store w))
    ∧ Orders (store w') = Orders (store w)
    ∧ Forall (λ e, match e with MergeCollectives _ _ => False | _ => True end)
        (drop (length (trace w)) (trace w')).
Proof.
  intros Hnone Hu Hunconfirmed Hprior.
  destruct (confirm_plain_run generateSlug mergeCollectives tok name
              guestTokensValues w u prior Hnone Hu Hunconfirmed Hprior)
    as (account & w' & Hrun & Hid & _ & HU & HG & HO & _ & _ & _ & _ & Htrace).
  exists account, w'. split; [done|]. split; [done|].
  rewrite HU, HG, HO, Htrace, Hid.
  split.
  { intros r Hin Hr. unfold users_confirmed in Hin.
    apply list_elem_of_fmap in Hin as (r0 & -> & Hin0).
    destruct (decide (User.id r0 = User.id u)) as [Hid0|Hid0].
    - by rewrite bool_decide_eq_true_2.
    - by rewrite bool_decide_eq_false_2 in Hr. }
  split.
  { intros g Hin Hown.
    apply list_elem_of_fmap in Hin as (g0 & -> & Hin0).
    apply destroy_token_dead.
    destruct (destroy_token_value [Collective.id prior] (clock w) g0) as (_ & HC & _).
    rewrite HC in Hown. rewrite Hown. set_solver. }
  split.
  { intros g Hin Hother.
    apply list_elem_of_fmap. exists g. split; [|done].
    symmetry. apply destroy_token_other.
    by intros Hsame%list_elem_of_singleton. }
  split; [by rewrite length_fmap|]. split; [done|].
  rewrite drop_app_length. repeat constructor.
Qed.

Lemma confirm_alone_touches_own_rows_witness :
  ∃ account w',
    confirmGuestAccount lowercase_generateSlug moving_mergeCollectives
      "confirm-bob" None (Some []) test_world = (Ok account, w')
    ∧ Collective.id account = Collective.id (collective bob_profile)
    ∧ (∀ r, r ∈ Users (store w') → User.id r = User.id (user bob_profile) →
            User.confirmedAt r = Some (clock test_world)
            ∧ User.emailConfirmationToken r = None)
    ∧ (∀ g, g ∈ GuestTokens (store w') →
            GuestToken.CollectiveId g = Collective.id account →
            GuestToken.deletedAt g ≠ None)
    ∧ (∀ g, g ∈ GuestTokens (store test_world) →
            GuestToken.CollectiveId g ≠ Collective.id account →
            g ∈ GuestTokens (store w'))
    ∧ length (GuestTokens (store w')) = length (GuestTokens (store test_world))
    ∧ Orders (store w') = Orders (store test_world)
    ∧ Forall (λ e, match e with MergeCollectives _ _ => False | _ => True end)
        (drop (length (trace test_world)) (trace w')).
Proof.
  destruct test_world_bob_confirmation as (Hu & Hunconfirmed & Hprior & _).
  exact (confirm_alone_touches_own_rows lowercase_generateSlug
           moving_mergeCollectives "confirm-bob" None (Some []) test_world
           (user bob_profile) (collective bob_profile) eq_refl Hu Hunconfirmed
           Hprior).
Defined.

(** X14 — once a profile is confirmed its guest token is dead: a token
    value that belonged only to the confirmed profile is rejected by
    [loadGuestToken] as invalid after the confirmation. *)
Theorem confirmed_profile_token_is_refused generateSlug mergeCollectives
    (tok value : string) (name : option string)
    (guestTokensValues : option (list string))
    (w : World) (u : User.t) (prior : Collective.t) :
  default [] guestTokensValues = [] →
  user_by_confirmation_token (store w) tok = Some u →
  User.confirmedAt u = None →
  collective_by_id (store w) (User.CollectiveId u) = Some prior →
  (∀ g, g ∈ GuestTokens (store w) → GuestToken.value g = value →
        GuestToken.CollectiveId g = Collective.id prior) →
  let confirmed := confirmGuestAccount generateSlug mergeCollectives tok name
                     guestTokensValues w in
  (∃ account, confirmed.1 = Ok account)
  ∧ loadGuestToken value confirmed.2
    = (Err (PlainError INVALID_TOKEN_MSG),
       emit (Sql GuestToken_findOne) confirmed.2).
Proof.
  intros Hnone Hu Hunconfirmed Hprior Hown confirmed.
  destruct (confirm_plain_run generateSlug mergeCollectives tok name
              guestTokensValues w u prior Hnone Hu Hunconfirmed Hprior)
    as (account & w' & Hrun & _ & _ & _ & HG & _).
  subst confirmed. rewrite Hrun. simpl. split; [by eexists|].
  rewrite loadGuestToken_run, token_by_value_None; [done|].
  rewrite HG. apply Forall_fmap, Forall_forall. intros g Hin. simpl.
  destruct (destroy_token_value [Collective.id prior] (clock w) g) as (-> & _ & _).
  intros Hvalue. apply destroy_token_dead.
  rewrite (Hown g Hin Hvalue). set_solver.
Qed.

Lemma confirmed_profile_token_is_refused_witness :
  let confirmed := confirmGuestAccount lowercase_generateSlug
                     moving_mergeCollectives "confirm-bob" None None test_world in
  (∃ account, confirmed.1 = Ok account)
  ∧ loadGuestToken "guest-token-bob" confirmed.2
    = (Err (PlainError INVALID_TOKEN_MSG),
       emit (Sql GuestToken_findOne) confirmed.2).
Proof.
  destruct test_world_bob_confirmation as (Hu & Hunconfirmed & Hprior & _).
  refine (confirmed_profile_token_is_refused lowercase_generateSlug
            moving_mergeCollectives "confirm-bob" "guest-token-bob" None None
            test_world (user bob_profile) (collective bob_profile)
            eq_refl Hu Hunconfirmed Hprior _).
  intros g Hin Hvalue. simpl in Hin.
  repeat (apply elem_of_cons in Hin as [-> | Hin]; [try done|]).
  by apply elem_of_nil in Hin.
Defined.

(** X15 — the confirmation is not undone when it fails later: for a user
    whose profile is gone (no live collective), the user is first written
    as confirmed, then reading the profile's name fails with a
    [TypeError]; the call rejects, and the user stays confirmed with the
    token cleared. *)
Theorem confirm_without_profile_still_confirms generateSlug mergeCollectives
    (tok : string) (name : option string)
    (guestTokensValues : option (list string)) (w : World) (u : User.t) :
  user_by_confirmation_token (store w) tok = Some u →
  User.confirmedAt u = None →
  collective_by_id (store w) (User.CollectiveId u) = None →
  let out := confirmGuestAccount generateSlug mergeCollectives tok name
               guestTokensValues w in
  (∃ message, out.1 = Err (TypeError message))
  ∧ Users (store out.2) = users_confirmed u (clock w) (Users (store w))
  ∧ trace out.2
    = trace w ++ [Sql User_findOne; Sql User_update; Sql User_getCollective].
Proof.
  unfold user_by_confirmation_token. intros Hu Hunconfirmed Hgone. cbv zeta.
  unfold confirmGuestAccount, User_findOne_where, User_update_confirmed,
    User_getCollective_of.
  run. rewrite Hu. simpl.
  rewrite unconfirmed_not_confirmed by done.
  unfold collective_by_id in *. simpl. rewrite Hgone. simpl.
  split; [by eexists|]. split; [done|]. by rewrite <- !app_assoc.
Qed.

Lemma confirm_without_profile_still_confirms_witness :
  let w := with_store
             {| Collectives := [];
                Users := [User.mk 7 "eve@example.org" None 8 (Some "confirm-eve") None];
                GuestTokens := []; Orders := []; next_Collective := 9;
                next_User := 8; next_GuestToken := 1 |} test_world in
  let out := confirmGuestAccount lowercase_generateSlug moving_mergeCollectives
               "confirm-eve" None None w in
  (∃ message, out.1 = Err (TypeError message))
  ∧ Users (store out.2)
    = users_confirmed (User.mk 7 "eve@example.org" None 8 (Some "confirm-eve") None)
        (clock w) (Users (store w))
  ∧ trace out.2
    = trace w ++ [Sql User_findOne; Sql User_update; Sql User_getCollective].
Proof.
  apply (confirm_without_profile_still_confirms lowercase_generateSlug
           moving_mergeCollectives "confirm-eve" None None
           (with_store
              {| Collectives := [];
                 Users := [User.mk 7 "eve@example.org" None 8 (Some "confirm-eve") None];
                 GuestTokens := []; Orders := []; next_Collective := 9;
                 next_User := 8; next_GuestToken := 1 |} test_world)
           (User.mk 7 "eve@example.org" None 8 (Some "confirm-eve") None));
    reflexivity.
Defined.

(* ===================================================================== *)
(** ** Confirmation: linking other guest profiles *)
(* ===================================================================== *)

Lemma Promise_all_cons (call : M unit) (rest : list (M unit)) (w : World) :
  Promise_all (call :: rest) w
  = match call w with
    | (Ok _, w') => Promise_all rest w'
    | (Err e, w') => (Err e, (Promise_all rest w').2)
    end.
Proof. reflexivity. Qed.

Lemma mergeCollectives_call_run mergeCollectives (from into : Collective.t)
    (w : World) :
  mergeCollectives_call mergeCollectives from into w
  = ((mergeCollectives from into (clock w) (store w)).1,
     {| store := (mergeCollectives from into (clock w) (store w)).2;
        counters := counters w; clock := clock w;
        trace := trace w ++ [MergeCollectives (Collective.id from)
                               (Collective.id into)] |}).
Proof.
  unfold mergeCollectives_call, emit, with_store. simpl.
  by destruct (mergeCollectives from into (clock w) (store w)).
Qed.

Lemma Promise_all_merges mergeCollectives (into : Collective.t)
    (guests : list (GuestToken.t * Collective.t)) (w : World) :
  let out := Promise_all
               ((λ t, mergeCollectives_call mergeCollectives (snd t) into)
                  <$> guests) w in
  trace out.2
  = trace w ++ ((λ t, MergeCollectives (Collective.id (snd t)) (Collective.id into))
                  <$> guests)
  ∧ clock out.2 = clock w
  ∧ counters out.2 = counters w.
Proof.
  cbv zeta. revert w. induction guests as [|t guests IH]; intros w.
  - simpl. by rewrite app_nil_r.
  - rewrite !fmap_cons, Promise_all_cons, mergeCollectives_call_run.
    destruct (mergeCollectives (snd t) into (clock w) (store w)) as [[[]|e] s'];
      cbn [fst snd];
      match goal with
      | |- context [Promise_all _ ?w1] =>
          destruct (IH w1) as (Ht & Hc & Hk)
      end;
      cbn [fst snd trace clock counters] in *;
      rewrite Ht, Hc, Hk; by rewrite <- app_assoc.
Qed.

Lemma Promise_all_merges_keep_tokens mergeCollectives (into : Collective.t)
    (guests : list (GuestToken.t * Collective.t)) (w : World) :
  (∀ from into at_ s,
     GuestTokens (mergeCollectives from into at_ s).2 = GuestTokens s) →
  GuestTokens
    (store (Promise_all
              ((λ t, mergeCollectives_call mergeCollectives (snd t) into)
                 <$> guests) w).2)
  = GuestTokens (store w).
Proof.
  intros Hkeep. revert w. induction guests as [|t guests IH]; intros w.
  - done.
  - rewrite !fmap_cons, Promise_all_cons, mergeCollectives_call_run.
    pose proof (Hkeep (snd t) into (clock w) (store w)) as Hstep.
    destruct (mergeCollectives (snd t) into (clock w) (store w)) as [[[]|e] s'];
      cbn [fst snd] in *; rewrite IH; exact Hstep.
Qed.

(** The join of the guest tokens sees the same other profiles after the
    user and the confirmed profile were updated. *)
Lemma linked_guests_after_update (s s' : Store) (values : list string)
    (c : Collective.t) (ch : Collective.changes) :
  Collectives s'
  = (λ r, if bool_decide (Collective.id r = Collective.id c)
          then Collective.apply ch r else r) <$> Collectives s →
  GuestTokens s' = GuestTokens s →
  linked_guests s' values (Collective.id c) = linked_guests s values (Collective.id c).
Proof.
  intros HC HG. unfold linked_guests, tokens_with_collective. rewrite HG.
  assert (∀ i, collective_by_id s' i
               = (λ r, if bool_decide (Collective.id r = Collective.id c)
                       then Collective.apply ch r else r)
                   <$> collective_by_id s i) as Hby.
  { intros i. unfold collective_by_id at 1. rewrite HC.
    apply collective_by_id_after_update. }
  clear HG.
  induction (GuestTokens s) as [|g l IH]; [done|]. csimpl. rewrite IH, Hby.
  destruct (GuestToken.live g); [|done].
  destruct (collective_by_id s (GuestToken.CollectiveId g)) as [r|]; [|done].
  simpl.
  destruct (decide (Collective.id r = Collective.id c)) as [Hself|Hother].
  - rewrite (bool_decide_eq_true_2 (Collective.id r = Collective.id c)) by done.
    rewrite apply_keeps_id.
    rewrite (bool_decide_eq_false_2 (Collective.id r ≠ Collective.id c))
      by (intros Hne; by apply Hne).
    by rewrite !andb_false_r.
  - by rewrite (bool_decide_eq_false_2 (Collective.id r = Collective.id c)).
Qed.

(** A confirmation with guest tokens, run up to the merges. *)
Lemma confirm_linking_run generateSlug mergeCollectives (tok : string)
    (name : option string) (values : list string)
    (w : World) (u : User.t) (prior : Collective.t) :
  values ≠ [] →
  user_by_confirmation_token (store w) tok = Some u →
  User.confirmedAt u = None →
  collective_by_id (store w) (User.CollectiveId u) = Some prior →
  confirmGuestAccount generateSlug mergeCollectives tok name (Some values) w
  = let account :=
      Collective.apply
        (profile_changes generateSlug name u prior (clock w) (store w)) prior in
    let w2 :=
      {| store := store_profile_confirmed generateSlug name u prior (clock w)
                    (store w);
         counters := counters w; clock := clock w;
         trace := trace w ++ [ Sql User_findOne; Sql User_update;
                               Sql User_getCollective;
                               Sql Collective_generateSlug;
                               Sql (Collective_update ["name"; "slug"; "data"]);
                               Sql GuestToken_findAll ] |} in
    let guests := linked_guests (store w) values (Collective.id prior) in
    let merged :=
      Promise_all ((λ t, mergeCollectives_call mergeCollectives (snd t) account)
                     <$> guests) w2 in
    match merged.1 with
    | Ok _ =>
        (Ok account,
         (GuestToken_destroy_of
            (Collective.id prior
               :: ((λ t, GuestToken.CollectiveId (fst t)) <$> guests))
            merged.2).2)
    | Err e => (Err e, merged.2)
    end.
Proof.
  unfold user_by_confirmation_token. intros Hvalues Hu Hunconfirmed Hprior.
  assert (linked_guests
            (store_profile_confirmed generateSlug name u prior (clock w) (store w))
            values (Collective.id prior)
          = linked_guests (store w) values (Collective.id prior)) as Hsame.
  { by apply (linked_guests_after_update (store w) _ values prior
                (profile_changes generateSlug name u prior (clock w) (store w))). }
  cbv zeta. rewrite <- Hsame. clear Hsame.
  unfold confirmGuestAccount, User_findOne_where, User_update_confirmed,
    User_getCollective_of, Collective_generateSlug_of, Collective_update_row.
  run. rewrite Hu. simpl.
  rewrite unconfirmed_not_confirmed by done.
  unfold collective_by_id in *. simpl. rewrite Hprior. simpl.
  unfold linkGuestProfiles, GuestToken_findAll_guests. run.
  rewrite bool_decide_eq_true_2 by (by destruct values).
  run. rewrite <- !app_assoc. simpl.
  unfold linked_guests, store_profile_confirmed, profile_changes,
    store_users_confirmed, confirmed_changes, users_confirmed.
  destruct (tokens_with_collective _ _) as [|t guests].
  - simpl. unfold GuestToken_destroy_of. run. by rewrite <- ?app_assoc.
  - rewrite bool_decide_eq_true_2 by (simpl; lia).
    unfold bind, ret, with_store, emit.
    cbn [store counters clock trace]. rewrite <- ?app_assoc.
    cbn [app].
    match goal with
    | |- context [Promise_all ?l ?w0] => set (merged := Promise_all l w0)
    end.
    match goal with
    | |- _ = match (Promise_all ?l ?w0).1 with Ok _ => _ | Err _ => _ end =>
        replace (Promise_all l w0) with merged by (subst merged; reflexivity)
    end.
    clearbody merged. destruct merged as [[[]|e] w3]; simpl; [|done].
    unfold GuestToken_destroy_of. run. by rewrite <- ?app_assoc.
Qed.

(** X16 — with guest tokens, the confirmation looks the tokens up once,
    after the user and the profile were updated, and starts one merge into
    the confirmed profile for every joined row, in the order of the rows:
    tokens that are unknown, deleted, the profile's own, or of a profile
    not flagged as guest give no row.  Every merge is started even when an
    earlier one rejects; the guest tokens are deleted after the merges and
    only when the call succeeds. *)
Theorem confirm_starts_every_merge generateSlug mergeCollectives
    (tok : string) (name : option string) (values : list string)
    (w : World) (u : User.t) (prior : Collective.t) :
  values ≠ [] →
  user_by_confirmation_token (store w) tok = Some u →
  User.confirmedAt u = None →
  collective_by_id (store w) (User.CollectiveId u) = Some prior →
  let guests := linked_guests (store w) values (Collective.id prior) in
  let out := confirmGuestAccount generateSlug mergeCollectives tok name
               (Some values) w in
  trace out.2
  = trace w
    ++ [ Sql User_findOne; Sql User_update; Sql User_getCollective;
         Sql Collective_generateSlug;
         Sql (Collective_update ["name"; "slug"; "data"]);
         Sql GuestToken_findAll ]
    ++ ((λ t, MergeCollectives (Collective.id (snd t)) (Collective.id prior))
          <$> guests)
    ++ match out.1 with
       | Ok _ => [Sql GuestToken_destroy]
       | Err _ => []
       end.
Proof.
  intros Hvalues Hu Hunconfirmed Hprior guests out. subst out guests.
  rewrite (confirm_linking_run generateSlug mergeCollectives tok name values
             w u prior) by done.
  cbv zeta.
  pose proof (Promise_all_merges mergeCollectives
                (Collective.apply
                   (profile_changes generateSlug name u prior (clock w) (store w))
                   prior)
                (linked_guests (store w) values (Collective.id prior))
                {| store := store_profile_confirmed generateSlug name u prior
                              (clock w) (store w);
                   counters := counters w; clock := clock w;
                   trace := trace w ++ [ Sql User_findOne; Sql User_update;
                                         Sql User_getCollective;
                                         Sql Collective_generateSlug;
                                         Sql (Collective_update
                                                ["name"; "slug"; "data"]);
                                         Sql GuestToken_findAll ] |})
    as Hmerges.
  cbv zeta in Hmerges. destruct Hmerges as (Ht & _ & _).
  destruct (Promise_all _ _) as [[[]|e] w3]; cbn [fst snd] in *.
  - unfold GuestToken_destroy_of. run. rewrite Ht. simpl.
    by rewrite <- !app_assoc.
  - rewrite Ht. simpl. by rewrite <- !app_assoc, app_nil_r.
Qed.

Lemma confirm_starts_every_merge_witness :
  let guests := linked_guests (store test_world)
                  ["nope"; "guest-token-ada"; "guest-token-ada-bis"] 1 in
  let out := confirmGuestAccount lowercase_generateSlug moving_mergeCollectives
               "confirm-ada" None
               (Some ["nope"; "guest-token-ada"; "guest-token-ada-bis"])
               test_world in
  trace out.2
  = trace test_world
    ++ [ Sql User_findOne; Sql User_update; Sql User_getCollective;
         Sql Collective_generateSlug;
         Sql (Collective_update ["name"; "slug"; "data"]);
         Sql GuestToken_findAll ]
    ++ ((λ t, MergeCollectives (Collective.id (snd t)) 1) <$> guests)
    ++ match out.1 with
       | Ok _ => [Sql GuestToken_destroy]
       | Err _ => []
       end.
Proof.
  refine (confirm_starts_every_merge lowercase_generateSlug
            moving_mergeCollectives "confirm-ada" None
            ["nope"; "guest-token-ada"; "guest-token-ada-bis"] test_world
            (User.mk 1 "ada@example.org" None 1 (Some "confirm-ada") None)
            (Collective.mk 1 "USER" "guest-1a2b3c4d" (Some "Guest") guest_data
               None None (Some 1) None) _ _ _ _).
  - discriminate.
  - reflexivity.
  - reflexivity.
  - reflexivity.
Defined.

(** X17 — when the merges leave the guest tokens alone and all succeed,
    the confirmation deletes, at the time of the call, exactly the live
    guest tokens of the confirmed profile and of the profiles it linked;
    every other token row is as it was. *)
Theorem confirm_deletes_linked_tokens generateSlug mergeCollectives
    (tok : string) (name : option string) (values : list string)
    (w : World) (u : User.t) (prior account : Collective.t) (w' : World) :
  (∀ from into at_ s,
     GuestTokens (mergeCollectives from into at_ s).2 = GuestTokens s) →
  values ≠ [] →
  user_by_confirmation_token (store w) tok = Some u →
  User.confirmedAt u = None →
  collective_by_id (store w) (User.CollectiveId u) = Some prior →
  confirmGuestAccount generateSlug mergeCollectives tok name (Some values) w
  = (Ok account, w') →
  let guests := linked_guests (store w) values (Collective.id prior) in
  let ids := Collective.id prior
             :: ((λ t, GuestToken.CollectiveId (fst t)) <$> guests) in
  GuestTokens (store w') = destroy_token ids (clock w) <$> GuestTokens (store w)
  ∧ (∀ g, g ∈ GuestTokens (store w') → GuestToken.CollectiveId g ∈ ids →
          GuestToken.deletedAt g ≠ None)
  ∧ (∀ g, g ∈ GuestTokens (store w) → GuestToken.CollectiveId g ∉ ids →
          g ∈ GuestTokens (store w')).
Proof.
  intros Hkeep Hvalues Hu Hunconfirmed Hprior Hrun guests ids.
  assert (GuestTokens (store w')
          = destroy_token ids (clock w) <$> GuestTokens (store w)) as HG.
  { rewrite (confirm_linking_run generateSlug mergeCollectives tok name values
               w u prior) in Hrun by done.
    cbv zeta in Hrun.
    pose proof (Promise_all_merges mergeCollectives
                  (Collective.apply
                     (profile_changes generateSlug name u prior (clock w) (store w))
                     prior)
                  (linked_guests (store w) values (Collective.id prior))
                  {| store := store_profile_confirmed generateSlug name u prior
                                (clock w) (store w);
                     counters := counters w; clock := clock w;
                     trace := trace w ++ [ Sql User_findOne; Sql User_update;
                                           Sql User_getCollective;
                                           Sql Collective_generateSlug;
                                           Sql (Collective_update
                                                  ["name"; "slug"; "data"]);
                                           Sql GuestToken_findAll ] |})
      as Hmerges.
    pose proof (Promise_all_merges_keep_tokens mergeCollectives
                  (Collective.apply
                     (profile_changes generateSlug name u prior (clock w) (store w))
                     prior)
                  (linked_guests (store w) values (Collective.id prior))
                  {| store := store_profile_confirmed generateSlug name u prior
                                (clock w) (store w);
                     counters := counters w; clock := clock w;
                     trace := trace w ++ [ Sql User_findOne; Sql User_update;
                                           Sql User_getCollective;
                                           Sql Collective_generateSlug;
                                           Sql (Collective_update
                                                  ["name"; "slug"; "data"]);
                                           Sql GuestToken_findAll ] |} Hkeep)
      as Htokens.
    cbv zeta in Hmerges. destruct Hmerges as (_ & Hclock & _).
    destruct (Promise_all _ _) as [[[]|e] w3]; cbn [fst snd] in *;
      [|discriminate].
    injection Hrun as _ <-.
    unfold GuestToken_destroy_of. run. by rewrite Htokens, Hclock. }
  split; [exact HG|]. rewrite HG. split.
  - intros g Hin Hids.
    apply list_elem_of_fmap in Hin as (g0 & -> & Hin0).
    apply destroy_token_dead.
    by destruct (destroy_token_value ids (clock w) g0) as (_ & <- & _).
  - intros g Hin Hother.
    apply list_elem_of_fmap. exists g. split; [|done].
    symmetry. by apply destroy_token_other.
Qed.

Lemma moving_mergeCollectives_keeps_tokens (from into : Collective.t) (at_ : Z)
    (s : Store) :
  GuestTokens (moving_mergeCollectives from into at_ s).2 = GuestTokens s.
Proof. reflexivity. Defined.

Lemma confirm_deletes_linked_tokens_witness :
  let out := confirmGuestAccount lowercase_generateSlug moving_mergeCollectives
               "confirm-ada" None (Some ["guest-token-ada-bis"]) test_world in
  let guests := linked_guests (store test_world) ["guest-token-ada-bis"] 1 in
  let ids := 1 :: ((λ t, GuestToken.CollectiveId (fst t)) <$> guests) in
  GuestTokens (store out.2)
  = destroy_token ids (clock test_world) <$> GuestTokens (store test_world)
  ∧ (∀ g, g ∈ GuestTokens (store out.2) → GuestToken.CollectiveId g ∈ ids →
          GuestToken.deletedAt g ≠ None)
  ∧ (∀ g, g ∈ GuestTokens (store test_world) →
          GuestToken.CollectiveId g ∉ ids → g ∈ GuestTokens (store out.2)).
Proof.
  refine (confirm_deletes_linked_tokens lowercase_generateSlug
            moving_mergeCollectives "confirm-ada" None ["guest-token-ada-bis"]
            test_world
            (User.mk 1 "ada@example.org" None 1 (Some "confirm-ada") None)
            (Collective.mk 1 "USER" "guest-1a2b3c4d" (Some "Guest") guest_data
               None None (Some 1) None)
            (Collective.mk 1 "USER" "incognito" (Some "Incognito")
               (<["isGuest" := Js.JBool false]> guest_data)
               None None (Some 1) None)
            (confirmGuestAccount lowercase_generateSlug moving_mergeCollectives
               "confirm-ada" None (Some ["guest-token-ada-bis"]) test_world).2
            moving_mergeCollectives_keeps_tokens _ _ _ _ _).
  - discriminate.
  - reflexivity.
  - reflexivity.
  - reflexivity.
  - vm_compute. reflexivity.
Defined.

(* ===================================================================== *)
(** ** Asking for the confirmation email *)
(* ===================================================================== *)

(** X18 — a signed-in caller is turned away at once: the call fails with
    [BadRequest] "You're signed in, ..." and the world is unchanged, so no
    rate limit is charged, no user is read and no mail is sent. *)
Theorem send_refuses_signed_in registerCall config toLowerCase deliver
    (args_email : string) (req : Request) (w : World) (signed_in : User.t) :
  remoteUser req = Some signed_in →
  sendGuestConfirmationEmail_resolve registerCall config toLowerCase deliver
    args_email req w
  = (Err (BadRequest
            "You're signed in, which means your account is already verified. Sign out first if you want to verify another account."
            None), w).
Proof.
  intros Hin. unfold sendGuestConfirmationEmail_resolve. rewrite Hin.
  by rewrite bool_decide_eq_true_2.
Qed.

Lemma send_refuses_signed_in_witness :
  sendGuestConfirmationEmail_resolve counting_registerCall test_config
    Js.ascii_toLowerCase delivering
    "bob@example.org" (mkRequest (Some (user bob_profile)) "10.0.0.7") test_world
  = (Err (BadRequest
            "You're signed in, which means your account is already verified. Sign out first if you want to verify another account."
            None), test_world).
Proof.
  apply (send_refuses_signed_in _ _ _ _ _ _ _ (user bob_profile)). reflexivity.
Defined.

(** X19 — once both rate limits have let the call through, the outcome is
    decided by the one lookup of the user of the trimmed, lower-cased
    email that has a live profile: [NotFound] when there is none,
    [BadRequest] "This account has already been confirmed" when that user
    is confirmed; otherwise exactly one mail of the template
    confirm-guest-account is handed to the mail library, for that address,
    with as link the website, "/confirm/guest/", the user's confirmation
    token, "?email=" and the address, and the call gives [true] when the
    library resolves and fails with the library's own error when it
    rejects.  The resolver sends no statement that writes. *)
Theorem send_outcome registerCall config toLowerCase deliver
    (args_email : string) (req : Request) (w : World) :
  remoteUser req = None →
  let ipKey := "confirm_guest_account_ip_" +:+ ip req +:+ "}" in
  let email := toLowerCase (Js.trim args_email) in
  let emailKey := "confirm_guest_account_email_" +:+ Js.base64 email in
  let byIp :=
    registerCall ipKey (confirmGuestEmailPerMinutePerIp config) 60 (counters w) in
  let byEmail :=
    registerCall emailKey (confirmGuestEmailPerMinute config) 60 byIp.2 in
  byIp.1 = true →
  byEmail.1 = true →
  let out := sendGuestConfirmationEmail_resolve registerCall config toLowerCase
               deliver args_email req w in
  let lookups := [RegisterCall ipKey; RegisterCall emailKey; Sql User_findOne] in
  let looked_up :=
    {| store := store w; counters := byEmail.2; clock := clock w;
       trace := trace w ++ lookups |} in
  store out.2 = store w
  ∧ counters out.2 = byEmail.2
  ∧ match user_with_profile_by_email (store w) email with
    | None =>
        out.1 = Err (NotFound "No user found for this email address")
        ∧ trace out.2 = trace w ++ lookups
    | Some user =>
        User.email user = email
        ∧ if User.confirmed user then
            out.1 = Err (BadRequest "This account has already been confirmed" None)
            ∧ trace out.2 = trace w ++ lookups
          else
            let link :=
              website config +:+ "/confirm/guest/"
              +:+ default "null" (User.emailConfirmationToken user)
              +:+ "?email=" +:+ email in
            out.1 = match deliver "confirm-guest-account" email link looked_up with
                    | Ok _ => Ok true
                    | Err e => Err e
                    end
            ∧ trace out.2
              = trace w ++ lookups ++ [SendEmail "confirm-guest-account" email link]
    end.
Proof.
  intros Hanon. cbv zeta.
  destruct (registerCall _ (confirmGuestEmailPerMinutePerIp config) 60 (counters w))
    as [okIp c1] eqn:HIp.
  cbn [fst snd]. intros ->.
  destruct (registerCall _ (confirmGuestEmailPerMinute config) 60 c1)
    as [okEmail c2] eqn:HEmail.
  cbn [fst snd]. intros ->.
  unfold sendGuestConfirmationEmail_resolve, RateLimit_registerCall,
    User_findOne_with_collective, emailLib_send, user_with_profile_by_email.
  rewrite Hanon. rewrite bool_decide_eq_false_2 by (intros [? ?]; discriminate).
  run. rewrite HIp. simpl. rewrite HEmail. simpl.
  destruct (List.find _ (Users (store w))) as [user|] eqn:Hfind; simpl.
  - apply List.find_some in Hfind as [_ Huser].
    apply andb_true_iff in Huser as [Huser _].
    apply andb_true_iff in Huser as [_ Huser].
    apply bool_decide_eq_true in Huser.
    destruct (User.confirmed user); run.
    + split; [done|]. split; [done|]. split; [done|].
      by rewrite <- !app_assoc.
    + rewrite Huser, <- !app_assoc. simpl.
      destruct (deliver _ _ _ _) as [[]|e]; simpl; by repeat split.
  - run. split; [done|]. split; [done|]. by rewrite <- !app_assoc.
Qed.

Lemma send_outcome_witness :
  let out := sendGuestConfirmationEmail_resolve counting_registerCall test_config
               Js.ascii_toLowerCase delivering
               " Bob@Example.org " (mkRequest None "10.0.0.7") test_world in
  out.1 = Ok true
  ∧ trace out.2
    = [ RegisterCall "confirm_guest_account_ip_10.0.0.7}";
        RegisterCall "confirm_guest_account_email_Ym9iQGV4YW1wbGUub3Jn";
        Sql User_findOne;
        SendEmail "confirm-guest-account" "bob@example.org"
          "https://opencollective.test/confirm/guest/confirm-bob?email=bob@example.org" ].
Proof.
  pose proof (send_outcome counting_registerCall test_config
                Js.ascii_toLowerCase delivering " Bob@Example.org "
                (mkRequest None "10.0.0.7") test_world eq_refl eq_refl eq_refl)
    as (_ & _ & H).
  exact (proj2 H).
Defined.

(* ===================================================================== *)
(** ** From guest profile to account *)
(* ===================================================================== *)

(** The creation for a new email, as rows, with the clock. *)
Lemma fresh_creation_rows (rnd : Random) (email : string)
    (name : option string) (location : option Location.t) (w : World) :
  ids_from_sequences (store w) →
  email ≠ "" →
  user_by_email (store w) email = None →
  let s := store w in
  let u := User.mk (next_User s) email None (next_Collective s)
             (Some (emailConfirmationToken rnd)) None in
  let c := with_creator u (created_collective rnd name location s) in
  let g := GuestToken.mk (next_GuestToken s) (guestToken rnd)
             (next_Collective s) None in
  let out := createGuestProfile rnd (Some email) name location w in
  out.1 = Ok (mkDetails u c g)
  ∧ Collectives (store out.2) = Collectives s ++ [c]
  ∧ Users (store out.2) = Users s ++ [u]
  ∧ GuestTokens (store out.2) = GuestTokens s ++ [g]
  ∧ clock out.2 = clock w.
Proof.
  intros Hids Hemail Hfresh. cbv zeta.
  pose proof (createGuestProfile_cases rnd (Some email) name location w Hids) as H.
  pose proof (createGuestProfile_trace rnd email name location w Hemail) as Ht.
  cbv zeta in H, Ht. rewrite truthy_Some in H by done. simpl in H.
  rewrite Hfresh in H. destruct H as [H1 H2], Ht as (_ & Hclock & _).
  unfold rows in H2. injection H2 as HC HU HG _. by repeat split.
Qed.

(** X20 — the path of the tests: a guest profile created for a new email
    and then confirmed with the confirmation token that was drawn for it.
    The confirmation succeeds on the collective that was created; the
    name is the one given at confirmation, else the one given at creation
    unless that was missing or "Guest", else "Incognito"; the profile is
    no longer flagged as guest; the user is confirmed; the guest token of
    the profile is deleted. *)
Theorem created_profile_confirms generateSlug mergeCollectives (rnd : Random)
    (email : string) (no_token name name' : option string)
    (location : option Location.t) (w : World) :
  ids_from_sequences (store w) →
  Js.truthy no_token = false →
  email ≠ "" →
  user_by_email (store w) email = None →
  (∀ r, r ∈ Users (store w) →
        User.emailConfirmationToken r ≠ Some (emailConfirmationToken rnd)) →
  let s := store w in
  let created := getOrCreateGuestProfile rnd (Some email) no_token name location w in
  let out := confirmGuestAccount generateSlug mergeCollectives
               (emailConfirmationToken rnd) name' None created.2 in
  ∃ account,
    out.1 = Ok account
    ∧ Collective.id account = next_Collective s
    ∧ Collective.name account
      = Some (match name' with
              | Some given => given
              | None =>
                  if decide (Js.nullish name "Guest" = "Guest") then "Incognito"
                  else Js.nullish name "Guest"
              end)
    ∧ Collective.data account !! "isGuest" = Some (Js.JBool false)
    ∧ User.mk (next_User s) email (Some (clock w)) (next_Collective s) None None
      ∈ Users (store out.2)
    ∧ GuestToken.mk (next_GuestToken s) (guestToken rnd) (next_Collective s)
        (Some (clock w))
      ∈ GuestTokens (store out.2).
Proof.
  intros Hids Htoken Hemail Hfresh Hect s created out.
  assert (created = createGuestProfile rnd (Some email) name location w) as Hcreated.
  { unfold created, getOrCreateGuestProfile. by rewrite Htoken. }
  clearbody created. subst created.
  destruct (fresh_creation_rows rnd email name location w Hids Hemail Hfresh)
    as (_ & HC & HU & HG & Hclock).
  fold s in HC, HU, HG.
  set (u := User.mk (next_User s) email None (next_Collective s)
              (Some (emailConfirmationToken rnd)) None) in *.
  set (c := with_creator u (created_collective rnd name location s)) in *.
  set (g := GuestToken.mk (next_GuestToken s) (guestToken rnd)
              (next_Collective s) None) in *.
  set (w1 := (createGuestProfile rnd (Some email) name location w).2) in *.
  assert (user_by_confirmation_token (store w1) (emailConfirmationToken rnd)
          = Some u) as Hu.
  { unfold user_by_confirmation_token. rewrite HU, find_app_after.
    - simpl. unfold User.live. simpl. by rewrite !bool_decide_eq_true_2.
    - apply Forall_forall. intros r Hin.
      rewrite (bool_decide_eq_false_2
                 (User.emailConfirmationToken r = Some (emailConfirmationToken rnd)))
        by (by apply Hect).
      apply andb_false_r. }
  assert (collective_by_id (store w1) (User.CollectiveId u) = Some c) as Hc.
  { unfold collective_by_id. rewrite HC, find_app_after.
    - simpl. unfold Collective.live. simpl. by rewrite !bool_decide_eq_true_2.
    - destruct Hids as (HidC & _ & _).
      eapply Forall_impl; [exact HidC|]. intros r Hr. simpl in *. fold s in Hr.
      rewrite (bool_decide_eq_false_2 (Collective.id r = next_Collective s)) by lia.
      apply andb_false_r. }
  destruct (confirm_plain_run generateSlug mergeCollectives
              (emailConfirmationToken rnd) name' None w1 u c eq_refl Hu eq_refl Hc)
    as (account & w' & Hrun & Hid & Haccount & HU' & HG' & _).
  subst out. rewrite Hrun. exists account. split; [done|]. split; [done|].
  cbn [snd]. rewrite HU', HG', HU, HG, Hclock. repeat split.
  - rewrite Haccount.
    unfold confirmed_changes, Collective.apply, newName_of, DEFAULT_GUEST_NAME, c,
      with_creator, created_collective.
    cbn [Collective.name Collective.set_name default].
    destruct name' as [given|]; [done|].
    case_decide as Hdefault; case_bool_decide as Hprior'; try done.
    + exfalso. apply Hprior'. f_equal. exact Hdefault.
    + exfalso. apply Hdefault. by injection Hprior'.
  - rewrite Haccount. simpl. apply lookup_insert_eq.
  - unfold users_confirmed. rewrite fmap_app. apply elem_of_app. right.
    simpl. rewrite bool_decide_eq_true_2 by done. apply list_elem_of_here.
  - rewrite fmap_app. apply elem_of_app. right. simpl.
    unfold destroy_token, GuestToken.live. simpl.
    rewrite (bool_decide_eq_true_2 (next_Collective s ∈ [next_Collective s]))
      by apply list_elem_of_here.
    simpl. apply list_elem_of_here.
Qed.

Lemma created_profile_confirms_witness :
  let created := getOrCreateGuestProfile test_random (Some "dan@example.org") None
                   (Some "Zappa") None test_world in
  let out := confirmGuestAccount lowercase_generateSlug moving_mergeCollectives
               "c0ffee" None None created.2 in
  ∃ account,
    out.1 = Ok account
    ∧ Collective.id account = 5
    ∧ Collective.name account = Some "Zappa"
    ∧ Collective.data account !! "isGuest" = Some (Js.JBool false)
    ∧ User.mk 4 "dan@example.org" (Some 1603200000) 5 None None
      ∈ Users (store out.2)
    ∧ GuestToken.mk 4 "decade" 5 (Some 1603200000) ∈ GuestTokens (store out.2).
Proof.
  refine (created_profile_confirms lowercase_generateSlug moving_mergeCollectives
            test_random "dan@example.org" None (Some "Zappa") None None
            test_world test_store_ids _ _ _ _).
  - reflexivity.
  - discriminate.
  - reflexivity.
  - intros r Hin. simpl in Hin.
    repeat (apply elem_of_cons in Hin as [-> | Hin]; [discriminate|]).
    by apply elem_of_nil in Hin.
Defined.

(** A creation for the email of a confirmed user, run: no invariant on the
    ids is asked for. *)
Lemma createGuestProfile_refused (rnd : Random) (email : string)
    (name : option string) (location : option Location.t) (w : World)
    (u : User.t) :
  email ≠ "" →
  user_by_email (store w) email = Some u →
  User.confirmedAt u ≠ None →
  let out := createGuestProfile rnd (Some email) name location w in
  out.1 = Err (PlainError ALREADY_EXISTS_MSG)
  ∧ rows (store out.2) = rows (store w).
Proof.
  unfold user_by_email. intros Hemail Hu Hconfirmed. cbv zeta.
  unfold createGuestProfile. rewrite truthy_Some by done. simpl negb. cbv iota.
  unfold transaction, createGuestProfile_body, Collective_create_row,
    User_findOne_where.
  run. rewrite Hu. simpl. unfold User.confirmed.
  by rewrite bool_decide_eq_true_2.
Qed.

(** X21 — after the confirmation the email is closed to guest requests: a
    request without a token for the email of the user that was just
    confirmed is refused with "An account already exists for this email,
    please sign in." and adds no row. *)
Theorem confirmed_email_closes_guest_path generateSlug mergeCollectives
    (rnd : Random) (tok : string) (name name' no_token : option string)
    (guestTokensValues : option (list string)) (location : option Location.t)
    (w : World) (u : User.t) (prior : Collective.t) :
  default [] guestTokensValues = [] →
  user_by_confirmation_token (store w) tok = Some u →
  User.confirmedAt u = None →
  collective_by_id (store w) (User.CollectiveId u) = Some prior →
  User.email u ≠ "" →
  user_by_email (store w) (User.email u) = Some u →
  Js.truthy no_token = false →
  let confirmed := confirmGuestAccount generateSlug mergeCollectives tok name
                     guestTokensValues w in
  let out := getOrCreateGuestProfile rnd (Some (User.email u)) no_token name'
               location confirmed.2 in
  (∃ account, confirmed.1 = Ok account)
  ∧ out.1 = Err (PlainError ALREADY_EXISTS_MSG)
  ∧ rows (store out.2) = rows (store confirmed.2).
Proof.
  intros Hnone Hu Hunconfirmed Hprior Hemail Hfirst Htoken confirmed out.
  destruct (confirm_plain_run generateSlug mergeCollectives tok name
              guestTokensValues w u prior Hnone Hu Hunconfirmed Hprior)
    as (account & w' & Hrun & _ & _ & HU & _).
  subst out confirmed. rewrite Hrun. cbn [fst snd].
  split; [by eexists|].
  unfold getOrCreateGuestProfile. rewrite Htoken.
  apply (createGuestProfile_refused rnd (User.email u) name' location w'
           (confirm_user (clock w) u)); [done| |done].
  unfold user_by_email in *. rewrite HU. unfold users_confirmed.
  rewrite find_fmap_stable.
  - rewrite Hfirst. simpl. by rewrite bool_decide_eq_true_2.
  - intros r. by destruct (bool_decide (User.id r = User.id u)).
Qed.

Lemma confirmed_email_closes_guest_path_witness :
  let confirmed := confirmGuestAccount lowercase_generateSlug
                     moving_mergeCollectives "confirm-bob" None None test_world in
  let out := getOrCreateGuestProfile test_random (Some "bob@example.org") None
               (Some "Bob") None confirmed.2 in
  (∃ account, confirmed.1 = Ok account)
  ∧ out.1 = Err (PlainError ALREADY_EXISTS_MSG)
  ∧ rows (store out.2) = rows (store confirmed.2).
Proof.
  destruct test_world_bob_confirmation as (Hu & Hunconfirmed & Hprior & _).
  refine (confirmed_email_closes_guest_path lowercase_generateSlug
            moving_mergeCollectives test_random "confirm-bob" None (Some "Bob")
            None None None test_world (user bob_profile) (collective bob_profile)
            eq_refl Hu Hunconfirmed Hprior _ _ _).
  - discriminate.
  - reflexivity.
  - reflexivity.
Defined.

(* ===================================================================== *)
(** ** Tokens that are turned away *)
(* ===================================================================== *)

(** X22 — a guest token whose user is already confirmed is refused
    whatever comes with it, also a new email: the request fails with "An
    account already exists for this email, please sign in." after the two
    lookups, and nothing is created or updated. *)
Theorem token_of_confirmed_user_is_refused (rnd : Random) (tokenValue : string)
    (email name : option string) (location : option Location.t)
    (w w1 : World) (d : GuestProfileDetails) :
  tokenValue ≠ "" →
  loadGuestToken tokenValue w = (Ok d, w1) →
  User.confirmedAt (user d) ≠ None →
  getOrCreateGuestProfile rnd email (Some tokenValue) name location w
  = (Err (PlainError ALREADY_EXISTS_MSG),
     emit (Sql User_findOne) (emit (Sql GuestToken_findOne) w)).
Proof.
  intros Htok Hload Hconfirmed.
  destruct (loadGuestToken_Ok _ _ _ _ Hload) as (_ & _ & <-).
  unfold getOrCreateGuestProfile. rewrite truthy_Some by done.
  rewrite getGuestProfileFromToken_run. simpl default. rewrite Hload.
  unfold User.confirmed. by rewrite bool_decide_eq_true_2.
Qed.

Lemma token_of_confirmed_user_is_refused_witness :
  let w := with_store
             {| Collectives := Collectives test_store; Users := Users test_store;
                GuestTokens := [GuestToken.mk 9 "guest-token-carol" 3 None];
                Orders := []; next_Collective := 5; next_User := 4;
                next_GuestToken := 10 |} test_world in
  getOrCreateGuestProfile test_random (Some "new@example.org")
    (Some "guest-token-carol") None None w
  = (Err (PlainError ALREADY_EXISTS_MSG),
     emit (Sql User_findOne) (emit (Sql GuestToken_findOne) w)).
Proof.
  refine (token_of_confirmed_user_is_refused test_random "guest-token-carol"
            (Some "new@example.org") None None _ _
            (mkDetails
               (User.mk 3 "carol@example.org" (Some 1600000000) 3 None None)
               (Collective.mk 3 "USER" "carol" (Some "Carol") ∅ None None
                  (Some 3) None)
               (GuestToken.mk 9 "guest-token-carol" 3 None)) _ _ _).
  - discriminate.
  - vm_compute. reflexivity.
  - discriminate.
Defined.

(** X23 — a guest token whose profile has lost its user (the user was
    removed) is refused as invalid after the two lookups, whatever email
    comes with it; nothing is created, so the token cannot be used to
    start a profile for another email. *)
Theorem token_without_user_is_refused (rnd : Random) (tokenValue : string)
    (email name : option string) (location : option Location.t)
    (w : World) (g : GuestToken.t) (c : Collective.t) :
  tokenValue ≠ "" →
  token_by_value (store w) tokenValue = Some (g, c) →
  (∀ u, u ∈ Users (store w) → User.CollectiveId u = Collective.id c →
        User.deletedAt u ≠ None) →
  getOrCreateGuestProfile rnd email (Some tokenValue) name location w
  = (Err (PlainError INVALID_TOKEN_MSG),
     emit (Sql User_findOne) (emit (Sql GuestToken_findOne) w)).
Proof.
  intros Htok Hg Hremoved.
  assert (user_of_collective (store w) (Collective.id c) = None) as Hu.
  { apply find_none_of_Forall, Forall_forall. intros u Hin.
    unfold User.live.
    destruct (decide (User.CollectiveId u = Collective.id c)) as [Hown|Hother].
    - rewrite (bool_decide_eq_false_2 (User.deletedAt u = None)); [done|].
      by apply Hremoved.
    - rewrite (bool_decide_eq_false_2 (User.CollectiveId u = Collective.id c))
        by done.
      apply andb_false_r. }
  unfold getOrCreateGuestProfile. rewrite truthy_Some by done.
  rewrite getGuestProfileFromToken_run. simpl default.
  rewrite loadGuestToken_run, Hg. cbv zeta. by rewrite Hu.
Qed.

Lemma token_without_user_is_refused_witness :
  let w := with_store
             {| Collectives := Collectives test_store;
                Users := [User.mk 2 "bob@example.org" None 2 (Some "confirm-bob")
                            (Some 1600000000)];
                GuestTokens := GuestTokens test_store;
                Orders := []; next_Collective := 5; next_User := 4;
                next_GuestToken := 4 |} test_world in
  getOrCreateGuestProfile test_random (Some "eve@example.org")
    (Some "guest-token-bob") None None w
  = (Err (PlainError INVALID_TOKEN_MSG),
     emit (Sql User_findOne) (emit (Sql GuestToken_findOne) w)).
Proof.
  refine (token_without_user_is_refused test_random "guest-token-bob"
            (Some "eve@example.org") None None _
            (token bob_profile) (collective bob_profile) _ _ _).
  - discriminate.
  - vm_compute. reflexivity.
  - intros u Hin _. simpl in Hin.
    apply list_elem_of_singleton in Hin as ->. discriminate.
Defined.
